(** * price: an in-memory item catalogue served over HTTP

    A shallow embedding of [price.go]: the [Item] record and the package
    level slice [items], the handlers [GetItemsHandler], [AddItemHandler],
    [ServeStaticFiles] and [NotFoundHandler], the [loggingMiddleware], the
    routes bound in [main] and the life cycle of [main] itself.

    The program is glue around a few libraries.  What it relies on is
    modelled next to it, each part in a module named after its Go package:
    - [json]: [Decoder.Decode] into an [Item] (scanner, unquoting, store)
      and [Encoder.Encode];
    - [path]: [path.Clean], [path.Base], [filepath.Ext] and the like;
    - [http]: the [ResponseWriter], [http.Error], [http.NotFound],
      [http.StripPrefix], [http.FileServer] and [http.ServeFile], with
      the preconditions and the ranges the file server answers;
    - [mux]: path cleaning and route matching.
    Strings are Go strings, sequences of bytes ([string] of [ascii]); a
    request is its method, its URL (path, encoded path and query), its
    header fields and its body, and its handlers run one after the
    other.  The first part of the file holds the
    definitions, the second the properties. *)

From Stdlib Require Import ZArith NArith String Ascii List Bool Lia.
From Stdlib Require Import DecimalString DecimalZ DecimalN.
From stdpp Require Import base option list gmap strings.

Import ListNotations.
Local Set Warnings "-register-all".
Local Open Scope string_scope.
Local Open Scope list_scope.
Local Open Scope Z_scope.

(** ** Go's [int]

    [int] is 64 bits wide on the platforms the server targets; arithmetic
    wraps around in two's complement. *)

Module int.
Definition MaxInt : Z := 2 ^ 63 - 1.
Definition MinInt : Z := - 2 ^ 63.

Definition wrap (z : Z) : Z := (z + 2 ^ 63) mod 2 ^ 64 - 2 ^ 63.

Definition add (a b : Z) : Z := wrap (a + b).

Definition in_range (z : Z) : bool := (MinInt <=? z) && (z <=? MaxInt).
End int.

(** [len] of a slice, as an [int]. *)
Definition len {A : Type} (l : list A) : Z := Z.of_nat (length l).

(** ** Bytes *)

Module byte.
Definition code (c : ascii) : N := N_of_ascii c.
Definition of_N (n : N) : ascii := ascii_of_N (n mod 256).

Definition between (lo hi : N) (c : ascii) : bool :=
  ((lo <=? code c) && (code c <=? hi))%N.

Definition dquote : ascii := of_N 34.

Definition is_digit : ascii -> bool := between 48 57.
Definition is_upper : ascii -> bool := between 65 90.

Definition to_lower (c : ascii) : ascii :=
  if is_upper c then of_N (code c + 32) else c.

Definition hex_value (c : ascii) : option N :=
  if is_digit c then Some (code c - 48)%N
  else if between 97 102 c then Some (code c - 87)%N
  else if between 65 70 c then Some (code c - 55)%N
  else None.

Definition hex_digit (n : N) : ascii :=
  if (n <? 10)%N then of_N (48 + n) else of_N (87 + n).
End byte.

Module strings.
Fixpoint ToLower (s : string) : string :=
  match s with
  | EmptyString => EmptyString
  | String c r => String (byte.to_lower c) (ToLower r)
  end.

(** ASCII case-insensitive equality, which is what [strings.EqualFold]
    amounts to against a name made of the letters of [id], [name] and
    [price]: no other code point folds to one of them. *)
Definition EqualFold (a b : string) : bool :=
  String.eqb (ToLower a) (ToLower b).

Fixpoint HasPrefix (s p : string) : bool :=
  match p, s with
  | EmptyString, _ => true
  | String a p', String b s' => Ascii.eqb a b && HasPrefix s' p'
  | String _ _, EmptyString => false
  end.

Fixpoint TrimPrefix (s p : string) : string :=
  match p, s with
  | EmptyString, _ => s
  | String a p', String b s' =>
      if Ascii.eqb a b && HasPrefix s' p' then TrimPrefix s' p' else s
  | String _ _, EmptyString => s
  end.

Definition HasSuffix (s p : string) : bool :=
  let n := String.length s in
  let m := String.length p in
  (m <=? n)%nat && String.eqb (String.substring (n - m) m s) p.

Definition TrimSuffix (s p : string) : string :=
  if HasSuffix s p
  then String.substring 0 (String.length s - String.length p) s
  else s.

Definition last (s : string) : option ascii :=
  String.get (String.length s - 1) s.
End strings.

(** ** The data model ([price.go], lines 14-25) *)

Record Item : Type := mkItem
  { ID : Z;
    Name : string;
    Price : Z }.

(** The zero value of [Item], which is what [var newItem Item] holds. *)
Definition Item_zero : Item := {| ID := 0; Name := EmptyString; Price := 0 |}.

(** ** UTF-8, as far as the JSON decoder needs it *)

Module utf8.
Definition cont (c : ascii) : bool := byte.between 128 191 c.

(** The size of the well-formed encoding that starts [s], for a first
    byte of 0x80 and above; [0] when [utf8.DecodeRune] would answer
    [(RuneError, 1)]. *)
Definition valid_size (s : string) : nat :=
  match s with
  | String b0 r =>
      let n := byte.code b0 in
      if ((194 <=? n) && (n <=? 223))%N then
        match r with
        | String b1 _ => if cont b1 then 2%nat else 0%nat
        | _ => 0%nat
        end
      else if ((224 <=? n) && (n <=? 239))%N then
        match r with
        | String b1 (String b2 _) =>
            let lo := if (n =? 224)%N then 160%N else 128%N in
            let hi := if (n =? 237)%N then 159%N else 191%N in
            if byte.between lo hi b1 && cont b2 then 3%nat else 0%nat
        | _ => 0%nat
        end
      else if ((240 <=? n) && (n <=? 244))%N then
        match r with
        | String b1 (String b2 (String b3 _)) =>
            let lo := if (n =? 240)%N then 144%N else 128%N in
            let hi := if (n =? 244)%N then 143%N else 191%N in
            if byte.between lo hi b1 && cont b2 && cont b3 then 4%nat else 0%nat
        | _ => 0%nat
        end
      else 0%nat
  | EmptyString => 0%nat
  end.

Definition RuneError : N := 65533.

(** [utf8.AppendRune]: surrogates and values above U+10FFFF are encoded
    as U+FFFD. *)
Definition EncodeRune (r : N) : string :=
  let r := if ((55296 <=? r) && (r <=? 57343) || (1114111 <? r))%N
           then RuneError else r in
  let b (n : N) := byte.of_N n in
  let tail (n : N) := b (128 + n mod 64)%N in
  if (r <? 128)%N then String (b r) EmptyString
  else if (r <? 2048)%N then
    String (b (192 + r / 64)%N) (String (tail r) EmptyString)
  else if (r <? 65536)%N then
    String (b (224 + r / 4096)%N)
      (String (tail (r / 64)%N) (String (tail r) EmptyString))
  else
    String (b (240 + r / 262144)%N)
      (String (tail (r / 4096)%N)
         (String (tail (r / 64)%N) (String (tail r) EmptyString))).
End utf8.

(** ** [encoding/json]

    The request body is a byte stream from which [Decoder.Decode] reads one
    JSON value and stores it into the [Item] it is given; whatever follows
    that value in the stream is left unread.  The scanner below follows the
    states of Go's scanner; the store follows [decodeState.object] and
    [decodeState.literalStore], specialised to the three fields of [Item]. *)

Module json.

Inductive Value : Type :=
| JNull
| JBool (b : bool)
| JNumber (lit : string)   (* the literal, as the scanner delimits it *)
| JString (s : string)     (* the contents, unquoted *)
| JArray (elems : list Value)
| JObject (members : list (string * Value)).

Inductive DecodeError : Type :=
| EOF
| ErrUnexpectedEOF
| SyntaxError (c : ascii) (context : string)
| UnmarshalTypeError (value : string) (field : string) (type : string).

(** The outcome of scanning a prefix of the input. *)
Inductive scan (A : Type) : Type :=
| Scanned (a : A) (rest : string)
| Failed (e : DecodeError)
| Starved.
Arguments Scanned {A} a rest.
Arguments Failed {A} e.
Arguments Starved {A}.

Definition scan_map {A B : Type} (f : A -> B) (r : scan A) : scan B :=
  match r with
  | Scanned a rest => Scanned (f a) rest
  | Failed e => Failed e
  | Starved => Starved
  end.

Definition isSpace (c : ascii) : bool :=
  let n := byte.code c in
  ((n =? 32) || (n =? 9) || (n =? 13) || (n =? 10))%N.

Fixpoint skip_space (s : string) : string :=
  match s with
  | String c r => if isSpace c then skip_space r else s
  | EmptyString => EmptyString
  end.

(** *** Numbers *)

Fixpoint digits (s : string) : string * string :=
  match s with
  | String c r =>
      if byte.is_digit c
      then let '(d, r') := digits r in (String c d, r')
      else (EmptyString, s)
  | EmptyString => (EmptyString, EmptyString)
  end.

(** [stateE], [stateESign], [stateE0]: after the mantissa [lit]. *)
Definition scan_exp (lit : string) (s : string) : scan string :=
  match s with
  | String e r =>
      if Ascii.eqb e "e" || Ascii.eqb e "E" then
        match r with
        | EmptyString => Failed ErrUnexpectedEOF
        | String c r1 =>
            if Ascii.eqb c "+" || Ascii.eqb c "-" then
              match r1 with
              | EmptyString => Failed ErrUnexpectedEOF
              | String d _ =>
                  if byte.is_digit d
                  then let '(ds, r2) := digits r1 in
                       Scanned (lit +:+ String e (String c ds)) r2
                  else Failed (SyntaxError d "in exponent of numeric literal")
              end
            else if byte.is_digit c
            then let '(ds, r2) := digits r in
                 Scanned (lit +:+ String e ds) r2
            else Failed (SyntaxError c "in exponent of numeric literal")
        end
      else Scanned lit s
  | EmptyString => Scanned lit s
  end.

(** [stateDot], [stateDot0]: after the integer part [lit]. *)
Definition scan_frac (lit : string) (s : string) : scan string :=
  match s with
  | String "." r =>
      match r with
      | EmptyString => Failed ErrUnexpectedEOF
      | String d _ =>
          if byte.is_digit d
          then let '(ds, r1) := digits r in
               scan_exp (lit +:+ String "." ds) r1
          else Failed
                 (SyntaxError d "after decimal point in numeric literal")
      end
  | _ => scan_exp lit s
  end.

(** [state0], [state1], after an optional minus sign. *)
Definition scan_int (s : string) : scan string :=
  match s with
  | EmptyString => Failed ErrUnexpectedEOF
  | String c r =>
      if Ascii.eqb c "0" then scan_frac "0" r
      else if byte.between 49 57 c
      then let '(ds, r1) := digits r in scan_frac (String c ds) r1
      else Failed (SyntaxError c "in numeric literal")
  end.

Definition scan_number (s : string) : scan string :=
  match s with
  | String "-" r => scan_map (String "-") (scan_int r)
  | _ => scan_int s
  end.

(** *** The literals [true], [false] and [null] *)

Fixpoint expect (name : string) (w : string) (s : string) : scan unit :=
  match w with
  | EmptyString => Scanned tt s
  | String x w' =>
      match s with
      | EmptyString => Failed ErrUnexpectedEOF
      | String c r =>
          if Ascii.eqb c x then expect name w' r
          else Failed
                 (SyntaxError c
                    ("in literal " +:+ name +:+ " (expecting '"
                       +:+ String x "')"))
      end
  end.

(** *** Strings *)

Inductive string_state : Type :=
| InString            (* stateInString *)
| InStringEsc         (* stateInStringEsc *)
| InStringEscU (pending : nat).   (* stateInStringEscU, U1, U12, U123 *)

Definition is_escape (c : ascii) : bool :=
  Ascii.eqb c byte.dquote
  || existsb (Ascii.eqb c) (list_ascii_of_string "bfnrt\/").

(** Delimits a string literal whose opening quote was read; answers its
    contents, still quoted. *)
Fixpoint scan_string (st : string_state) (s : string) : scan string :=
  match s with
  | EmptyString => Failed ErrUnexpectedEOF
  | String c r =>
      match st with
      | InString =>
          if Ascii.eqb c byte.dquote then Scanned EmptyString r
          else if Ascii.eqb c "\"
          then scan_map (String c) (scan_string InStringEsc r)
          else if (byte.code c <? 32)%N
          then Failed (SyntaxError c "in string literal")
          else scan_map (String c) (scan_string InString r)
      | InStringEsc =>
          if is_escape c
          then scan_map (String c) (scan_string InString r)
          else if Ascii.eqb c "u"
          then scan_map (String c) (scan_string (InStringEscU 3) r)
          else Failed (SyntaxError c "in string escape code")
      | InStringEscU n =>
          match byte.hex_value c with
          | Some _ =>
              scan_map (String c)
                (scan_string
                   match n with O => InString | S k => InStringEscU k end r)
          | None =>
              Failed (SyntaxError c "in \u hexadecimal character escape")
          end
      end
  end.

(** *** Unquoting ([unquoteBytes])

    Runs over a literal that [scan_string] accepted.  [copy] counts the
    continuation bytes of a well-formed UTF-8 sequence still to be
    copied. *)

Definition unescape (c : ascii) : ascii :=
  if Ascii.eqb c "b" then byte.of_N 8
  else if Ascii.eqb c "f" then byte.of_N 12
  else if Ascii.eqb c "n" then byte.of_N 10
  else if Ascii.eqb c "r" then byte.of_N 13
  else if Ascii.eqb c "t" then byte.of_N 9
  else c.

Definition hex4 (a b c d : ascii) : option N :=
  match byte.hex_value a, byte.hex_value b,
        byte.hex_value c, byte.hex_value d with
  | Some x, Some y, Some z, Some w =>
      Some (((x * 16 + y) * 16 + z) * 16 + w)%N
  | _, _, _, _ => None
  end.

(** [getu4]: the code unit of a leading [\uXXXX], if there is one. *)
Definition getu4 (s : string) : option N :=
  match s with
  | String "\" (String "u" (String a (String b (String c (String d _))))) =>
      hex4 a b c d
  | _ => None
  end.

Definition IsSurrogate (r : N) : bool := ((55296 <=? r) && (r <? 57344))%N.

(** [utf16.DecodeRune], with [None] for the replacement character. *)
Definition utf16_DecodeRune (r1 : N) (r2 : option N) : option N :=
  match r2 with
  | Some r2 =>
      if ((55296 <=? r1) && (r1 <? 56320) && (56320 <=? r2) && (r2 <? 57344))%N
      then Some ((r1 - 55296) * 1024 + (r2 - 56320) + 65536)%N
      else None
  | None => None
  end.

Fixpoint unquote (copy : nat) (s : string) : string :=
  match s with
  | EmptyString => EmptyString
  | String c r =>
      match copy with
      | S k => String c (unquote k r)
      | O =>
          if Ascii.eqb c "\" then
            match r with
            | String "u" (String h1 (String h2 (String h3 (String h4 r1)))) =>
                match hex4 h1 h2 h3 h4 with
                | Some rr =>
                    if IsSurrogate rr then
                      match utf16_DecodeRune rr (getu4 r1), r1 with
                      | Some dec,
                        String _ (String _ (String _ (String _
                          (String _ (String _ r2))))) =>
                          utf8.EncodeRune dec +:+ unquote O r2
                      | _, _ =>
                          utf8.EncodeRune utf8.RuneError +:+ unquote O r1
                      end
                    else utf8.EncodeRune rr +:+ unquote O r1
                | None => EmptyString
                end
            | String e r1 => String (unescape e) (unquote O r1)
            | EmptyString => EmptyString
            end
          else if (byte.code c <? 128)%N then String c (unquote O r)
          else
            match utf8.valid_size s with
            | S n => String c (unquote n r)
            | O => utf8.EncodeRune utf8.RuneError +:+ unquote O r
            end
      end
  end.

(** *** Values

    [fuel] bounds the number of nested calls; [readValue] below supplies
    enough of it for every input.  [depth] is the length of the scanner's
    parse state, which may not exceed [maxNestingDepth]. *)

Definition maxNestingDepth : N := 10000.

Fixpoint scan_value (fuel : nat) (depth : N) (s : string) : scan Value :=
  match fuel with
  | O => Starved
  | S fuel =>
      match skip_space s with
      | EmptyString => Failed ErrUnexpectedEOF
      | String c r =>
          if Ascii.eqb c "{" then
            if (maxNestingDepth <? depth + 1)%N
            then Failed (SyntaxError c "exceeded max depth")
            else
              match skip_space r with
              | String "}" r1 => Scanned (JObject []) r1
              | _ => scan_map JObject (scan_members fuel (depth + 1)%N r)
              end
          else if Ascii.eqb c "[" then
            if (maxNestingDepth <? depth + 1)%N
            then Failed (SyntaxError c "exceeded max depth")
            else
              match skip_space r with
              | String "]" r1 => Scanned (JArray []) r1
              | _ => scan_map JArray (scan_elements fuel (depth + 1)%N r)
              end
          else if Ascii.eqb c byte.dquote
          then scan_map (fun raw => JString (unquote O raw))
                 (scan_string InString r)
          else if Ascii.eqb c "-" || byte.is_digit c
          then scan_map JNumber (scan_number (String c r))
          else if Ascii.eqb c "t"
          then scan_map (fun _ => JBool true) (expect "true" "rue" r)
          else if Ascii.eqb c "f"
          then scan_map (fun _ => JBool false) (expect "false" "alse" r)
          else if Ascii.eqb c "n"
          then scan_map (fun _ => JNull) (expect "null" "ull" r)
          else Failed (SyntaxError c "looking for beginning of value")
      end
  end

with scan_elements (fuel : nat) (depth : N) (s : string)
  : scan (list Value) :=
  match fuel with
  | O => Starved
  | S fuel =>
      match scan_value fuel depth s with
      | Scanned v rest =>
          match skip_space rest with
          | EmptyString => Failed ErrUnexpectedEOF
          | String c r =>
              if Ascii.eqb c "," then scan_map (cons v) (scan_elements fuel depth r)
              else if Ascii.eqb c "]" then Scanned [v] r
              else Failed (SyntaxError c "after array element")
          end
      | Failed e => Failed e
      | Starved => Starved
      end
  end

with scan_members (fuel : nat) (depth : N) (s : string)
  : scan (list (string * Value)) :=
  match fuel with
  | O => Starved
  | S fuel =>
      match skip_space s with
      | EmptyString => Failed ErrUnexpectedEOF
      | String q r =>
          if negb (Ascii.eqb q byte.dquote)
          then Failed
                 (SyntaxError q "looking for beginning of object key string")
          else
            match scan_string InString r with
            | Scanned raw rest =>
                match skip_space rest with
                | EmptyString => Failed ErrUnexpectedEOF
                | String c r1 =>
                    if negb (Ascii.eqb c ":")
                    then Failed (SyntaxError c "after object key")
                    else
                      match scan_value fuel depth r1 with
                      | Scanned v rest1 =>
                          match skip_space rest1 with
                          | EmptyString => Failed ErrUnexpectedEOF
                          | String d r2 =>
                              if Ascii.eqb d ","
                              then scan_map (cons (unquote O raw, v))
                                     (scan_members fuel depth r2)
                              else if Ascii.eqb d "}"
                              then Scanned [(unquote O raw, v)] r2
                              else Failed
                                     (SyntaxError d
                                        "after object key:value pair")
                          end
                      | Failed e => Failed e
                      | Starved => Starved
                      end
                end
            | Failed e => Failed e
            | Starved => Starved
            end
      end
  end.

(** [Decoder.readValue] followed by the scan of the value it delimited:
    the first JSON value of the stream.  A stream of white space only ends
    in [io.EOF], a value cut short in [io.ErrUnexpectedEOF]. *)
Definition readValue (body : string) : DecodeError + Value :=
  match skip_space body with
  | EmptyString => inl EOF
  | s =>
      match scan_value (2 * String.length s + 1) 0 s with
      | Scanned v _ => inr v
      | Failed e => inl e
      | Starved => inl ErrUnexpectedEOF
      end
  end.

(** *** Storing a value into an [Item] *)

(** [strconv.ParseInt(s, 10, 64)]: an optional sign and decimal digits,
    within the range of [int64]. *)
Definition ParseInt (s : string) : option Z :=
  let '(neg, u) :=
    match s with
    | String "-" r => (true, r)
    | String "+" r => (false, r)
    | _ => (false, s)
    end in
  match NilZero.uint_of_string u with
  | Some d =>
      let n := Z.of_N (N.of_uint d) in
      let z := if neg then - n else n in
      if int.in_range z then Some z else None
  | None => None
  end.

(** [strconv.Itoa]. *)
Definition Itoa (z : Z) : string := NilZero.string_of_int (Z.to_int z).

(** The word an [UnmarshalTypeError] uses for the JSON value it met. *)
Definition kind (v : Value) : string :=
  match v with
  | JNull => "null"
  | JBool _ => "bool"
  | JNumber _ => "number"
  | JString _ => "string"
  | JArray _ => "array"
  | JObject _ => "object"
  end.

(** [decodeState.saveError]: the first error is the one reported. *)
Definition saveError (saved : option DecodeError) (e : DecodeError)
  : option DecodeError :=
  match saved with
  | Some _ => saved
  | None => Some e
  end.

(** A JSON value met where an [int] field is expected. [null] leaves the
    field as it is. *)
Definition store_int (field : string) (v : Value) (cur : Z)
  : Z * option DecodeError :=
  match v with
  | JNull => (cur, None)
  | JNumber lit =>
      match ParseInt lit with
      | Some n => (n, None)
      | None =>
          (cur, Some (UnmarshalTypeError ("number " +:+ lit) field "int"))
      end
  | _ => (cur, Some (UnmarshalTypeError (kind v) field "int"))
  end.

(** A JSON value met where a [string] field is expected. *)
Definition store_string (field : string) (v : Value) (cur : string)
  : string * option DecodeError :=
  match v with
  | JNull => (cur, None)
  | JString s => (s, None)
  | _ => (cur, Some (UnmarshalTypeError (kind v) field "string"))
  end.

(** The JSON names of the fields of [Item], from its struct tags. *)
Definition fields : list string := ["id"; "name"; "price"].

(** The field a key selects: the one of that exact name, or else one
    whose name matches when case is ignored. *)
Definition field_of_key (key : string) : option string :=
  match List.find (String.eqb key) fields with
  | Some f => Some f
  | None => List.find (strings.EqualFold key) fields
  end.

(** One [key: value] member of an object read into [it]. A key that
    selects no field is skipped. *)
Definition store_member (st : Item * option DecodeError)
    (m : string * Value) : Item * option DecodeError :=
  let '(it, saved) := st in
  let '(key, v) := m in
  match field_of_key key with
  | Some f =>
      if String.eqb f "id" then
        let '(n, e) := store_int f v (ID it) in
        ({| ID := n; Name := Name it; Price := Price it |},
         from_option (saveError saved) saved e)
      else if String.eqb f "name" then
        let '(s, e) := store_string f v (Name it) in
        ({| ID := ID it; Name := s; Price := Price it |},
         from_option (saveError saved) saved e)
      else
        let '(n, e) := store_int f v (Price it) in
        ({| ID := ID it; Name := Name it; Price := n |},
         from_option (saveError saved) saved e)
  | None => (it, saved)
  end.

(** [decodeState.unmarshal] of a scanned value into [it]: the members
    of an object are stored in the order they are written, [null] changes
    nothing and any other value is a type error. *)
Definition Unmarshal (v : Value) (it : Item) : Item * option DecodeError :=
  match v with
  | JObject members => fold_left store_member members (it, None)
  | JNull => (it, None)
  | _ => (it, Some (UnmarshalTypeError (kind v) EmptyString "main.Item"))
  end.

(** [json.NewDecoder(r.Body).Decode(&it)]: the [Item] as the call leaves
    it, and the error it returns. *)
Definition Decode (body : string) (it : Item) : Item * option DecodeError :=
  match readValue body with
  | inl e => (it, Some e)
  | inr v => Unmarshal v it
  end.

(** *** The text of an error ([err.Error()]) *)

Definition hex2 (n : N) : string :=
  String (byte.hex_digit (n / 16)) (String (byte.hex_digit (n mod 16))
    EmptyString).

(** [quoteChar]: the offending byte, as a quoted Go character. *)
Definition quoteChar (c : ascii) : string :=
  let n := byte.code c in
  let body :=
    if Ascii.eqb c "'" then "\'"
    else if Ascii.eqb c byte.dquote then String c EmptyString
    else if Ascii.eqb c "\" then "\\"
    else if ((32 <=? n) && (n <=? 126))%N then String c EmptyString
    else if ((161 <=? n) && negb (n =? 173))%N then utf8.EncodeRune n
    else if (n =? 7)%N then "\a"
    else if (n =? 8)%N then "\b"
    else if (n =? 12)%N then "\f"
    else if (n =? 10)%N then "\n"
    else if (n =? 13)%N then "\r"
    else if (n =? 9)%N then "\t"
    else if (n =? 11)%N then "\v"
    else if (n <? 128)%N then "\x" +:+ hex2 n
    else "\u00" +:+ hex2 n in
  "'" +:+ body +:+ "'".

Definition Error (e : DecodeError) : string :=
  match e with
  | EOF => "EOF"
  | ErrUnexpectedEOF => "unexpected EOF"
  | SyntaxError c context =>
      "invalid character " +:+ quoteChar c +:+ " " +:+ context
  | UnmarshalTypeError value field type =>
      match field with
      | EmptyString =>
          "json: cannot unmarshal " +:+ value
            +:+ " into Go value of type " +:+ type
      | _ =>
          "json: cannot unmarshal " +:+ value
            +:+ " into Go struct field Item." +:+ field
            +:+ " of type " +:+ type
      end
  end.

(** *** Encoding *)

(** The bytes below 0x80 that [Encoder.Encode] writes as they are: all
    but the control characters, the quote, the backslash and, HTML escaping
    being on, the ampersand and the angle brackets. *)
Definition htmlSafe (c : ascii) : bool :=
  let n := byte.code c in
  ((32 <=? n) && negb (n =? 34) && negb (n =? 92)
   && negb (n =? 38) && negb (n =? 60) && negb (n =? 62))%N.

Definition escape_byte (c : ascii) : string :=
  let n := byte.code c in
  if ((n =? 34) || (n =? 92))%N then String "\" (String c EmptyString)
  else if (n =? 8)%N then "\b"
  else if (n =? 12)%N then "\f"
  else if (n =? 10)%N then "\n"
  else if (n =? 13)%N then "\r"
  else if (n =? 9)%N then "\t"
  else "\u00" +:+ hex2 n.

(** U+2028 and U+2029, which are written as escapes. *)
Definition line_separator (s : string) : option ascii :=
  match s with
  | String b0 (String b1 (String b2 _)) =>
      if ((byte.code b0 =? 226) && (byte.code b1 =? 128))%N then
        if (byte.code b2 =? 168)%N then Some "8"%char
        else if (byte.code b2 =? 169)%N then Some "9"%char
        else None
      else None
  | _ => None
  end.

(** The contents of a string literal; [copy] as in [unquote]. *)
Fixpoint escape (copy : nat) (s : string) : string :=
  match s with
  | EmptyString => EmptyString
  | String c r =>
      match copy with
      | S k => String c (escape k r)
      | O =>
          if (byte.code c <? 128)%N then
            if htmlSafe c then String c (escape O r)
            else escape_byte c +:+ escape O r
          else
            match utf8.valid_size s with
            | O => "\ufffd" +:+ escape O r
            | S n =>
                match line_separator s, r with
                | Some d, String _ (String _ r1) =>
                    "\u202" +:+ String d (escape O r1)
                | _, _ => String c (escape n r)
                end
            end
      end
  end.

Definition quote (s : string) : string :=
  String byte.dquote (escape O s) +:+ String byte.dquote EmptyString.

Fixpoint Marshal (v : Value) : string :=
  match v with
  | JNull => "null"
  | JBool true => "true"
  | JBool false => "false"
  | JNumber lit => lit
  | JString s => quote s
  | JArray elems => "[" +:+ String.concat "," (map Marshal elems) +:+ "]"
  | JObject members =>
      "{" +:+
      String.concat ","
        (map (fun m => quote (fst m) +:+ ":" +:+ Marshal (snd m)) members)
      +:+ "}"
  end.

(** An [Item] as the JSON value its struct tags describe. *)
Definition of_Item (it : Item) : Value :=
  JObject [("id", JNumber (Itoa (ID it)));
           ("name", JString (Name it));
           ("price", JNumber (Itoa (Price it)))].

Definition of_Items (l : list Item) : Value := JArray (map of_Item l).

(** What [Encoder.Encode] writes: the encoding and a newline. *)
Definition Encode (v : Value) : string :=
  Marshal v +:+ String (byte.of_N 10) EmptyString.

End json.

(** ** [path] and [path/filepath] (with [/] as the separator) *)

Module path.

(** The elements between the slashes of [s], empty ones included. *)
Fixpoint elements (cur : string) (s : string) : list string :=
  match s with
  | EmptyString => [cur]
  | String c r =>
      if Ascii.eqb c "/" then cur :: elements EmptyString r
      else elements (cur +:+ String c EmptyString) r
  end.

Fixpoint join (l : list string) : string :=
  match l with
  | [] => EmptyString
  | [e] => e
  | e :: l' => e +:+ "/" +:+ join l'
  end.

(** One element met by [Clean]; [stack] holds the elements kept so far,
    the last one first. *)
Definition clean_step (rooted : bool) (stack : list string) (e : string)
  : list string :=
  if String.eqb e EmptyString || String.eqb e "." then stack
  else if String.eqb e ".." then
    match stack with
    | top :: rest => if String.eqb top ".." then e :: stack else rest
    | [] => if rooted then [] else [e]
    end
  else e :: stack.

Definition Clean (p : string) : string :=
  let rooted := strings.HasPrefix p "/" in
  let kept := rev (fold_left (clean_step rooted) (elements EmptyString p) []) in
  if rooted then "/" +:+ join kept
  else match kept with [] => "." | _ => join kept end.

Definition Base (p : string) : string :=
  match p with
  | EmptyString => "."
  | _ =>
      match filter (fun e => negb (String.eqb e EmptyString))
                   (elements EmptyString p) with
      | [] => "/"
      | e :: l => List.last l e
      end
  end.

(** [filepath.Ext]: the suffix of the last element that starts at its
    last dot. *)
Definition Ext (p : string) : string :=
  let name := List.last (elements EmptyString p) EmptyString in
  (fix ext (s : string) : string :=
     match s with
     | EmptyString => EmptyString
     | String c r =>
         match ext r with
         | EmptyString => if Ascii.eqb c "." then s else EmptyString
         | found => found
         end
     end) name.

(** [filepath.Join] of a directory and one more name. *)
Definition Join (dir name : string) : string :=
  match dir, name with
  | EmptyString, EmptyString => EmptyString
  | EmptyString, _ => Clean name
  | _, EmptyString => Clean dir
  | _, _ => Clean (dir +:+ "/" +:+ name)
  end.

(** [filepath.Split]: the directory, up to and including the last slash,
    and the file name after it. *)
Fixpoint Split (p : string) : string * string :=
  match p with
  | EmptyString => (EmptyString, EmptyString)
  | String c r =>
      let '(dir, file) := Split r in
      match dir with
      | EmptyString =>
          if Ascii.eqb c "/" then (String c EmptyString, file)
          else (EmptyString, String c file)
      | _ => (String c dir, file)
      end
  end.

End path.

(** ** Time, and the runtime's [select] *)

Module time.
Definition Duration : Type := Z.
Definition Nanosecond : Duration := 1.
Definition Second : Duration := 1000000000.

(** A [Time], as the nanoseconds from the start of the Unix epoch to it.
    The zero [Time] is the first instant of the year 1. *)
Definition Time : Type := Z.
Definition unixEpochTime : Time := 0.
Definition zeroTime : Time := - 62135596800 * Second.

Definition IsZero (t : Time) : bool := t =? zeroTime.

(** [t.Truncate(time.Second)] and [t.Unix()]. *)
Definition Truncate_Second (t : Time) : Time := t - t mod Second.
Definition Unix (t : Time) : Z := t / Second.
End time.

(** The two cases of the [select] statement of [GetItemsHandler]. *)
Inductive select_case : Type :=
| case_After   (* <-time.After(d) *)
| case_Done.   (* <-ctx.Done() *)

(** A goroutine parked in a [select] is woken by the first channel that
    becomes ready.  [after] is the delay of the timer, [done] the time,
    counted from the same instant, at which the context is cancelled, if
    it ever is; [tie] is the case the runtime picks when both channels are
    ready at once. *)
Definition select (after : time.Duration) (done : option time.Duration)
    (tie : select_case) : select_case :=
  match done with
  | None => case_After
  | Some d =>
      if after <? d then case_After
      else if d <? after then case_Done
      else tie
  end.

(** ** [net/http] *)

Module http.

Definition StatusOK : Z := 200.
Definition StatusCreated : Z := 201.
Definition StatusPartialContent : Z := 206.
Definition StatusMovedPermanently : Z := 301.
Definition StatusNotModified : Z := 304.
Definition StatusBadRequest : Z := 400.
Definition StatusForbidden : Z := 403.
Definition StatusNotFound : Z := 404.
Definition StatusMethodNotAllowed : Z := 405.
Definition StatusRequestTimeout : Z := 408.
Definition StatusPreconditionFailed : Z := 412.
Definition StatusRequestedRangeNotSatisfiable : Z := 416.
Definition StatusInternalServerError : Z := 500.

(** A request, as far as the handlers and the libraries they call look at
    it: the method; of the URL, the path, the encoded path (set, as
    [URL.RawPath] is, only where it differs from the default encoding of
    the path) and the query; the header fields, each under its canonical
    name with its first value; the bytes of the body; and the fate of the
    context.  The request target is in origin form: the URL has no scheme
    and no host. *)
Record Request : Type :=
  { Method : string;
    Path : string;
    RawPath : string;
    RawQuery : string;
    Fields : gmap string string;
    Body : string;
    Done : option time.Duration;
    tie : select_case }.

(** [r.Header.Get(key)]. *)
Definition Get (r : Request) (key : string) : string :=
  default EmptyString (Fields r !! key).

(** [?] and the query, as [URL.String] and [localRedirect] add them. *)
Definition query (r : Request) : string :=
  match RawQuery r with
  | EmptyString => EmptyString
  | q => "?" +:+ q
  end.

(** The state of a [ResponseWriter].  [Header] is the map the handler
    edits; its value at the time the status line is written is what the
    client receives, as [sent]. *)
Record ResponseWriter : Type :=
  { Header : gmap string string;
    status : option Z;
    sent : gmap string string;
    body : string }.

Definition NewRecorder : ResponseWriter :=
  {| Header := ∅; status := None; sent := ∅; body := EmptyString |}.

Definition Header_Set (k v : string) (w : ResponseWriter) : ResponseWriter :=
  {| Header := <[k := v]> (Header w); status := status w;
     sent := sent w; body := body w |}.

Definition Header_Del (k : string) (w : ResponseWriter) : ResponseWriter :=
  {| Header := delete k (Header w); status := status w;
     sent := sent w; body := body w |}.

(** [w.Header().Get(key)]. *)
Definition Header_Get (k : string) (w : ResponseWriter) : string :=
  default EmptyString (Header w !! k).

(** A second call of [WriteHeader] is ignored. *)
Definition WriteHeader (code : Z) (w : ResponseWriter) : ResponseWriter :=
  match status w with
  | Some _ => w
  | None =>
      {| Header := Header w; status := Some code;
         sent := Header w; body := body w |}
  end.

(** [Write] sends the status line first, with [StatusOK], when
    [WriteHeader] was not called. *)
Definition Write (data : string) (w : ResponseWriter) : ResponseWriter :=
  let w := WriteHeader StatusOK w in
  {| Header := Header w; status := status w;
     sent := sent w; body := body w +:+ data |}.

(** The status the client receives: a handler that returns without
    writing anything answers [StatusOK]. *)
Definition Code (w : ResponseWriter) : Z :=
  from_option id StatusOK (status w).

Definition newline : string := String (byte.of_N 10) EmptyString.

(** [http.Error]: a plain text reply, the message on a line of its own. *)
Definition Error (error : string) (code : Z) (w : ResponseWriter)
  : ResponseWriter :=
  let w := Header_Del "Content-Length" w in
  let w := Header_Set "Content-Type" "text/plain; charset=utf-8" w in
  let w := Header_Set "X-Content-Type-Options" "nosniff" w in
  let w := WriteHeader code w in
  Write (error +:+ newline) w.

Definition NotFound (w : ResponseWriter) : ResponseWriter :=
  Error "404 page not found" StatusNotFound w.

(** *** Serving files

    What the operating system answers when a path, relative to the working
    directory of the process, is opened and examined.  A file carries the
    time it was last modified; a directory also the page [FileServer]
    renders to list it. *)
Inductive OpenResult : Type :=
| ErrNotExist
| ErrPermission
| ErrOther
| IsDir (ModTime : time.Time) (listing : string)
| IsFile (ModTime : time.Time) (data : string).

(** The surroundings of the process: the file system; the table of
    [mime.TypeByExtension]; and what is taken from the libraries as it
    is: the sniffing of [http.DetectContentType], the reading and writing
    of dates ([http.ParseTime], and [Time.Format] with [http.TimeFormat]
    in UTC), the boundary [multipart.NewWriter] draws from the random
    source, and whether the headers of a reply that turns into an error
    are kept (Go before 1.23, or [GODEBUG=httpservecontentkeepheaders=1])
    or removed. *)
Record OS : Type :=
  { Open : string -> OpenResult;
    TypeByExtension : string -> string;
    DetectContentType : string -> string;
    ParseTime : string -> option time.Time;
    FormatTime : time.Time -> string;
    Boundary : string;
    keepheaders : bool }.

Definition Handler : Type := Request -> ResponseWriter -> ResponseWriter.

Definition with_Path (r : Request) (p : string) : Request :=
  {| Method := Method r; Path := p; RawPath := RawPath r;
     RawQuery := RawQuery r; Fields := Fields r; Body := Body r;
     Done := Done r; tie := tie r |}.

Definition with_RawPath (r : Request) (rp : string) : Request :=
  {| Method := Method r; Path := Path r; RawPath := rp;
     RawQuery := RawQuery r; Fields := Fields r; Body := Body r;
     Done := Done r; tie := tie r |}.

(** [http.StripPrefix]: a request whose path, or whose encoded path when
    there is one, does not start with [prefix] is not found.  An empty
    prefix leaves the handler as it is. *)
Definition StripPrefix (prefix : string) (h : Handler) : Handler :=
  match prefix with
  | EmptyString => h
  | _ =>
      fun r w =>
        let p := strings.TrimPrefix (Path r) prefix in
        let rp := strings.TrimPrefix (RawPath r) prefix in
        if (String.length p <? String.length (Path r))%nat
           && (String.eqb (RawPath r) EmptyString
               || (String.length rp <? String.length (RawPath r))%nat)
        then h (with_RawPath (with_Path r p) rp) w
        else NotFound w
  end.

(** [http.Dir(dir).Open(name)]: the path that is opened. *)
Definition Dir_path (dir name : string) : string :=
  let p := match path.Clean ("/" +:+ name) with
           | String _ EmptyString | EmptyString => "."
           | String _ rest => rest
           end in
  path.Join (match dir with EmptyString => "." | _ => dir end) p.

Definition toHTTPError (e : OpenResult) : string * Z :=
  match e with
  | ErrNotExist => ("404 page not found", StatusNotFound)
  | ErrPermission => ("403 Forbidden", StatusForbidden)
  | _ => ("500 Internal Server Error", StatusInternalServerError)
  end.

(** [serveError]: an error reply, without the headers that described the
    content that is not sent after all. *)
Definition serveError (os : OS) (text : string) (code : Z)
    (w : ResponseWriter) : ResponseWriter :=
  let w :=
    if keepheaders os then w
    else fold_left (fun w k => Header_Del k w)
           ["Cache-Control"; "Content-Encoding"; "Etag"; "Last-Modified"] w in
  Error text code w.

Definition localRedirect (r : Request) (newPath : string)
    (w : ResponseWriter) : ResponseWriter :=
  WriteHeader StatusMovedPermanently
    (Header_Set "Location" (newPath +:+ query r) w).

(** [isZeroTime]: the zero [Time], or the start of the Unix epoch. *)
Definition isZeroTime (t : time.Time) : bool :=
  time.IsZero t || (t =? time.unixEpochTime).

Definition setLastModified (os : OS) (modtime : time.Time)
    (w : ResponseWriter) : ResponseWriter :=
  if isZeroTime modtime then w
  else Header_Set "Last-Modified" (FormatTime os modtime) w.

(** **** Conditional requests ([checkPreconditions]) *)

Inductive condResult : Type := condNone | condTrue | condFalse.

(** [textproto.TrimString]. *)
Definition isASCIISpace (c : ascii) : bool :=
  let n := byte.code c in
  ((n =? 32) || (n =? 9) || (n =? 10) || (n =? 13))%N.

Fixpoint TrimLeft (s : string) : string :=
  match s with
  | String c r => if isASCIISpace c then TrimLeft r else s
  | EmptyString => EmptyString
  end.

Fixpoint TrimRight (s : string) : string :=
  match s with
  | EmptyString => EmptyString
  | String c r =>
      match TrimRight r with
      | EmptyString =>
          if isASCIISpace c then EmptyString else String c EmptyString
      | r' => String c r'
      end
  end.

Definition TrimString (s : string) : string := TrimRight (TrimLeft s).

(** The bytes an entity tag may hold between its quotes. *)
Definition etagc (c : ascii) : bool :=
  let n := byte.code c in
  ((n =? 33) || (35 <=? n) && (n <=? 126) || (128 <=? n))%N.

(** An entity tag from behind its opening quote: the text up to its
    closing quote, that quote included, and what follows it. *)
Fixpoint scan_tag (s : string) : option (string * string) :=
  match s with
  | EmptyString => None
  | String c r =>
      if etagc c then
        match scan_tag r with
        | Some (tag, remain) => Some (String c tag, remain)
        | None => None
        end
      else if Ascii.eqb c byte.dquote then Some (String c EmptyString, r)
      else None
  end.

(** [scanETag]: the entity tag [s] starts with, and what follows it; two
    empty strings where there is none. *)
Definition scanETag (s : string) : string * string :=
  let s := TrimString s in
  let weak := strings.HasPrefix s "W/" in
  match (if weak then strings.TrimPrefix s "W/" else s) with
  | String q r =>
      if Ascii.eqb q byte.dquote then
        match scan_tag r with
        | Some (tag, remain) =>
            ((if weak then "W/" else EmptyString) +:+ String q tag, remain)
        | None => (EmptyString, EmptyString)
        end
      else (EmptyString, EmptyString)
  | EmptyString => (EmptyString, EmptyString)
  end.

Definition etagStrongMatch (a b : string) : bool :=
  String.eqb a b
  && match a with String q _ => Ascii.eqb q byte.dquote | _ => false end.

Definition etagWeakMatch (a b : string) : bool :=
  String.eqb (strings.TrimPrefix a "W/") (strings.TrimPrefix b "W/").

(** The loop of [checkIfMatch] and of [checkIfNoneMatch] over the list of
    entity tags [buf]: whether a [*] or a tag that [matches] is met before
    the list ends or stops being one.  Every round takes a byte or more
    off [buf], so the bytes of the header and one are fuel enough. *)
Fixpoint some_tag (fuel : nat) (matches : string -> bool) (buf : string)
  : bool :=
  match fuel with
  | O => false
  | S fuel =>
      match TrimString buf with
      | EmptyString => false
      | String c r as buf =>
          if Ascii.eqb c "," then some_tag fuel matches r
          else if Ascii.eqb c "*" then true
          else
            let '(etag, remain) := scanETag buf in
            if String.eqb etag EmptyString then false
            else if matches etag then true
            else some_tag fuel matches remain
      end
  end.

Definition checkIfMatch (w : ResponseWriter) (r : Request) : condResult :=
  match Get r "If-Match" with
  | EmptyString => condNone
  | im =>
      if some_tag (S (String.length im))
           (fun etag => etagStrongMatch etag (Header_Get "Etag" w)) im
      then condTrue else condFalse
  end.

Definition checkIfUnmodifiedSince (os : OS) (r : Request)
    (modtime : time.Time) : condResult :=
  match Get r "If-Unmodified-Since" with
  | EmptyString => condNone
  | ius =>
      if isZeroTime modtime then condNone
      else
        match ParseTime os ius with
        | None => condNone
        | Some t =>
            if time.Truncate_Second modtime <=? t then condTrue
            else condFalse
        end
  end.

Definition checkIfNoneMatch (w : ResponseWriter) (r : Request) : condResult :=
  match Get r "If-None-Match" with
  | EmptyString => condNone
  | inm =>
      if some_tag (S (String.length inm))
           (fun etag => etagWeakMatch etag (Header_Get "Etag" w)) inm
      then condFalse else condTrue
  end.

Definition GET_or_HEAD (r : Request) : bool :=
  String.eqb (Method r) "GET" || String.eqb (Method r) "HEAD".

Definition checkIfModifiedSince (os : OS) (r : Request)
    (modtime : time.Time) : condResult :=
  if negb (GET_or_HEAD r) then condNone
  else
    match Get r "If-Modified-Since" with
    | EmptyString => condNone
    | ims =>
        if isZeroTime modtime then condNone
        else
          match ParseTime os ims with
          | None => condNone
          | Some t =>
              if time.Truncate_Second modtime <=? t then condFalse
              else condTrue
          end
    end.

Definition checkIfRange (os : OS) (w : ResponseWriter) (r : Request)
    (modtime : time.Time) : condResult :=
  if negb (GET_or_HEAD r) then condNone
  else
    match Get r "If-Range" with
    | EmptyString => condNone
    | ir =>
        match fst (scanETag ir) with
        | EmptyString =>
            if time.IsZero modtime then condFalse
            else
              match ParseTime os ir with
              | None => condFalse
              | Some t =>
                  if time.Unix t =? time.Unix modtime then condTrue
                  else condFalse
              end
        | etag =>
            if etagStrongMatch etag (Header_Get "Etag" w) then condTrue
            else condFalse
        end
    end.

Definition writeNotModified (w : ResponseWriter) : ResponseWriter :=
  let w := Header_Del "Content-Type" w in
  let w := Header_Del "Content-Length" w in
  let w := Header_Del "Content-Encoding" w in
  let w := if String.eqb (Header_Get "Etag" w) EmptyString then w
           else Header_Del "Last-Modified" w in
  WriteHeader StatusNotModified w.

(** [checkPreconditions]: the reply, when the preconditions settle the
    request; or else the [Range] header that is to be honoured, empty when
    there is none or [If-Range] rules it out. *)
Definition checkPreconditions (os : OS) (w : ResponseWriter) (r : Request)
    (modtime : time.Time) : ResponseWriter + string :=
  let ch := match checkIfMatch w r with
            | condNone => checkIfUnmodifiedSince os r modtime
            | ch => ch
            end in
  let ranged :=
    let rangeHeader := Get r "Range" in
    match rangeHeader, checkIfRange os w r modtime with
    | String _ _, condFalse => inr EmptyString
    | _, _ => inr rangeHeader
    end in
  match ch with
  | condFalse => inl (WriteHeader StatusPreconditionFailed w)
  | _ =>
      match checkIfNoneMatch w r with
      | condFalse =>
          if GET_or_HEAD r then inl (writeNotModified w)
          else inl (WriteHeader StatusPreconditionFailed w)
      | condNone =>
          match checkIfModifiedSince os r modtime with
          | condFalse => inl (writeNotModified w)
          | _ => ranged
          end
      | condTrue => ranged
      end
  end.

(** **** Ranges ([parseRange]) *)

Record httpRange : Type := { ra_start : Z; ra_length : Z }.

Inductive Ranges : Type :=
| ranges (l : list httpRange)
| invalid_range      (* "invalid range" *)
| errNoOverlap.      (* "invalid range: failed to overlap" *)

(** [strings.Split(s, ",")]. *)
Fixpoint Split_commas (cur : string) (s : string) : list string :=
  match s with
  | EmptyString => [cur]
  | String c r =>
      if Ascii.eqb c "," then cur :: Split_commas EmptyString r
      else Split_commas (cur +:+ String c EmptyString) r
  end.

(** [strings.Cut(s, "-")]. *)
Fixpoint Cut_dash (s : string) : option (string * string) :=
  match s with
  | EmptyString => None
  | String c r =>
      if Ascii.eqb c "-" then Some (EmptyString, r)
      else match Cut_dash r with
           | Some (before, after) => Some (String c before, after)
           | None => None
           end
  end.

(** One range of the header, [ra], against content of [size] bytes:
    [None] when it is malformed, [Some None] when it starts behind the
    end of the content. *)
Definition parse_one (ra : string) (size : Z)
  : option (option httpRange) :=
  match Cut_dash ra with
  | None => None
  | Some (first, last) =>
      let first := TrimString first in
      let last := TrimString last in
      match first with
      | EmptyString =>
          (* a suffix length *)
          match last with
          | EmptyString => None
          | String "-" _ => None
          | _ =>
              match json.ParseInt last with
              | Some i =>
                  if i <? 0 then None
                  else
                    let i := if size <? i then size else i in
                    Some (Some {| ra_start := size - i;
                                  ra_length := size - (size - i) |})
              | None => None
              end
          end
      | _ =>
          match json.ParseInt first with
          | Some i =>
              if i <? 0 then None
              else if size <=? i then Some None
              else
                match last with
                | EmptyString =>
                    Some (Some {| ra_start := i; ra_length := size - i |})
                | _ =>
                    match json.ParseInt last with
                    | Some j =>
                        if j <? i then None
                        else
                          let j := if size <=? j then size - 1 else j in
                          Some (Some {| ra_start := i;
                                        ra_length := j - i + 1 |})
                    | None => None
                    end
                end
          | None => None
          end
      end
  end.

Fixpoint parse_all (pieces : list string) (size : Z)
    (found : list httpRange) (noOverlap : bool) : Ranges :=
  match pieces with
  | [] =>
      match found with
      | [] => if noOverlap then errNoOverlap else ranges []
      | _ => ranges found
      end
  | ra :: rest =>
      match TrimString ra with
      | EmptyString => parse_all rest size found noOverlap
      | ra =>
          match parse_one ra size with
          | None => invalid_range
          | Some None => parse_all rest size found true
          | Some (Some one) => parse_all rest size (found ++ [one]) noOverlap
          end
      end
  end.

Definition parseRange (s : string) (size : Z) : Ranges :=
  match s with
  | EmptyString => ranges []
  | _ =>
      if strings.HasPrefix s "bytes="
      then parse_all (Split_commas EmptyString (strings.TrimPrefix s "bytes="))
             size [] false
      else invalid_range
  end.

Definition sumRangesSize (l : list httpRange) : Z :=
  fold_left (fun sum ra => sum + ra_length ra) l 0.

(** [httpRange.contentRange]. *)
Definition contentRange (ra : httpRange) (size : Z) : string :=
  "bytes " +:+ json.Itoa (ra_start ra) +:+ "-"
    +:+ json.Itoa (ra_start ra + ra_length ra - 1)
    +:+ "/" +:+ json.Itoa size.

Definition slice (ra : httpRange) (data : string) : string :=
  String.substring (Z.to_nat (ra_start ra)) (Z.to_nat (ra_length ra)) data.

Definition crlf : string :=
  String (byte.of_N 13) (String (byte.of_N 10) EmptyString).

(** The parts [multipart.Writer] writes for the ranges [l], the first of
    them when [first] holds. *)
Fixpoint byterange_parts (boundary ctype : string) (size : Z)
    (data : string) (first : bool) (l : list httpRange) : string :=
  match l with
  | [] => EmptyString
  | ra :: l' =>
      (if first then EmptyString else crlf)
      +:+ "--" +:+ boundary +:+ crlf
      +:+ "Content-Range: " +:+ contentRange ra size +:+ crlf
      +:+ "Content-Type: " +:+ ctype +:+ crlf
      +:+ crlf
      +:+ slice ra data
      +:+ byterange_parts boundary ctype size data false l'
  end.

Definition byteranges (boundary ctype : string) (size : Z) (data : string)
    (l : list httpRange) : string :=
  byterange_parts boundary ctype size data true l
  +:+ crlf +:+ "--" +:+ boundary +:+ "--" +:+ crlf.

(** The end of [serveContent]: the headers about the content, the status
    line and, unless the method is [HEAD], the content. *)
Definition sendContent (r : Request) (code : Z) (content : string)
    (w : ResponseWriter) : ResponseWriter :=
  let w := Header_Set "Accept-Ranges" "bytes" w in
  let w :=
    if String.eqb (Header_Get "Content-Encoding" w) EmptyString
    then Header_Set "Content-Length"
           (json.Itoa (Z.of_nat (String.length content))) w
    else w in
  let w := WriteHeader code w in
  if String.eqb (Method r) "HEAD" then w else Write content w.

(** [serveContent]. *)
Definition serveContent (os : OS) (r : Request) (name : string)
    (modtime : time.Time) (data : string) (w : ResponseWriter)
  : ResponseWriter :=
  let w := setLastModified os modtime w in
  match checkPreconditions os w r modtime with
  | inl done => done
  | inr rangeReq =>
      let ctype :=
        match Header w !! "Content-Type" with
        | Some t => t
        | None =>
            match TypeByExtension os (path.Ext name) with
            | EmptyString =>
                DetectContentType os (String.substring 0 512 data)
            | t => t
            end
        end in
      let w :=
        match Header w !! "Content-Type" with
        | Some _ => w
        | None => Header_Set "Content-Type" ctype w
        end in
      let size := Z.of_nat (String.length data) in
      let whole := sendContent r StatusOK data w in
      match parseRange rangeReq size with
      | invalid_range =>
          serveError os "invalid range" StatusRequestedRangeNotSatisfiable w
      | errNoOverlap =>
          if size =? 0 then whole
          else
            serveError os "invalid range: failed to overlap"
              StatusRequestedRangeNotSatisfiable
              (Header_Set "Content-Range"
                 ("bytes */" +:+ json.Itoa size) w)
      | ranges l =>
          match (if size <? sumRangesSize l then [] else l) with
          | [] => whole
          | [ra] =>
              sendContent r StatusPartialContent (slice ra data)
                (Header_Set "Content-Range" (contentRange ra size) w)
          | l =>
              sendContent r StatusPartialContent
                (byteranges (Boundary os) ctype size data l)
                (Header_Set "Content-Type"
                   ("multipart/byteranges; boundary=" +:+ Boundary os) w)
          end
      end
  end.

Definition dirList (listing : string) (w : ResponseWriter) : ResponseWriter :=
  Write listing (Header_Set "Content-Type" "text/html; charset=utf-8" w).

Definition ends_in_slash (url : string) : bool :=
  match strings.last url with
  | Some c => Ascii.eqb c "/"
  | None => false
  end.

(** [serveFile]: [name] is opened beneath [dir]; [r] is the request as the
    file server received it. *)
Definition serveFile (os : OS) (r : Request) (dir name : string)
    (redirect : bool) (w : ResponseWriter) : ResponseWriter :=
  if strings.HasSuffix (Path r) "/index.html" then localRedirect r "./" w
  else
    let url := Path r in
    match Open os (Dir_path dir name) with
    | IsDir ModTime listing =>
        if negb (ends_in_slash url)
        then localRedirect r (path.Base url +:+ "/") w
        else
          let list (t : time.Time) (l : string) :=
            match checkIfModifiedSince os r t with
            | condFalse => writeNotModified w
            | _ => dirList l (setLastModified os t w)
            end in
          match Open os (Dir_path dir
                           (strings.TrimSuffix name "/" +:+ "/index.html")) with
          | IsFile t data => serveContent os r "index.html" t data w
          | IsDir t l => list t l
          | _ => list ModTime listing
          end
    | IsFile ModTime data =>
        if redirect && ends_in_slash url then
          let base := path.Base url in
          if String.eqb base "/" || String.eqb base "."
          then serveError os "http: attempting to traverse a non-directory"
                 StatusInternalServerError w
          else localRedirect r ("../" +:+ base) w
        else serveContent os r (path.Base (Dir_path dir name)) ModTime data w
    | e => let '(msg, code) := toHTTPError e in serveError os msg code w
    end.

(** [http.FileServer(http.Dir(dir))]. *)
Definition FileServer (os : OS) (dir : string) : Handler :=
  fun r w =>
    let upath :=
      if strings.HasPrefix (Path r) "/" then Path r else "/" +:+ Path r in
    serveFile os (with_Path r upath) dir (path.Clean upath) true w.

(** [containsDotDot]: whether [..] stands between two separators of [v],
    a slash or a backslash. *)
Fixpoint fields_slash (cur : string) (v : string) : list string :=
  match v with
  | EmptyString => [cur]
  | String c r =>
      if Ascii.eqb c "/" || Ascii.eqb c "\"
      then cur :: fields_slash EmptyString r
      else fields_slash (cur +:+ String c EmptyString) r
  end.

Definition containsDotDot (v : string) : bool :=
  existsb (String.eqb "..") (fields_slash EmptyString v).

(** [http.ServeFile]. *)
Definition ServeFile (os : OS) (name : string) : Handler :=
  fun r w =>
    if containsDotDot (Path r)
    then serveError os "invalid URL path" StatusBadRequest w
    else let '(dir, file) := path.Split name in
         serveFile os r dir file false w.

End http.

(** ** The state of the process

    The package level variable [items] and the lines written through the
    [log] package, oldest first. *)

Inductive LogEntry : Type :=
| Println (line : string)
| Printf_Request (method path : string)
    (* "Request %s %s - Duration: %v"; the duration that was measured is
       not kept *)
| Fatal (line : string).

Record World : Type :=
  { items : list Item;
    log : list LogEntry }.

(** The process as it starts: [items] holds the two records of its
    initialiser. *)
Definition boot : World :=
  {| items := [ {| ID := 1; Name := "Item One"; Price := 100 |};
                {| ID := 2; Name := "Item Two"; Price := 200 |} ];
     log := [] |}.

(** A handler runs against the process and the [ResponseWriter] it was
    handed. *)
Definition M (A : Type) : Type :=
  World * http.ResponseWriter -> A * (World * http.ResponseWriter).

Definition ret {A : Type} (a : A) : M A := fun s => (a, s).

Definition bind {A B : Type} (m : M A) (k : A -> M B) : M B :=
  fun s => let '(a, s') := m s in k a s'.

#[global] Instance M_ret : MRet M := @ret.
#[global] Instance M_bind : MBind M := fun A B k m => bind m k.

Definition load_items : M (list Item) := fun s => (items (fst s), s).

Definition store_items (l : list Item) : M unit :=
  fun s => (tt, ({| items := l; log := log (fst s) |}, snd s)).

Definition log_ (e : LogEntry) : M unit :=
  fun s => (tt, ({| items := items (fst s); log := log (fst s) ++ [e] |},
                 snd s)).

(** A call that only touches the [ResponseWriter]. *)
Definition on_w (f : http.ResponseWriter -> http.ResponseWriter) : M unit :=
  fun s => (tt, (fst s, f (snd s))).

Definition HandlerFunc : Type := http.Request -> M unit.

(** The process and the response once [h] has served [r] with a fresh
    [ResponseWriter]. *)
Definition serve (h : HandlerFunc) (r : http.Request) (wd : World)
  : World * http.ResponseWriter :=
  snd (h r (wd, http.NewRecorder)).

(** ** The handlers ([price.go], lines 27-81) *)

Definition loggingMiddleware (next : HandlerFunc) : HandlerFunc :=
  fun r =>
    next r;;
    log_ (Printf_Request (http.Method r) (http.Path r)).

Definition GetItemsHandler : HandlerFunc :=
  fun r =>
    match select (2 * time.Second) (http.Done r) (http.tie r) with
    | case_After =>
        on_w (http.Header_Set "Content-Type" "application/json");;
        l ← load_items;
        on_w (http.Write (json.Encode (json.of_Items l)))
    | case_Done =>
        log_ (Println "Request was cancelled by the client");;
        on_w (http.Error "Request cancelled" http.StatusRequestTimeout)
    end.

Definition with_ID (it : Item) (id : Z) : Item :=
  {| ID := id; Name := Name it; Price := Price it |}.

Definition AddItemHandler : HandlerFunc :=
  fun r =>
    let '(newItem, err) := json.Decode (http.Body r) Item_zero in
    match err with
    | Some e => on_w (http.Error (json.Error e) http.StatusBadRequest)
    | None =>
        l ← load_items;
        let newItem := with_ID newItem (int.add (len l) 1) in
        store_items (l ++ [newItem]);;
        on_w (http.Header_Set "Content-Type" "application/json");;
        on_w (http.WriteHeader http.StatusCreated);;
        on_w (http.Write (json.Encode (json.of_Item newItem)))
    end.

Definition ServeStaticFiles (os : http.OS) : HandlerFunc :=
  fun r => on_w (http.ServeFile os ("./static" +:+ http.Path r) r).

Definition NotFoundHandler : HandlerFunc :=
  fun r => on_w http.NotFound.

(** ** [gorilla/mux], for routes without variables *)

Module mux.

(** [URL.EscapedPath], for the path of a redirect: all bytes are
    percent-encoded but the unreserved ones and those that may stand in a
    path as they are. *)
Definition shouldEscape (c : ascii) : bool :=
  negb (byte.between 97 122 c || byte.between 65 90 c || byte.is_digit c
        || existsb (Ascii.eqb c) (list_ascii_of_string "-_.~$&+,/:;=@")).

Definition upper_hex (n : N) : ascii :=
  if (n <? 10)%N then byte.of_N (48 + n) else byte.of_N (55 + n).

Fixpoint EscapedPath (p : string) : string :=
  match p with
  | EmptyString => EmptyString
  | String c r =>
      if shouldEscape c
      then String "%" (String (upper_hex (byte.code c / 16))
                         (String (upper_hex (byte.code c mod 16))
                            (EscapedPath r)))
      else String c (EscapedPath r)
  end.

(** [cleanPath]: [path.Clean] of the rooted path, keeping a final slash. *)
Definition cleanPath (p : string) : string :=
  match p with
  | EmptyString => "/"
  | _ =>
      let p := if strings.HasPrefix p "/" then p else "/" +:+ p in
      let np := path.Clean p in
      if http.ends_in_slash p && negb (String.eqb np "/")
      then np +:+ "/" else np
  end.

Inductive matcher : Type :=
| Path (tpl : string)          (* the whole path is [tpl] *)
| PathPrefix (tpl : string).   (* the path starts with [tpl] *)

(** A route: its path matcher, the methods of its method matcher (none
    when [Methods] was not called) and its handler. *)
Record Route : Type :=
  { route_path : matcher;
    route_methods : option (list string);
    route_handler : HandlerFunc }.

Record Router : Type :=
  { routes : list Route;
    middlewares : list (HandlerFunc -> HandlerFunc);
    NotFoundHandler : option HandlerFunc }.

Definition match_path (m : matcher) (p : string) : bool :=
  match m with
  | Path tpl => String.eqb p tpl
  | PathPrefix tpl => strings.HasPrefix p tpl
  end.

Definition match_method (ms : option (list string)) (method : string) : bool :=
  match ms with
  | None => true
  | Some l => existsb (String.eqb method) l
  end.

Inductive RouteMatch : Type :=
| Matched (h : HandlerFunc)
| ErrMethodMismatch
| ErrNotFound.

(** [Router.Match]: the first route all of whose matchers accept the
    request; [mismatch] records that an earlier route accepted the path but
    not the method. *)
Fixpoint Match (rs : list Route) (mismatch : bool) (r : http.Request)
  : RouteMatch :=
  match rs with
  | [] => if mismatch then ErrMethodMismatch else ErrNotFound
  | rt :: rs' =>
      if match_path (route_path rt) (http.Path r) then
        if match_method (route_methods rt) (http.Method r)
        then Matched (route_handler rt)
        else Match rs' true r
      else Match rs' mismatch r
  end.

(** The middlewares wrap a matched handler, the first one outermost. *)
Definition chain (mws : list (HandlerFunc -> HandlerFunc)) (h : HandlerFunc)
  : HandlerFunc :=
  fold_right (fun mw h => mw h) h mws.

(** [Router.ServeHTTP]. *)
Definition ServeHTTP (rt : Router) : HandlerFunc :=
  fun r =>
    let p := cleanPath (http.Path r) in
    if negb (String.eqb p (http.Path r)) then
      on_w (http.Header_Set "Location" (EscapedPath p +:+ http.query r));;
      on_w (http.WriteHeader http.StatusMovedPermanently)
    else
      match Match (routes rt) false r with
      | Matched h => chain (middlewares rt) h r
      | ErrMethodMismatch =>
          on_w (http.WriteHeader http.StatusMethodNotAllowed)
      | ErrNotFound =>
          match NotFoundHandler rt with
          | Some h => h r
          | None => on_w http.NotFound
          end
      end.

End mux.

(** ** The routes and the server built in [main] ([price.go], lines 84-106) *)

Definition static_handler (os : http.OS) : HandlerFunc :=
  fun r =>
    on_w (http.StripPrefix "/static/" (http.FileServer os "./static") r).

(** The router [r] of [main]. *)
Definition main_r (os : http.OS) : mux.Router :=
  {| mux.routes :=
       [ {| mux.route_path := mux.PathPrefix "/static/";
            mux.route_methods := None;
            mux.route_handler := static_handler os |};
         {| mux.route_path := mux.Path "/api/items";
            mux.route_methods := Some ["GET"];
            mux.route_handler := GetItemsHandler |};
         {| mux.route_path := mux.Path "/api/items";
            mux.route_methods := Some ["POST"];
            mux.route_handler := AddItemHandler |} ];
     mux.middlewares := [loggingMiddleware];
     mux.NotFoundHandler := Some NotFoundHandler |}.

Record Server : Type :=
  { Addr : string;
    Handler : HandlerFunc;
    ReadTimeout : time.Duration;
    WriteTimeout : time.Duration }.

(** The server [srv] of [main]. *)
Definition main_srv (os : http.OS) : Server :=
  {| Addr := ":8080";
     Handler := mux.ServeHTTP (main_r os);
     ReadTimeout := 10 * time.Second;
     WriteTimeout := 10 * time.Second |}.

(** One request served by [srv]: the process afterwards, and the
    response. *)
Definition handle (os : http.OS) (r : http.Request) (wd : World)
  : World * http.ResponseWriter :=
  serve (Handler (main_srv os)) r wd.

(** Requests served one after the other. *)
Definition handle_all (os : http.OS) (rs : list http.Request) (wd : World)
  : World :=
  fold_left (fun wd r => fst (handle os r wd)) rs wd.

(** ** The life cycle of [main] ([price.go], lines 108-127)

    Two goroutines: the one [main] starts to run [srv.ListenAndServe], and
    [main] itself, which makes the channel [quit] and receives from it. *)

Inductive Signal : Type := SIGHUP | SIGINT | SIGQUIT | SIGTERM.

(** Where the goroutine of [main] stands. *)
Inductive MainPC : Type :=
| main_entry      (* nothing has run yet *)
| main_recv       (* blocked in [<-quit] *)
| main_Shutdown   (* past the receive, inside [srv.Shutdown(ctx)] *)
| main_return.    (* [srv.Shutdown] returned [nil] *)

(** Where the goroutine started at line 109 stands. *)
Inductive ServerPC : Type :=
| srv_none        (* not started *)
| srv_entry       (* started, nothing has run yet *)
| srv_Listen.     (* inside [srv.ListenAndServe()] *)

(** How the process ended. *)
Inductive Exit : Type :=
| exit_status (code : Z)
| killed (sig : Signal).

(** What the Go runtime does with a signal no channel asked for, in a
    process that was started with the default dispositions.  [SIGHUP],
    [SIGINT] and [SIGTERM] end the process the way the signal does by
    default; on [SIGQUIT] the runtime prints the stacks of the goroutines
    to the standard error and exits with status 2. *)
Definition unhandled (sig : Signal) : Exit :=
  match sig with
  | SIGQUIT => exit_status 2
  | _ => killed sig
  end.

(** A channel of signals: its buffer, and the signals that
    [signal.Notify] has asked the runtime to relay to it. *)
Record Chan : Type :=
  { buffer : list Signal;
    capacity : nat;
    relayed : list Signal }.

Record Process : Type :=
  { pc_main : MainPC;
    pc_srv : ServerPC;
    quit : option Chan;          (* [None] until [make] has run *)
    world : World;
    exited : option Exit }.      (* set once the process is gone *)

(** What may happen next. *)
Inductive Event : Type :=
| run_main                       (* [main] runs up to its next blocking point *)
| run_srv                        (* so does the other goroutine *)
| Listen_error (err : string)    (* [ListenAndServe] returns an error *)
| arrives (sig : Signal)         (* the operating system sends a signal *)
| request (r : http.Request)     (* a request is served *)
| Shutdown_returns (err : option string).
                                 (* [srv.Shutdown] returns, [None] for [nil] *)

Definition Signal_eqb (a b : Signal) : bool :=
  match a, b with
  | SIGHUP, SIGHUP | SIGINT, SIGINT | SIGQUIT, SIGQUIT | SIGTERM, SIGTERM =>
      true
  | _, _ => false
  end.

(** The runtime relays a signal to a channel that asked for it, unless
    its buffer is full. *)
Definition relay (sig : Signal) (c : Chan) : Chan :=
  if existsb (Signal_eqb sig) (relayed c)
     && (length (buffer c) <? capacity c)%nat
  then {| buffer := buffer c ++ [sig]; capacity := capacity c;
          relayed := relayed c |}
  else c.

Definition wants (sig : Signal) (q : option Chan) : bool :=
  match q with
  | Some c => existsb (Signal_eqb sig) (relayed c)
  | None => false
  end.

Definition logged (e : LogEntry) (wd : World) : World :=
  {| items := items wd; log := log wd ++ [e] |}.

Definition start : Process :=
  {| pc_main := main_entry; pc_srv := srv_none; quit := None;
     world := boot; exited := None |}.

(** One step of the process.  An event that cannot happen in the state
    it meets changes nothing. *)
Definition step (os : http.OS) (p : Process) (e : Event) : Process :=
  match exited p with
  | Some _ => p
  | None =>
      match e, pc_main p, pc_srv p with
      | run_main, main_entry, _ =>
          (* lines 84-117: the router, [srv], [go func()], [make] *)
          {| pc_main := main_recv; pc_srv := srv_entry;
             quit := Some {| buffer := []; capacity := 1; relayed := [] |};
             world := world p; exited := None |}
      | run_main, main_recv, _ =>
          (* line 118: the receive completes when the buffer holds a value *)
          match quit p with
          | Some {| buffer := _ :: rest; capacity := n; relayed := l |} =>
              {| pc_main := main_Shutdown; pc_srv := pc_srv p;
                 quit := Some {| buffer := rest; capacity := n; relayed := l |};
                 world := logged (Println "Shutting down the server...")
                            (world p);
                 exited := None |}
          | _ => p
          end
      | run_srv, _, srv_entry =>
          {| pc_main := pc_main p; pc_srv := srv_Listen; quit := quit p;
             world := logged
                        (Println "Server started on http://localhost:8080")
                        (world p);
             exited := None |}
      | Listen_error err, _, srv_Listen =>
          (* line 112: [log.Fatal(err)] *)
          {| pc_main := pc_main p; pc_srv := pc_srv p; quit := quit p;
             world := logged (Fatal err) (world p);
             exited := Some (exit_status 1) |}
      | request r, main_recv, srv_Listen =>
          {| pc_main := pc_main p; pc_srv := pc_srv p; quit := quit p;
             world := fst (handle os r (world p)); exited := None |}
      | Shutdown_returns None, main_Shutdown, _ =>
          {| pc_main := main_return; pc_srv := pc_srv p; quit := quit p;
             world := logged (Println "Server exited gracefully") (world p);
             exited := Some (exit_status 0) |}
      | Shutdown_returns (Some err), main_Shutdown, _ =>
          (* line 125: [log.Fatal] *)
          {| pc_main := pc_main p; pc_srv := pc_srv p; quit := quit p;
             world := logged (Fatal ("Server Shutdown Failed:" +:+ err))
                        (world p);
             exited := Some (exit_status 1) |}
      | arrives sig, _, _ =>
          if wants sig (quit p)
          then {| pc_main := pc_main p; pc_srv := pc_srv p;
                  quit := relay sig <$> quit p;
                  world := world p; exited := None |}
          else
            (* nothing asked for the signal: the runtime ends the process *)
            {| pc_main := pc_main p; pc_srv := pc_srv p; quit := quit p;
               world := world p; exited := Some (unhandled sig) |}
      | _, _, _ => p
      end
  end.

Definition run (os : http.OS) (p : Process) (es : list Event) : Process :=
  fold_left (step os) es p.

(** The states of the life cycle. *)
Inductive Phase : Type := Starting | Serving | ShuttingDown | Stopped.

Definition phase (p : Process) : Phase :=
  match exited p, pc_main p, pc_srv p with
  | Some _, _, _ => Stopped
  | None, (main_Shutdown | main_return), _ => ShuttingDown
  | None, main_recv, srv_Listen => Serving
  | None, _, _ => Starting
  end.

(** ** Replies and sample surroundings *)

(** The process after [srv] has served [r], and the reply to [r]. *)
Definition after (os : http.OS) (r : http.Request) (wd : World) : World :=
  fst (handle os r wd).

Definition reply (os : http.OS) (r : http.Request) (wd : World)
  : http.ResponseWriter :=
  snd (handle os r wd).

Definition json_headers : gmap string string :=
  {[ "Content-Type" := "application/json" ]}.

Definition json_reply (code : Z) (data : string) : http.ResponseWriter :=
  {| http.Header := json_headers; http.status := Some code;
     http.sent := json_headers; http.body := data |}.

Definition text_headers : gmap string string :=
  <["X-Content-Type-Options" := "nosniff"]>
    {[ "Content-Type" := "text/plain; charset=utf-8" ]}.

(** The reply [http.Error] makes of a fresh [ResponseWriter]. *)
Definition error_reply (code : Z) (msg : string) : http.ResponseWriter :=
  {| http.Header := text_headers; http.status := Some code;
     http.sent := text_headers; http.body := msg +:+ http.newline |}.

(** The item [AddItemHandler] stores when the body decodes as [it]. *)
Definition stored (wd : World) (it : Item) : Item :=
  with_ID it (len (items wd) + 1).

(** The timer of [GetItemsHandler] fires before the context of [r] is
    cancelled, or the other way round. *)
Definition timer_first (r : http.Request) : Prop :=
  match http.Done r with
  | None => True
  | Some d => 2 * time.Second < d
  end.

Definition cancelled_first (r : http.Request) : Prop :=
  match http.Done r with
  | None => False
  | Some d => d < 2 * time.Second
  end.

(** A key of an object that selects the field [f]. *)
Definition mentions (f : string) (members : list (string * json.Value))
  : bool :=
  existsb (fun m => bool_decide (json.field_of_key (fst m) = Some f)) members.

(** Dates the way [http.TimeFormat] writes them in UTC, and read back
    from that form, the first of the three [http.ParseTime] reads; for the
    years 1 to 9999. *)
Definition digits2 (n : Z) : string :=
  (if n <? 10 then "0" else EmptyString) +:+ json.Itoa n.

Definition digits4 (n : Z) : string :=
  (if n <? 10 then "000" else if n <? 100 then "00"
   else if n <? 1000 then "0" else EmptyString) +:+ json.Itoa n.

Definition weekdays : list string :=
  ["Sun"; "Mon"; "Tue"; "Wed"; "Thu"; "Fri"; "Sat"].

Definition months : list string :=
  ["Jan"; "Feb"; "Mar"; "Apr"; "May"; "Jun";
   "Jul"; "Aug"; "Sep"; "Oct"; "Nov"; "Dec"].

Definition RFC1123 (t : time.Time) : string :=
  let sec := time.Unix t in
  let days := sec / 86400 in
  let rem := sec mod 86400 in
  let z := days + 719468 in
  let era := z / 146097 in
  let doe := z mod 146097 in
  let yoe := (doe - doe / 1460 + doe / 36524 - doe / 146096) / 365 in
  let doy := doe - (365 * yoe + yoe / 4 - yoe / 100) in
  let mp := (5 * doy + 2) / 153 in
  let d := doy - (153 * mp + 2) / 5 + 1 in
  let m := if mp <? 10 then mp + 3 else mp - 9 in
  let y := yoe + era * 400 + (if m <=? 2 then 1 else 0) in
  nth (Z.to_nat ((days + 4) mod 7)) weekdays EmptyString +:+ ", "
    +:+ digits2 d +:+ " " +:+ nth (Z.to_nat (m - 1)) months EmptyString
    +:+ " " +:+ digits4 y +:+ " "
    +:+ digits2 (rem / 3600) +:+ ":" +:+ digits2 (rem / 60 mod 60) +:+ ":"
    +:+ digits2 (rem mod 60) +:+ " GMT".

Fixpoint index_of (x : string) (l : list string) : option Z :=
  match l with
  | [] => None
  | y :: l' => if String.eqb x y then Some 0
               else option_map Z.succ (index_of x l')
  end.

Definition read_RFC1123 (s : string) : option time.Time :=
  let field (from len : Z) :=
    String.substring (Z.to_nat from) (Z.to_nat len) s in
  let number (from len : Z) :=
    if forallb byte.is_digit (list_ascii_of_string (field from len))
    then json.ParseInt (field from len) else None in
  if negb ((String.length s =? 29)%nat
           && String.eqb (field 3 2) ", " && String.eqb (field 7 1) " "
           && String.eqb (field 11 1) " " && String.eqb (field 16 1) " "
           && String.eqb (field 19 1) ":" && String.eqb (field 22 1) ":"
           && String.eqb (field 25 4) " GMT")
  then None
  else
    match index_of (field 0 3) weekdays, number 5 2,
          index_of (field 8 3) months, number 12 4,
          number 17 2, number 20 2, number 23 2 with
    | Some _, Some d, Some mon, Some year, Some hh, Some mm, Some ss =>
        let m := mon + 1 in
        let y := if m <=? 2 then year - 1 else year in
        let era := y / 400 in
        let yoe := y mod 400 in
        let doy := (153 * (if 2 <? m then m - 3 else m + 9) + 2) / 5 + d - 1 in
        let doe := yoe * 365 + yoe / 4 - yoe / 100 + doy in
        let days := era * 146097 + doe - 719468 in
        if (1 <=? d) && (d <=? 31) && (hh <? 24) && (mm <? 60) && (ss <? 60)
        then Some ((days * 86400 + hh * 3600 + mm * 60 + ss) * time.Second)
        else None
    | _, _, _, _, _, _, _ => None
    end.

(** Surroundings without any file. *)
Definition no_files : http.OS :=
  {| http.Open := fun _ => http.ErrNotExist;
     http.TypeByExtension := fun _ => EmptyString;
     http.DetectContentType := fun _ => "application/octet-stream";
     http.ParseTime := read_RFC1123;
     http.FormatTime := RFC1123;
     http.Boundary :=
       "0f5a1c3e7b9d2f4a6c8e0b1d3f5a7c9e1b3d5f7a9c0e2b4d6f8a1c3e5b7d";
     http.keepheaders := false |}.

Definition quoted (s : string) : string :=
  String byte.dquote s +:+ String byte.dquote EmptyString.

(** Requests without a query and without header fields, their path in
    its default encoding. *)
Definition POST (body : string) : http.Request :=
  {| http.Method := "POST"; http.Path := "/api/items";
     http.RawPath := EmptyString; http.RawQuery := EmptyString;
     http.Fields := ∅; http.Body := body;
     http.Done := None; http.tie := case_After |}.

Definition GET (p : string) (done : option time.Duration) : http.Request :=
  {| http.Method := "GET"; http.Path := p;
     http.RawPath := EmptyString; http.RawQuery := EmptyString;
     http.Fields := ∅; http.Body := EmptyString;
     http.Done := done; http.tie := case_After |}.

(** [{"name":"Item Three","price":300}] *)
Definition item_three : string :=
  "{" +:+ quoted "name" +:+ ":" +:+ quoted "Item Three" +:+ ","
      +:+ quoted "price" +:+ ":300}".

(** [{"id":99,"name":"Item Three","price":300}] *)
Definition item_three_id : string :=
  "{" +:+ quoted "id" +:+ ":99," +:+ quoted "name" +:+ ":"
      +:+ quoted "Item Three" +:+ "," +:+ quoted "price" +:+ ":300}".

(** [{"name":"Item Three"}] *)
Definition name_only : string :=
  "{" +:+ quoted "name" +:+ ":" +:+ quoted "Item Three" +:+ "}".

(** *** Static files

    For a request whose path is [/static/] followed by [rest]: the path
    the file server sees once the prefix is stripped, and the file beneath
    [./static] it opens for it. *)
(** [r] carries none of the header fields [serveContent] looks at: no
    precondition and no range. *)
Definition unconditional (r : http.Request) : bool :=
  forallb (fun k => String.eqb (http.Get r k) EmptyString)
    ["If-Match"; "If-Unmodified-Since"; "If-None-Match";
     "If-Modified-Since"; "If-Range"; "Range"].

(** The encoded path of [r], where [r] has one, starts with [/static/]
    as its path does. *)
Definition encoded_alike (r : http.Request) : bool :=
  String.eqb (http.RawPath r) EmptyString
  || strings.HasPrefix (http.RawPath r) "/static/".

(** [r] as [http.StripPrefix] hands it to the file server, [rest] being
    its path behind [/static/]. *)
Definition stripped (r : http.Request) (rest : string) : http.Request :=
  http.with_RawPath (http.with_Path r rest)
    (strings.TrimPrefix (http.RawPath r) "/static/").

Definition with_Field (r : http.Request) (k v : string) : http.Request :=
  {| http.Method := http.Method r; http.Path := http.Path r;
     http.RawPath := http.RawPath r; http.RawQuery := http.RawQuery r;
     http.Fields := <[k := v]> (http.Fields r); http.Body := http.Body r;
     http.Done := http.Done r; http.tie := http.tie r |}.

Definition static_url (rest : string) : string :=
  if strings.HasPrefix rest "/" then rest else "/" +:+ rest.

Definition static_file (rest : string) : string :=
  http.Dir_path "./static" (path.Clean (static_url rest)).

(** The content type [serveContent] gives a file: the one the table has
    for the extension of its name, or else the one sniffed from its first
    bytes. *)
Definition content_type (os : http.OS) (name data : string) : string :=
  match http.TypeByExtension os (path.Ext name) with
  | EmptyString => http.DetectContentType os (String.substring 0 512 data)
  | t => t
  end.

(** *** Bodies that are well formed and do not fit

    The values [Unmarshal] stores into an [int] field without an error:
    [null], and a number whose literal is a decimal integer within the
    range of [int]. *)
Definition fits_int (v : json.Value) : bool :=
  match v with
  | json.JNull => true
  | json.JNumber lit =>
      match json.ParseInt lit with Some _ => true | None => false end
  | _ => false
  end.

(** The values it stores into a [string] field: [null] and a string. *)
Definition fits_string (v : json.Value) : bool :=
  match v with
  | json.JNull | json.JString _ => true
  | _ => false
  end.

(** A member whose key selects no field fits whatever its value. *)
Definition fits_member (m : string * json.Value) : bool :=
  match json.field_of_key (fst m) with
  | Some f =>
      if String.eqb f "name" then fits_string (snd m) else fits_int (snd m)
  | None => true
  end.

(** The values that fit [Item]: [null], and an object all of whose
    members fit. *)
Definition fits (v : json.Value) : bool :=
  match v with
  | json.JNull => true
  | json.JObject members => forallb fits_member members
  | _ => false
  end.

(** The tenth claim of the specification, read literally, for one request:
    status 400 answers a body that is not well-formed JSON, and no
    other. *)
Definition rejects_bad_syntax_only (os : http.OS) (r : http.Request)
    (wd : World) : Prop :=
  http.Code (reply os r wd) = http.StatusBadRequest ->
  exists e, json.readValue (http.Body r) = inl e.

(** [{"price":"cheap"}], [{"price":1.5}], [{"price":9223372036854775808}]
    and [{"price":9223372036854775807}] *)
Definition price_cheap : string :=
  "{" +:+ quoted "price" +:+ ":" +:+ quoted "cheap" +:+ "}".

Definition price_fraction : string := "{" +:+ quoted "price" +:+ ":1.5}".

Definition price_beyond_int : string :=
  "{" +:+ quoted "price" +:+ ":9223372036854775808}".

Definition price_MaxInt : string :=
  "{" +:+ quoted "price" +:+ ":9223372036854775807}".

(** The ninth claim of the specification, read literally, for one request:
    when the file exists the reply is its bytes with the content type of
    its extension, and when nothing exists under that name the reply is
    404. *)
Definition serves_file_or_404 (os : http.OS) (r : http.Request) (wd : World)
    (rest : string) : Prop :=
  match http.Open os (static_file rest) with
  | http.IsFile _ data =>
      http.Code (reply os r wd) = http.StatusOK
      /\ http.body (reply os r wd) = data
      /\ http.sent (reply os r wd) !! "Content-Type"
         = Some (http.TypeByExtension os (path.Ext (static_file rest)))
  | http.ErrNotExist => http.Code (reply os r wd) = http.StatusNotFound
  | _ => True
  end.

(** Surroundings whose [static] directory holds [index.html], [app.js] and
    [LICENSE]. *)
Definition site : http.OS :=
  {| http.Open := fun p =>
       if String.eqb p "static"
       then http.IsDir time.zeroTime "<pre>listing</pre>"
       else if String.eqb p "static/index.html"
       then http.IsFile time.zeroTime "<h1>price</h1>"
       else if String.eqb p "static/app.js"
       then http.IsFile (1136214245 * time.Second) "let x = 1;"
       else if String.eqb p "static/LICENSE"
       then http.IsFile time.zeroTime "MIT"
       else http.ErrNotExist;
     http.TypeByExtension := fun ext =>
       if String.eqb ext ".html" then "text/html; charset=utf-8"
       else if String.eqb ext ".js" then "text/javascript; charset=utf-8"
       else EmptyString;
     http.DetectContentType := fun _ => "text/plain; charset=utf-8";
     http.ParseTime := read_RFC1123;
     http.FormatTime := RFC1123;
     http.Boundary := http.Boundary no_files;
     http.keepheaders := false |}.

(** What one request may do to the process: [items] stays as it is or
    gains one item at its end, and the log gains lines about requests. *)
Definition grows (wd wd' : World) : Prop :=
  items wd' = items wd \/ exists it, items wd' = items wd ++ [it].

Definition request_line (e : LogEntry) : Prop :=
  e = Println "Request was cancelled by the client"
  \/ exists method path, e = Printf_Request method path.

Definition logs_requests (wd wd' : World) : Prop :=
  exists lines, log wd' = log wd ++ lines /\ Forall request_line lines.

(** A handler that treats the process that way, whatever the request;
    and one that does not touch [items] at all. *)
Definition tame (h : HandlerFunc) : Prop :=
  forall r wd,
    grows wd (fst (serve h r wd)) /\ logs_requests wd (fst (serve h r wd)).

Definition reads (h : HandlerFunc) : Prop :=
  forall r wd, items (fst (serve h r wd)) = items wd.

(** What holds of the process for as long as it runs: [main] is at its
    entry or blocked in the receive, no value sits in [quit] and no signal
    is relayed to it, and the log holds the line of the server goroutine,
    the line of a failed [ListenAndServe] and lines about requests. *)
Definition idle (q : option Chan) : Prop :=
  match q with
  | Some c => buffer c = [] /\ relayed c = []
  | None => True
  end.

Definition start_line (e : LogEntry) : Prop :=
  e = Println "Server started on http://localhost:8080"
  \/ (exists err, e = Fatal err)
  \/ request_line e.

Definition never_shut (p : Process) : Prop :=
  (pc_main p = main_entry \/ pc_main p = main_recv)
  /\ idle (quit p)
  /\ Forall start_line (log (world p)).

(** [fed k r]: the scan [r] did not run out of fuel, and left at most [k]
    bytes unread. *)
Definition fed {A : Type} (k : nat) (r : json.scan A) : Prop :=
  match r with
  | json.Scanned _ rest => (String.length rest <= k)%nat
  | json.Failed _ => True
  | json.Starved => False
  end.

(** *** Reading back what the encoder wrote *)

(** A byte that ends a number: not a digit, a dot or an exponent mark. *)
Definition ends_number (c : ascii) : bool :=
  negb (byte.is_digit c || Ascii.eqb c "." || Ascii.eqb c "e"
        || Ascii.eqb c "E").

(** The first [k] bytes of [s] are continuation bytes of UTF-8. *)
Fixpoint conts (k : nat) (s : string) : bool :=
  match k with
  | O => true
  | S k' =>
      match s with
      | String c r => utf8.cont c && conts k' r
      | EmptyString => false
      end
  end.

(** What the encoding of [it] is read back as. *)
Definition reread (it : Item) : json.Value :=
  json.JObject
    [("id", json.JNumber (json.Itoa (ID it)));
     ("name", json.JString (json.unquote O (json.escape O (Name it))));
     ("price", json.JNumber (json.Itoa (Price it)))].

(** Strings of ASCII that the encoder writes as they are. *)
Fixpoint plain (s : string) : bool :=
  match s with
  | EmptyString => true
  | String c r => (byte.code c <? 128)%N && json.htmlSafe c && plain r
  end.

(** ** Further definitions *)

(** The request reaches one of the three routes of [main]: its path is
    clean, and it is a path beneath [/static/] or [/api/items] asked for
    with [GET] or [POST]. *)
Definition routed (r : http.Request) : bool :=
  String.eqb (mux.cleanPath (http.Path r)) (http.Path r)
  && (strings.HasPrefix (http.Path r) "/static/"
      || String.eqb (http.Path r) "/api/items"
         && (String.eqb (http.Method r) "GET"
             || String.eqb (http.Method r) "POST")).

(** The reply of the router to a path that is not clean. *)
Definition redirect_reply (location : string) : http.ResponseWriter :=
  {| http.Header := {[ "Location" := location ]};
     http.status := Some http.StatusMovedPermanently;
     http.sent := {[ "Location" := location ]};
     http.body := EmptyString |}.

(** The reply of the router when the path has routes but none for the
    method. *)
Definition not_allowed_reply : http.ResponseWriter :=
  {| http.Header := ∅; http.status := Some http.StatusMethodNotAllowed;
     http.sent := ∅; http.body := EmptyString |}.

(** The identifiers of [l] count up from [from]. *)
Fixpoint numbered (from : Z) (l : list Item) : bool :=
  match l with
  | [] => true
  | it :: l' => (ID it =? from) && numbered (from + 1) l'
  end.

(** [utf8.ValidString], with [copy] as in [json.unquote]: [s] is
    well-formed UTF-8 once [copy] more bytes have been passed over. *)
Fixpoint valid_utf8 (copy : nat) (s : string) : bool :=
  match s with
  | EmptyString => match copy with O => true | S _ => false end
  | String c r =>
      match copy with
      | S k => valid_utf8 k r
      | O =>
          if (byte.code c <? 128)%N then valid_utf8 O r
          else match utf8.valid_size s with
               | O => false
               | S n => valid_utf8 n r
               end
      end
  end.

(** An item as Go can hold it and JSON can carry it: its numbers are
    [int]s and its name is well-formed UTF-8. *)
Definition portable (it : Item) : bool :=
  int.in_range (ID it) && int.in_range (Price it) && valid_utf8 O (Name it).

(** *** Paths beneath a directory *)

Fixpoint no_slash (s : string) : bool :=
  match s with
  | EmptyString => true
  | String c r => negb (Ascii.eqb c "/") && no_slash r
  end.

(** An element of a path that names something below where it stands:
    not empty, not [.], not [..], and free of slashes. *)
Definition proper (e : string) : bool :=
  negb (String.eqb e EmptyString) && negb (String.eqb e ".")
  && negb (String.eqb e "..") && no_slash e.

(** [p] is [static] or leads from [static] down, through proper elements
    only. *)
Definition beneath_static (p : string) : bool :=
  match path.elements EmptyString p with
  | e :: l => String.eqb e "static" && forallb proper l
  | [] => false
  end.

(** Two surroundings that differ at most in what lies outside [static]. *)
Definition same_static (os1 os2 : http.OS) : Prop :=
  (forall p, beneath_static p = true -> http.Open os1 p = http.Open os2 p)
  /\ (forall ext, http.TypeByExtension os1 ext = http.TypeByExtension os2 ext)
  /\ (forall data,
        http.DetectContentType os1 data = http.DetectContentType os2 data)
  /\ (forall s, http.ParseTime os1 s = http.ParseTime os2 s)
  /\ (forall t, http.FormatTime os1 t = http.FormatTime os2 t)
  /\ http.Boundary os1 = http.Boundary os2
  /\ http.keepheaders os1 = http.keepheaders os2.


(** [site], with something to read wherever [static] does not reach. *)
Definition site_amid_secrets : http.OS :=
  {| http.Open := fun p =>
       if beneath_static p then http.Open site p
       else http.IsFile time.zeroTime "root:x:0:0:root:/root:/bin/sh";
     http.TypeByExtension := http.TypeByExtension site;
     http.DetectContentType := http.DetectContentType site;
     http.ParseTime := http.ParseTime site;
     http.FormatTime := http.FormatTime site;
     http.Boundary := http.Boundary site;
     http.keepheaders := http.keepheaders site |}.

(** *** Bodies *)

Definition with_Body (r : http.Request) (data : string) : http.Request :=
  {| http.Method := http.Method r; http.Path := http.Path r;
     http.RawPath := http.RawPath r; http.RawQuery := http.RawQuery r;
     http.Fields := http.Fields r; http.Body := data;
     http.Done := http.Done r; http.tie := http.tie r |}.

(** Not a number: more input cannot be more of the value. *)
Definition closed (v : json.Value) : bool :=
  match v with json.JNumber _ => false | _ => true end.

(** [body] starts with a JSON value that is delimited whatever follows
    it. *)
Definition starts_closed (body : string) : bool :=
  match json.readValue body with
  | inr v => closed v
  | inl _ => false
  end.

(** The contents of a string literal, as [json.scan_string] accepts them
    from the state [st] on. *)
Fixpoint literal (st : json.string_state) (raw : string) : bool :=
  match raw with
  | EmptyString =>
      match st with json.InString => true | _ => false end
  | String c r =>
      match st with
      | json.InString =>
          if Ascii.eqb c byte.dquote then false
          else if Ascii.eqb c "\" then literal json.InStringEsc r
          else if (byte.code c <? 32)%N then false
          else literal json.InString r
      | json.InStringEsc =>
          if json.is_escape c then literal json.InString r
          else if Ascii.eqb c "u" then literal (json.InStringEscU 3) r
          else false
      | json.InStringEscU n =>
          match byte.hex_value c with
          | Some _ =>
              literal match n with
                      | O => json.InString
                      | S k => json.InStringEscU k
                      end r
          | None => false
          end
      end
  end.

(** A scanned value whose strings, its own or those of its members, are
    well-formed UTF-8. *)
Definition string_ok (v : json.Value) : bool :=
  match v with
  | json.JString s => valid_utf8 O s
  | _ => true
  end.

Definition sane (v : json.Value) : bool :=
  match v with
  | json.JObject members => forallb (fun m => string_ok (snd m)) members
  | _ => string_ok v
  end.

(** A body that holds a name of two bytes that are not UTF-8. *)
Definition item_not_utf8 : string :=
  "{" +:+ quoted "name" +:+ ":"
      +:+ quoted (String (byte.of_N 255) (String (byte.of_N 254) EmptyString))
      +:+ "," +:+ quoted "price" +:+ ":1}".

(** *** The end of the process *)

(** How a process that is gone with exit status [code] came to it, [es]
    being what happened: out of [log.Fatal] in the goroutine that listens,
    with status 1 and the error as the last line of the log, or out of
    the runtime on a [SIGQUIT], with status 2. *)
Definition exit_cause (es : list Event) (p : Process) (code : Z) : Prop :=
  (code = 1 /\ pc_srv p = srv_Listen
   /\ exists err, In (Listen_error err) es
                  /\ last (log (world p)) = Some (Fatal err))
  \/ (code = 2 /\ In (arrives SIGQUIT) es).

(** The requests among the events. *)
Definition requests (es : list Event) : list http.Request :=
  omap (fun e => match e with request r => Some r | _ => None end) es.

(** *** Requests that differ in one part *)

Definition with_Method (r : http.Request) (m : string) : http.Request :=
  {| http.Method := m; http.Path := http.Path r;
     http.RawPath := http.RawPath r; http.RawQuery := http.RawQuery r;
     http.Fields := http.Fields r; http.Body := http.Body r;
     http.Done := http.Done r; http.tie := http.tie r |}.

(** The members of an object, their keys in lower case. *)
Definition lower_keys (members : list (string * json.Value))
  : list (string * json.Value) :=
  map (fun m => (strings.ToLower (fst m), snd m)) members.

(** [{"NAME":"Item Three","Price":300}] *)
Definition item_three_upper : string :=
  "{" +:+ quoted "NAME" +:+ ":" +:+ quoted "Item Three" +:+ ","
      +:+ quoted "Price" +:+ ":300}".

(** *** Bytes a browser or a terminal would act on *)

(** The bytes below 32, which are the control characters that stand
    before the space in ASCII, and the three characters that open markup.
    DEL (127) and the bytes of a character beyond ASCII are not among
    them. *)
Definition markup (c : ascii) : bool :=
  (byte.code c <? 32)%N || Ascii.eqb c "<" || Ascii.eqb c ">"
  || Ascii.eqb c "&".

Fixpoint inert (s : string) : bool :=
  match s with
  | EmptyString => true
  | String c r => negb (markup c) && inert r
  end.

(** A body whose name is markup over two lines. *)
Definition item_script : string :=
  "{" +:+ quoted "name" +:+ ":"
      +:+ quoted "<script>alert(1)</script>\n&amp;"
      +:+ "," +:+ quoted "price" +:+ ":1}".

(** *** The first line of the log *)

Definition started_line : LogEntry :=
  Println "Server started on http://localhost:8080".

(** A line that follows the first: about a request, or the error of
    [log.Fatal]. *)
Definition later_line (e : LogEntry) : Prop :=
  (exists err, e = Fatal err) \/ request_line e.

(** Nothing is logged before the goroutine of line 109 has logged its
    line, and that line comes once. *)
Definition begun (p : Process) : Prop :=
  (pc_main p = main_entry -> pc_srv p = srv_none)
  /\ match pc_srv p with
     | srv_Listen =>
         exists rest,
           log (world p) = started_line :: rest /\ Forall later_line rest
     | _ => log (world p) = []
     end.


(** * Properties *)

(** ** The scanner always has fuel enough *)

Section scanning.
Import json.
Local Open Scope nat_scope.

Lemma fed_map {A B : Type} (f : A -> B) k r : fed k r -> fed k (scan_map f r).
Proof. destruct r; exact id. Qed.

Lemma fed_le {A : Type} k k' (r : scan A) : k <= k' -> fed k r -> fed k' r.
Proof. destruct r; cbn; [lia | auto | auto]. Qed.

Lemma skip_space_length s : String.length (skip_space s) <= String.length s.
Proof.
  induction s as [|c r IH]; cbn [skip_space]; [lia|].
  destruct (isSpace c); cbn [String.length]; lia.
Qed.

Lemma digits_length s : String.length (snd (digits s)) <= String.length s.
Proof.
  induction s as [|c s IH]; cbn [digits]; [cbn; lia|].
  destruct (byte.is_digit c); [|cbn; lia].
  destruct (digits s) as [d' r']. cbn [snd String.length] in *. lia.
Qed.

Lemma scan_exp_fed lit s : fed (String.length s) (scan_exp lit s).
Proof.
  unfold scan_exp. destruct s as [|e r]; [cbn; lia|].
  destruct (_ || _); [|cbn; lia].
  destruct r as [|c r1]; [exact I|].
  destruct (_ || _).
  - destruct r1 as [|d r2]; [exact I|].
    destruct (byte.is_digit d); [|exact I].
    pose proof (digits_length (String d r2)) as H.
    destruct (digits (String d r2)) as [ds r3].
    cbn [fed snd String.length] in *. lia.
  - destruct (byte.is_digit c); [|exact I].
    pose proof (digits_length (String c r1)) as H.
    destruct (digits (String c r1)) as [ds r3].
    cbn [fed snd String.length] in *. lia.
Qed.

Lemma scan_frac_fed lit s : fed (String.length s) (scan_frac lit s).
Proof.
  unfold scan_frac.
  destruct s as [|c r]; [apply scan_exp_fed|].
  destruct (Ascii.eqb_spec c "."); [subst c | ].
  - destruct r as [|d r1]; [exact I|].
    destruct (byte.is_digit d); [|exact I].
    pose proof (digits_length (String d r1)) as H.
    destruct (digits (String d r1)) as [ds r2].
    eapply fed_le; [|apply scan_exp_fed]. cbn [snd String.length] in *. lia.
  - destruct c as [[] [] [] [] [] [] [] []]; try apply scan_exp_fed.
    congruence.
Qed.

Lemma scan_int_fed s : fed (String.length s - 1) (scan_int s).
Proof.
  unfold scan_int. destruct s as [|c r]; [exact I|].
  cbn [String.length].
  replace (S (String.length r) - 1) with (String.length r) by lia.
  destruct (Ascii.eqb c "0"); [apply scan_frac_fed|].
  destruct (byte.between 49 57 c); [|exact I].
  pose proof (digits_length r) as H.
  destruct (digits r) as [ds r1].
  eapply fed_le; [|apply scan_frac_fed]. exact H.
Qed.

Lemma scan_number_fed s : fed (String.length s - 1) (scan_number s).
Proof.
  unfold scan_number.
  destruct s as [|c r]; [apply (scan_int_fed EmptyString)|].
  destruct (Ascii.eqb_spec c "-"); [subst c | ].
  - apply fed_map. eapply fed_le; [|apply scan_int_fed].
    cbn [String.length]. lia.
  - destruct c as [[] [] [] [] [] [] [] []];
      try apply (scan_int_fed (String _ r)).
    congruence.
Qed.

Lemma expect_fed name w s : fed (String.length s) (expect name w s).
Proof.
  revert s. induction w as [|x w IH]; intros s; cbn [expect]; [cbn; lia|].
  destruct s as [|c r]; [exact I|].
  destruct (Ascii.eqb c x); [|exact I].
  eapply fed_le; [|apply IH]. cbn [String.length]. lia.
Qed.

Lemma scan_string_fed st s : fed (String.length s - 1) (scan_string st s).
Proof.
  revert st. induction s as [|c r IH]; intros st; [exact I|].
  cbn [scan_string String.length].
  replace (S (String.length r) - 1) with (String.length r) by lia.
  assert (Hrec : forall st',
             fed (String.length r) (scan_map (String c) (scan_string st' r))).
  { intros st'. apply fed_map. eapply fed_le; [|apply IH]. lia. }
  destruct st as [| |n].
  - destruct (Ascii.eqb c byte.dquote); [cbn; lia|].
    destruct (Ascii.eqb c "\"); [apply Hrec|].
    destruct (_ <? _)%N; [exact I | apply Hrec].
  - destruct (is_escape c); [apply Hrec|].
    destruct (Ascii.eqb c "u"); [apply Hrec | exact I].
  - destruct (byte.hex_value c); [apply Hrec | exact I].
Qed.

(** With fuel for twice the bytes it is given, and a little more, no
    scan starves; each reads at least one byte. *)
Lemma scan_values_fed fuel :
  (forall depth s, 2 * String.length s + 1 <= fuel ->
     fed (String.length s - 1) (scan_value fuel depth s))
  /\ (forall depth s, 2 * String.length s + 2 <= fuel ->
        fed (String.length s - 1) (scan_elements fuel depth s))
  /\ (forall depth s, 2 * String.length s + 2 <= fuel ->
        fed (String.length s - 1) (scan_members fuel depth s)).
Proof.
  induction fuel as [|fuel (IHv & IHe & IHm)].
  - repeat split; intros depth s H; lia.
  - repeat split; intros depth s H.
    + (* scan_value *)
      cbn [scan_value].
      pose proof (skip_space_length s) as Hs.
      destruct (skip_space s) as [|c r]; [exact I|].
      cbn [String.length] in Hs.
      destruct (Ascii.eqb c "{").
      { destruct (_ <? _)%N; [exact I|].
        pose proof (skip_space_length r) as Hr.
        assert (Hm : fed (String.length s - 1)
                       (scan_map JObject (scan_members fuel (depth + 1) r))).
        { apply fed_map. eapply fed_le; [|apply IHm]; lia. }
        destruct (skip_space r) as [|c1 r1]; [exact Hm|].
        destruct c1 as [[] [] [] [] [] [] [] []]; try exact Hm.
        cbn [fed String.length] in *. lia. }
      destruct (Ascii.eqb c "[").
      { destruct (_ <? _)%N; [exact I|].
        pose proof (skip_space_length r) as Hr.
        assert (Hm : fed (String.length s - 1)
                       (scan_map JArray (scan_elements fuel (depth + 1) r))).
        { apply fed_map. eapply fed_le; [|apply IHe]; lia. }
        destruct (skip_space r) as [|c1 r1]; [exact Hm|].
        destruct c1 as [[] [] [] [] [] [] [] []]; try exact Hm.
        cbn [fed String.length] in *. lia. }
      destruct (Ascii.eqb c byte.dquote).
      { apply fed_map. eapply fed_le; [|apply scan_string_fed]. lia. }
      destruct (_ || _).
      { apply fed_map. eapply fed_le; [|apply scan_number_fed].
        cbn [String.length]. lia. }
      destruct (Ascii.eqb c "t").
      { apply fed_map. eapply fed_le; [|apply expect_fed]. lia. }
      destruct (Ascii.eqb c "f").
      { apply fed_map. eapply fed_le; [|apply expect_fed]. lia. }
      destruct (Ascii.eqb c "n").
      { apply fed_map. eapply fed_le; [|apply expect_fed]. lia. }
      exact I.
    + (* scan_elements *)
      cbn [scan_elements].
      pose proof (IHv depth s ltac:(lia)) as Hv.
      destruct (scan_value fuel depth s) as [v rest| |]; [|exact I|exact Hv].
      cbn [fed] in Hv.
      pose proof (skip_space_length rest) as Hr.
      destruct (skip_space rest) as [|c r]; [exact I|].
      cbn [String.length] in Hr.
      destruct (Ascii.eqb c ",").
      { apply fed_map. eapply fed_le; [|apply IHe]; lia. }
      destruct (Ascii.eqb c "]"); [cbn; lia | exact I].
    + (* scan_members *)
      cbn [scan_members].
      pose proof (skip_space_length s) as Hs.
      destruct (skip_space s) as [|q r]; [exact I|].
      cbn [String.length] in Hs.
      destruct (negb _); [exact I|].
      pose proof (scan_string_fed InString r) as Hk.
      destruct (scan_string InString r) as [raw rest| |]; [|exact I|exact Hk].
      cbn [fed] in Hk.
      pose proof (skip_space_length rest) as Hr.
      destruct (skip_space rest) as [|c r1]; [exact I|].
      cbn [String.length] in Hr.
      destruct (negb _); [exact I|].
      pose proof (IHv depth r1 ltac:(lia)) as Hv.
      destruct (scan_value fuel depth r1) as [v rest1| |]; [|exact I|exact Hv].
      cbn [fed] in Hv.
      pose proof (skip_space_length rest1) as Hr1.
      destruct (skip_space rest1) as [|d r2]; [exact I|].
      cbn [String.length] in Hr1.
      destruct (Ascii.eqb d ",").
      { apply fed_map. eapply fed_le; [|apply IHm]; lia. }
      destruct (Ascii.eqb d "}"); [cbn; lia | exact I].
Qed.

(** The fuel [readValue] supplies is enough: its last case never
    applies. *)
Lemma readValue_fed body :
  let s := skip_space body in
  scan_value (2 * String.length s + 1) 0 s <> Starved.
Proof.
  intros s H.
  pose proof (proj1 (scan_values_fed (2 * String.length s + 1)) 0%N s
                ltac:(lia)) as Hf.
  rewrite H in Hf. exact Hf.
Qed.

End scanning.

(** ** Reading back what the encoder wrote *)

Section parsing.
Lemma uint_of_string_to_uint p :
  NilZero.uint_of_string (NilZero.string_of_uint (Pos.to_uint p))
  = Some (Pos.to_uint p).
Proof. apply NilZero.usu, DecimalPos.Unsigned.to_uint_nonnil. Qed.

Lemma ParseInt_unsigned p :
  json.ParseInt (NilZero.string_of_uint (Pos.to_uint p))
  = if int.in_range (Z.pos p) then Some (Z.pos p) else None.
Proof.
  unfold json.ParseInt.
  assert (H : forall s, s = NilZero.string_of_uint (Pos.to_uint p) ->
            match s with
            | String "-" r => (true, r)
            | String "+" r => (false, r)
            | _ => (false, s)
            end = (false, s)).
  { intros s ->. pose proof (DecimalPos.Unsigned.to_uint_nonnil p) as Hn.
    destruct (Pos.to_uint p); [congruence| | | | | | | | | |]; reflexivity. }
  rewrite (H _ eq_refl), uint_of_string_to_uint.
  change (N.of_uint (Pos.to_uint p)) with (Pos.of_uint (Pos.to_uint p)).
  rewrite DecimalPos.Unsigned.of_to. reflexivity.
Qed.

Lemma ParseInt_Itoa z :
  int.in_range z = true -> json.ParseInt (json.Itoa z) = Some z.
Proof.
  intros Hz. destruct z as [|p|p].
  - reflexivity.
  - unfold json.Itoa. cbn [Z.to_int NilZero.string_of_int].
    rewrite ParseInt_unsigned, Hz. reflexivity.
  - unfold json.Itoa. cbn [Z.to_int NilZero.string_of_int].
    unfold json.ParseInt. rewrite uint_of_string_to_uint.
    change (N.of_uint (Pos.to_uint p)) with (Pos.of_uint (Pos.to_uint p)).
    rewrite DecimalPos.Unsigned.of_to.
    change (- Z.of_N (N.pos p)) with (Z.neg p). rewrite Hz. reflexivity.
Qed.


(** An item whose numbers are [int]s is read back from its JSON value as
    it was, whatever the item read into held. *)
Lemma Unmarshal_of_Item it it0 :
  int.in_range (ID it) = true -> int.in_range (Price it) = true ->
  json.Unmarshal (json.of_Item it) it0 = (it, None).
Proof.
  intros Hi Hp. destruct it as [i n p]. cbn [ID Price] in Hi, Hp.
  unfold json.Unmarshal, json.of_Item.
  cbn [fold_left ID Name Price]. unfold json.store_member.
  change (json.field_of_key "id") with (Some "id").
  change (json.field_of_key "name") with (Some "name").
  change (json.field_of_key "price") with (Some "price").
  cbn [String.eqb Ascii.eqb Bool.eqb json.store_int json.store_string].
  rewrite (ParseInt_Itoa i Hi). cbn [ID Name Price from_option].
  rewrite (ParseInt_Itoa p Hp). reflexivity.
Qed.
End parsing.

Section fuel.
Import json.
Local Open Scope nat_scope.

Lemma scan_map_Starved {A B : Type} (f : A -> B) r :
  scan_map f r <> Starved -> r <> Starved.
Proof. destruct r; cbn; congruence. Qed.

(** Fuel beyond what a scan needs changes nothing. *)
Lemma scan_values_more fuel :
  (forall fuel' depth s, fuel <= fuel' ->
     scan_value fuel depth s <> Starved ->
     scan_value fuel' depth s = scan_value fuel depth s)
  /\ (forall fuel' depth s, fuel <= fuel' ->
        scan_elements fuel depth s <> Starved ->
        scan_elements fuel' depth s = scan_elements fuel depth s)
  /\ (forall fuel' depth s, fuel <= fuel' ->
        scan_members fuel depth s <> Starved ->
        scan_members fuel' depth s = scan_members fuel depth s).
Proof.
  induction fuel as [|fuel (IHv & IHe & IHm)].
  - repeat split; intros fuel' depth s _ H; contradiction H; reflexivity.
  - repeat split; intros [|fuel'] depth s Hle; try lia;
      assert (Hle' : fuel <= fuel') by lia.
    + cbn [scan_value].
      destruct (skip_space s) as [|c r]; [reflexivity|].
      destruct (Ascii.eqb c "{").
      { destruct (_ <? _)%N; [reflexivity|].
        destruct (skip_space r) as [|c1 r1].
        - intros H. apply scan_map_Starved in H. rewrite IHm; auto.
        - destruct c1 as [[] [] [] [] [] [] [] []]; try reflexivity;
            intros H; apply scan_map_Starved in H; rewrite IHm; auto. }
      destruct (Ascii.eqb c "[").
      { destruct (_ <? _)%N; [reflexivity|].
        destruct (skip_space r) as [|c1 r1].
        - intros H. apply scan_map_Starved in H. rewrite IHe; auto.
        - destruct c1 as [[] [] [] [] [] [] [] []]; try reflexivity;
            intros H; apply scan_map_Starved in H; rewrite IHe; auto. }
      reflexivity.
    + cbn [scan_elements]. intros H.
      assert (Hv : scan_value fuel depth s <> Starved)
        by (intros E; rewrite E in H; contradiction H; reflexivity).
      rewrite (IHv fuel' depth s Hle' Hv).
      destruct (scan_value fuel depth s) as [v rest| |]; try reflexivity.
      destruct (skip_space rest) as [|c r]; [reflexivity|].
      destruct (Ascii.eqb c ","); [|reflexivity].
      apply scan_map_Starved in H. rewrite IHe; auto.
    + cbn [scan_members]. intros H.
      destruct (skip_space s) as [|q r]; [reflexivity|].
      destruct (negb _); [reflexivity|].
      destruct (scan_string InString r) as [raw rest| |]; try reflexivity.
      destruct (skip_space rest) as [|c r1]; [reflexivity|].
      destruct (negb _); [reflexivity|].
      assert (Hv : scan_value fuel depth r1 <> Starved)
        by (intros E; rewrite E in H; contradiction H; reflexivity).
      rewrite (IHv fuel' depth r1 Hle' Hv).
      destruct (scan_value fuel depth r1) as [v rest1| |]; try reflexivity.
      destruct (skip_space rest1) as [|d r2]; [reflexivity|].
      destruct (Ascii.eqb d ","); [|reflexivity].
      apply scan_map_Starved in H. rewrite IHm; auto.
Qed.

(** So a value that some amount of fuel scans is the value [readValue]
    answers. *)
Lemma readValue_scanned fuel body v rest :
  scan_value fuel 0 (skip_space body) = Scanned v rest ->
  readValue body = inr v.
Proof.
  intros H. unfold readValue.
  destruct (skip_space body) as [|c r] eqn:Eb.
  - destruct fuel; discriminate H.
  - set (s := String c r) in *.
    destruct (Nat.le_ge_cases fuel (2 * String.length s + 1)) as [Hle | Hge].
    + rewrite (proj1 (scan_values_more fuel) _ 0%N s Hle), H; [reflexivity|].
      rewrite H. discriminate.
    + pose proof (readValue_fed body) as Hf. cbn zeta in Hf.
      rewrite Eb in Hf. fold s in Hf.
      rewrite <- (proj1 (scan_values_more _) fuel 0%N s Hge Hf), H.
      reflexivity.
Qed.
End fuel.

Section numbers.
Import json.

Lemma digits_string_of_uint d c r :
  byte.is_digit c = false ->
  digits (NilEmpty.string_of_uint d +:+ String c r)
  = (NilEmpty.string_of_uint d, String c r).
Proof.
  intros Hc. induction d; simpl; try (rewrite IHd; reflexivity).
  rewrite Hc. reflexivity.
Qed.

Lemma scan_frac_end lit c r :
  ends_number c = true -> scan_frac lit (String c r) = Scanned lit (String c r).
Proof.
  unfold ends_number. intros H. apply negb_true_iff in H.
  repeat (apply orb_false_elim in H as [H ?]).
  unfold scan_frac.
  destruct c as [[] [] [] [] [] [] [] []]; try discriminate;
    unfold scan_exp; cbn; reflexivity.
Qed.

Lemma unorm_D0 d d' : Decimal.unorm d = Decimal.D0 d' -> d' = Decimal.Nil.
Proof.
  induction d; cbn [Decimal.unorm]; try discriminate; auto.
  intros [= <-]. reflexivity.
Qed.

Lemma to_uint_head p d : Pos.to_uint p <> Decimal.D0 d.
Proof.
  intros H.
  assert (Hn : Decimal.unorm (Pos.to_uint p) = Pos.to_uint p).
  { change (Pos.to_uint p) with (N.to_uint (N.pos p)).
    rewrite <- (DecimalN.Unsigned.of_to (N.pos p)) at 2.
    symmetry. apply DecimalN.Unsigned.to_of. }
  rewrite H in Hn. apply unorm_D0 in Hn. subst d.
  exact (DecimalPos.Unsigned.to_uint_nonzero p H).
Qed.

Lemma scan_int_unsigned p c r :
  ends_number c = true ->
  scan_int (NilZero.string_of_uint (Pos.to_uint p) +:+ String c r)
  = Scanned (NilZero.string_of_uint (Pos.to_uint p)) (String c r).
Proof.
  intros Hc.
  assert (Hd : byte.is_digit c = false).
  { unfold ends_number in Hc. apply negb_true_iff in Hc.
    repeat (apply orb_false_elim in Hc as [Hc ?]). exact Hc. }
  pose proof (DecimalPos.Unsigned.to_uint_nonnil p) as Hnil.
  pose proof (to_uint_head p) as Hhead.
  destruct (Pos.to_uint p) as [|d|d|d|d|d|d|d|d|d|d];
    [congruence | exfalso; eapply Hhead; reflexivity | ..];
    unfold scan_int; simpl;
    rewrite (digits_string_of_uint d c r Hd);
    apply scan_frac_end; exact Hc.
Qed.

Lemma scan_number_Itoa z c r :
  ends_number c = true ->
  scan_number (Itoa z +:+ String c r) = Scanned (Itoa z) (String c r).
Proof.
  intros Hc. destruct z as [|p|p]; unfold Itoa;
    cbn [Z.to_int NilZero.string_of_int].
  - unfold scan_number, scan_int. simpl. apply scan_frac_end. exact Hc.
  - unfold scan_number.
    assert (H : forall s,
              s = NilZero.string_of_uint (Pos.to_uint p) +:+ String c r ->
              match s with
              | String "-" r0 => scan_map (String "-") (scan_int r0)
              | _ => scan_int s
              end = scan_int s).
    { intros s ->. pose proof (DecimalPos.Unsigned.to_uint_nonnil p) as Hn.
      destruct (Pos.to_uint p); [congruence|..]; reflexivity. }
    rewrite (H _ eq_refl). apply scan_int_unsigned. exact Hc.
  - unfold scan_number. simpl. rewrite scan_int_unsigned by exact Hc.
    reflexivity.
Qed.
End numbers.

Section strings_.
Import json.

Lemma append_String c s t : String c s +:+ t = String c (s +:+ t).
Proof. reflexivity. Qed.

Lemma between_code lo hi c :
  byte.between lo hi c = true -> (lo <= byte.code c <= hi)%N.
Proof.
  unfold byte.between. intros H. apply andb_true_iff in H as [H1 H2].
  apply N.leb_le in H1, H2. lia.
Qed.

Lemma code_of_N n : (n < 256)%N -> byte.code (byte.of_N n) = n.
Proof.
  intros H. unfold byte.code, byte.of_N.
  rewrite N.mod_small by exact H. apply N_ascii_embedding. exact H.
Qed.

(** A byte that is neither a control character, nor the quote, nor the
    backslash is part of a string literal as it is. *)
Lemma scan_string_plain c r :
  (32 <= byte.code c)%N -> byte.code c <> 34%N -> byte.code c <> 92%N ->
  scan_string InString (String c r)
  = scan_map (String c) (scan_string InString r).
Proof.
  intros H1 H2 H3. cbn [scan_string].
  destruct (Ascii.eqb_spec c byte.dquote) as [->|_]; [contradiction H2; reflexivity|].
  destruct (Ascii.eqb_spec c "\") as [->|_]; [contradiction H3; reflexivity|].
  destruct (N.ltb_spec (byte.code c) 32); [lia | reflexivity].
Qed.

Lemma valid_size_conts c r n :
  utf8.valid_size (String c r) = S n ->
  conts n r = true /\ (128 <= byte.code c)%N.
Proof.
  unfold utf8.valid_size. cbv zeta.
  destruct ((194 <=? byte.code c) && (byte.code c <=? 223))%N eqn:E1.
  { apply andb_true_iff in E1 as [E1 _]. apply N.leb_le in E1.
    destruct r as [|b1 r]; [discriminate|].
    destruct (utf8.cont b1) eqn:C1; [|discriminate].
    intros [= <-]. cbn [conts]. rewrite C1. split; [reflexivity | lia]. }
  destruct ((224 <=? byte.code c) && (byte.code c <=? 239))%N eqn:E2.
  { apply andb_true_iff in E2 as [E2 _]. apply N.leb_le in E2.
    destruct r as [|b1 [|b2 r]]; try discriminate.
    destruct (byte.between _ _ b1) eqn:C1; [|discriminate].
    destruct (utf8.cont b2) eqn:C2; [|discriminate].
    intros [= <-]. cbn [conts]. rewrite C2. split; [|lia].
    rewrite andb_true_r. apply between_code in C1.
    unfold utf8.cont, byte.between.
    destruct (_ =? 224)%N, (_ =? 237)%N;
      apply andb_true_iff; split; apply N.leb_le; lia. }
  destruct ((240 <=? byte.code c) && (byte.code c <=? 244))%N eqn:E3;
    [|discriminate].
  apply andb_true_iff in E3 as [E3 _]. apply N.leb_le in E3.
  destruct r as [|b1 [|b2 [|b3 r]]]; try discriminate.
  destruct (byte.between _ _ b1) eqn:C1; [|discriminate].
  destruct (utf8.cont b2) eqn:C2; [|discriminate].
  destruct (utf8.cont b3) eqn:C3; [|discriminate].
  intros [= <-]. cbn [conts]. rewrite C2, C3. split; [|lia].
  rewrite andb_true_r. apply between_code in C1.
  unfold utf8.cont, byte.between.
  destruct (_ =? 240)%N, (_ =? 244)%N;
    apply andb_true_iff; split; apply N.leb_le; lia.
Qed.

Lemma line_separator_digit s d :
  line_separator s = Some d -> d = "8"%char \/ d = "9"%char.
Proof.
  unfold line_separator.
  destruct s as [|b0 [|b1 [|b2 r]]]; try discriminate.
  destruct (_ && _); [|discriminate].
  destruct (_ =? 168)%N; [intros [= <-]; auto|].
  destruct (_ =? 169)%N; [intros [= <-]; auto | discriminate].
Qed.

(** The contents [escape] writes are a string literal the scanner
    delimits as a whole. *)
Lemma scan_string_escape n :
  forall s k rest,
    (String.length s <= n)%nat -> conts k s = true ->
    scan_string InString (escape k s +:+ String byte.dquote rest)
    = Scanned (escape k s) rest.
Proof.
  induction n as [|n IH]; intros s k rest Hn Hk.
  - destruct s; [|cbn in Hn; lia]. destruct k; reflexivity.
  - destruct s as [|c r]; [destruct k; reflexivity|].
    cbn [String.length] in Hn.
    assert (IH0 : forall rest', scan_string InString
                     (escape O r +:+ String byte.dquote rest')
                   = Scanned (escape O r) rest')
      by (intros; apply IH; [lia | reflexivity]).
    destruct k as [|k].
    + cbn [escape].
      destruct (N.ltb_spec (byte.code c) 128) as [Hlt | Hge].
      * destruct (htmlSafe c) eqn:Hsafe.
        -- rewrite append_String, scan_string_plain, IH0; [reflexivity|..];
             unfold htmlSafe in Hsafe;
             repeat (apply andb_true_iff in Hsafe as [Hsafe ?]);
             repeat match goal with
                    | H : negb _ = true |- _ =>
                        apply negb_true_iff, N.eqb_neq in H
                    end; try assumption.
           apply N.leb_le in Hsafe. exact Hsafe.
        -- destruct c as [[] [] [] [] [] [] [] []];
             try discriminate Hsafe;
             try (exfalso; vm_compute in Hlt; discriminate Hlt);
             simpl; rewrite IH0; reflexivity.
      * destruct (utf8.valid_size (String c r)) as [|m] eqn:Hv.
        -- simpl. rewrite IH0. reflexivity.
        -- destruct (valid_size_conts c r m Hv) as [Hc Hcode].
           destruct (line_separator (String c r)) as [d|] eqn:Hl.
           ++ destruct r as [|b1 [|b2 r1]];
                try (rewrite append_String, scan_string_plain, IH by
                       (cbn [String.length] in *; try lia; assumption);
                     reflexivity).
              destruct (line_separator_digit _ _ Hl) as [-> | ->];
                simpl; rewrite IH by (cbn [String.length] in *; try lia; reflexivity);
                reflexivity.
           ++ rewrite append_String, scan_string_plain, IH by
                (try lia; assumption). reflexivity.
    + cbn [conts] in Hk. apply andb_true_iff in Hk as [Hc Hk].
      apply between_code in Hc.
      cbn [escape].
      rewrite append_String, scan_string_plain, IH by (try lia; assumption).
      reflexivity.
Qed.
End strings_.

Section rereading.
Import json.

Lemma append_assoc (s t u : string) : (s +:+ t) +:+ u = s +:+ (t +:+ u).
Proof.
  induction s as [|c s IH]; [reflexivity|].
  rewrite !append_String. f_equal. exact IH.
Qed.

Lemma Itoa_head z :
  exists c s, Itoa z = String c s
              /\ (c = "-"%char \/ byte.is_digit c = true).
Proof.
  destruct z as [|p|p]; unfold Itoa; cbn [Z.to_int NilZero.string_of_int].
  - eexists _, _. split; [reflexivity | right; reflexivity].
  - pose proof (DecimalPos.Unsigned.to_uint_nonnil p) as Hn.
    destruct (Pos.to_uint p); [congruence|..];
      eexists _, _; (split; [reflexivity | right; reflexivity]).
  - eexists _, _. split; [reflexivity | left; reflexivity].
Qed.

(** A number [Itoa] wrote, followed by a comma or a brace, is scanned as
    that number. *)
Lemma scan_value_Itoa fuel depth z c r :
  ends_number c = true ->
  scan_value (S fuel) depth (Itoa z +:+ String c r)
  = Scanned (JNumber (Itoa z)) (String c r).
Proof.
  intros Hc. pose proof (scan_number_Itoa z c r Hc) as Hn.
  destruct (Itoa_head z) as (c0 & s0 & E & Hc0). rewrite E in *.
  rewrite append_String in *.
  assert (H : isSpace c0 = false /\ Ascii.eqb c0 "{" = false
              /\ Ascii.eqb c0 "[" = false /\ Ascii.eqb c0 byte.dquote = false
              /\ Ascii.eqb c0 "-" || byte.is_digit c0 = true).
  { destruct Hc0 as [-> | Hd]; [repeat split|].
    assert (Hcode : (48 <= byte.code c0 <= 57)%N)
      by (apply between_code; exact Hd).
    split; [unfold isSpace; repeat (apply orb_false_intro);
            apply N.eqb_neq; lia|].
    repeat split;
      try (match goal with
           | |- Ascii.eqb c0 ?x = false =>
               destruct (Ascii.eqb_spec c0 x) as [->|_];
               [discriminate Hd | reflexivity]
           end).
    rewrite Hd. apply orb_true_r. }
  destruct H as (H1 & H2 & H3 & H4 & H5).
  cbn [scan_value skip_space]. rewrite H1, H2, H3, H4, H5, Hn. reflexivity.
Qed.

Lemma scan_value_quote fuel depth s rest :
  scan_value (S fuel) depth (quote s +:+ rest)
  = Scanned (JString (unquote O (escape O s))) rest.
Proof.
  unfold quote. rewrite append_assoc, !append_String.
  change (EmptyString +:+ rest) with rest. cbn [scan_value skip_space].
  change (isSpace byte.dquote) with false. cbv iota.
  change (Ascii.eqb byte.dquote "{") with false.
  change (Ascii.eqb byte.dquote "[") with false.
  rewrite Ascii.eqb_refl. cbv iota.
  rewrite (scan_string_escape (String.length s) s O rest (le_n _) eq_refl).
  reflexivity.
Qed.

Lemma dquote_bits :
  byte.dquote = Ascii false true false false false true false false.
Proof. reflexivity. Qed.

Lemma quote_String s rest :
  quote s +:+ rest
  = String byte.dquote (escape O s +:+ String byte.dquote rest).
Proof.
  unfold quote. rewrite append_assoc, !append_String. reflexivity.
Qed.

(** One member of an object, [key:value], followed by a comma or by the
    closing brace. *)
Lemma scan_members_more fuel depth key text v r :
  scan_value fuel depth (text +:+ String "," r) = Scanned v (String "," r) ->
  scan_members (S fuel) depth
    (quote key +:+ String ":" (text +:+ String "," r))
  = scan_map (cons (unquote O (escape O key), v))
      (scan_members fuel depth r).
Proof.
  intros Hv. rewrite quote_String. cbn [scan_members skip_space].
  change (isSpace byte.dquote) with false. cbv iota.
  rewrite Ascii.eqb_refl. cbn [negb].
  rewrite (scan_string_escape (String.length key) key O _ (le_n _) eq_refl).
  cbn [skip_space]. change (isSpace ":") with false. cbv iota.
  rewrite Ascii.eqb_refl. cbn [negb]. rewrite Hv.
  cbn [skip_space]. change (isSpace ",") with false. cbv iota.
  rewrite Ascii.eqb_refl. reflexivity.
Qed.

Lemma scan_members_last fuel depth key text v r :
  scan_value fuel depth (text +:+ String "}" r) = Scanned v (String "}" r) ->
  scan_members (S fuel) depth
    (quote key +:+ String ":" (text +:+ String "}" r))
  = Scanned [(unquote O (escape O key), v)] r.
Proof.
  intros Hv. rewrite quote_String. cbn [scan_members skip_space].
  change (isSpace byte.dquote) with false. cbv iota.
  rewrite Ascii.eqb_refl. cbn [negb].
  rewrite (scan_string_escape (String.length key) key O _ (le_n _) eq_refl).
  cbn [skip_space]. change (isSpace ":") with false. cbv iota.
  rewrite Ascii.eqb_refl. cbn [negb]. rewrite Hv.
  cbn [skip_space]. change (isSpace "}") with false. cbv iota.
  change (Ascii.eqb "}" ",") with false. cbv iota.
  rewrite Ascii.eqb_refl. reflexivity.
Qed.

Lemma Marshal_of_Item it rest :
  Marshal (of_Item it) +:+ rest
  = String "{"
      (quote "id" +:+ String ":" (Itoa (ID it) +:+ String ","
      (quote "name" +:+ String ":" (quote (Name it) +:+ String ","
      (quote "price" +:+ String ":" (Itoa (Price it) +:+ String "}" rest)))))).
Proof.
  unfold of_Item. cbn [Marshal map fst snd String.concat].
  rewrite !append_assoc. reflexivity.
Qed.

(** The encoding of an item is read back as an object of its three
    fields. *)
Lemma scan_value_of_Item fuel depth it rest :
  (depth + 1 <= maxNestingDepth)%N ->
  scan_value (5 + fuel) depth (Marshal (of_Item it) +:+ rest)
  = Scanned (reread it) rest.
Proof.
  intros Hd. rewrite Marshal_of_Item.
  change (5 + fuel)%nat with (S (S (S (S (S fuel))))).
  cbn [scan_value skip_space]. change (isSpace "{") with false. cbv iota.
  rewrite Ascii.eqb_refl.
  destruct (N.ltb_spec maxNestingDepth (depth + 1)) as [|_]; [lia|].
  rewrite quote_String, dquote_bits. cbn [skip_space].
  change (isSpace (Ascii false true false false false true false false))
    with false. cbv iota. rewrite <- dquote_bits, <- quote_String.
  rewrite (scan_members_more _ _ "id" _ (JNumber (Itoa (ID it))))
    by (apply scan_value_Itoa; reflexivity).
  rewrite (scan_members_more _ _ "name" (quote (Name it))
             (JString (unquote O (escape O (Name it)))))
    by apply scan_value_quote.
  rewrite (scan_members_last _ _ "price" _ (JNumber (Itoa (Price it))))
    by (apply scan_value_Itoa; reflexivity).
  reflexivity.
Qed.

Lemma skip_space_Marshal_of_Item it rest :
  skip_space (Marshal (of_Item it) +:+ rest) = Marshal (of_Item it) +:+ rest.
Proof. rewrite Marshal_of_Item. reflexivity. Qed.

Lemma readValue_Encode_of_Item it :
  readValue (Encode (of_Item it)) = inr (reread it).
Proof.
  unfold Encode. apply (readValue_scanned 5 _ _ (String (byte.of_N 10) EmptyString)).
  rewrite skip_space_Marshal_of_Item.
  apply (scan_value_of_Item 0). vm_compute. discriminate.
Qed.

(** The elements of an array of items, up to the closing bracket. *)
Lemma scan_elements_of_Items it l fuel depth rest :
  (depth + 1 <= maxNestingDepth)%N ->
  scan_elements (length l + 6 + fuel) depth
    (String.concat "," (map Marshal (map of_Item (it :: l)))
       +:+ String "]" rest)
  = Scanned (map reread (it :: l)) rest.
Proof.
  intros Hd. revert it. induction l as [|it' l IH]; intros it.
  - cbn [length map String.concat Nat.add scan_elements].
    rewrite (scan_value_of_Item fuel depth it _ Hd).
    cbn [skip_space]. change (isSpace "]") with false. cbv iota.
    change (Ascii.eqb "]" ",") with false. cbv iota.
    rewrite Ascii.eqb_refl. reflexivity.
  - change (map Marshal (map of_Item (it :: it' :: l)))
      with (Marshal (of_Item it) :: map Marshal (map of_Item (it' :: l))).
    change (String.concat "," (Marshal (of_Item it)
                                 :: map Marshal (map of_Item (it' :: l))))
      with (Marshal (of_Item it) +:+ "," +:+
            String.concat "," (map Marshal (map of_Item (it' :: l)))).
    rewrite !append_assoc. rewrite append_String.
    change (EmptyString +:+ ?x) with x.
    change (length (it' :: l) + 6 + fuel)%nat
      with (S (length l + 6 + fuel)).
    cbn [scan_elements].
    replace (length l + 6 + fuel)%nat with (5 + (length l + 1 + fuel))%nat
      by lia.
    rewrite (scan_value_of_Item _ depth it _ Hd).
    cbn [skip_space]. change (isSpace ",") with false. cbv iota.
    rewrite Ascii.eqb_refl.
    replace (5 + (length l + 1 + fuel))%nat with (length l + 6 + fuel)%nat
      by lia.
    rewrite IH. reflexivity.
Qed.

Lemma readValue_Encode_of_Items l :
  readValue (Encode (of_Items l)) = inr (JArray (map reread l)).
Proof.
  unfold Encode, of_Items.
  apply (readValue_scanned (S (length l + 6)) _ _
           (String (byte.of_N 10) EmptyString)).
  cbn [Marshal]. rewrite !append_String, append_assoc.
  change (EmptyString +:+ ?x) with x.
  cbn [skip_space]. change (isSpace "[") with false. cbv iota.
  cbn [scan_value skip_space]. change (isSpace "[") with false. cbv iota.
  change (Ascii.eqb "[" "{") with false. cbv iota. rewrite Ascii.eqb_refl.
  change (maxNestingDepth <? 0 + 1)%N with false. cbv iota.
  destruct l as [|it l]; [reflexivity|].
  replace (length (it :: l) + 6)%nat with (length l + 6 + 1)%nat
    by (cbn [length]; lia).
  rewrite !append_assoc.
  change ("]" +:+ String (byte.of_N 10) EmptyString)
    with (String "]" (String (byte.of_N 10) EmptyString)).
  rewrite scan_elements_of_Items by (vm_compute; discriminate).
  change (map Marshal (map of_Item (it :: l)))
    with (Marshal (of_Item it) :: map Marshal (map of_Item l)).
  destruct l as [|it' l].
  - cbn [map String.concat]. rewrite Marshal_of_Item. reflexivity.
  - change (String.concat "," (Marshal (of_Item it)
                                 :: map Marshal (map of_Item (it' :: l))))
      with (Marshal (of_Item it) +:+ "," +:+
            String.concat "," (map Marshal (map of_Item (it' :: l)))).
    rewrite append_assoc, Marshal_of_Item. reflexivity.
Qed.

(** Reading an item back gives its identifier, and its price, when they
    are [int]s; the name comes back as the encoder wrote it. *)
Lemma Unmarshal_reread_ID it it0 :
  int.in_range (ID it) = true ->
  ID (fst (Unmarshal (reread it) it0)) = ID it.
Proof.
  intros Hi. unfold Unmarshal, reread. cbn [fold_left].
  unfold store_member.
  change (field_of_key "id") with (Some "id").
  change (field_of_key "name") with (Some "name").
  change (field_of_key "price") with (Some "price").
  cbn [String.eqb Ascii.eqb Bool.eqb store_int store_string].
  rewrite (ParseInt_Itoa (ID it) Hi). cbn [ID Name Price from_option].
  destruct (ParseInt (Itoa (Price it))); reflexivity.
Qed.

Lemma Unmarshal_reread it it0 :
  int.in_range (ID it) = true -> int.in_range (Price it) = true ->
  Unmarshal (reread it) it0
  = ({| ID := ID it; Name := unquote O (escape O (Name it));
        Price := Price it |}, None).
Proof.
  intros Hi Hp. unfold Unmarshal, reread. cbn [fold_left].
  unfold store_member.
  change (field_of_key "id") with (Some "id").
  change (field_of_key "name") with (Some "name").
  change (field_of_key "price") with (Some "price").
  cbn [String.eqb Ascii.eqb Bool.eqb store_int store_string].
  rewrite (ParseInt_Itoa (ID it) Hi). cbn [ID Name Price from_option].
  rewrite (ParseInt_Itoa (Price it) Hp). reflexivity.
Qed.

(** A name of plain ASCII comes back as it was. *)
Lemma unquote_escape_plain s : plain s = true -> unquote O (escape O s) = s.
Proof.
  induction s as [|c r IH]; [reflexivity|]. cbn [plain]. intros H.
  apply andb_true_iff in H as [H Hr]. apply andb_true_iff in H as [Hlt Hs].
  cbn [escape]. rewrite Hlt, Hs. cbn [unquote].
  destruct (Ascii.eqb_spec c "\") as [->|_]; [discriminate Hs|].
  rewrite Hlt, (IH Hr). reflexivity.
Qed.
End rereading.

(** ** Arithmetic on [int] *)

Lemma wrap_small (z : Z) : int.MinInt <= z <= int.MaxInt -> int.wrap z = z.
Proof.
  unfold int.wrap, int.MinInt, int.MaxInt. intros H.
  rewrite Z.mod_small; lia.
Qed.

Lemma add_len_1 {A : Type} (l : list A) :
  len l < int.MaxInt -> int.add (len l) 1 = len l + 1.
Proof.
  intros H. unfold int.add. apply wrap_small.
  unfold len, int.MinInt, int.MaxInt in *. lia.
Qed.

(** ** Routing *)

Lemma ServeHTTP_matched rt r h :
  mux.cleanPath (http.Path r) = http.Path r ->
  mux.Match (mux.routes rt) false r = mux.Matched h ->
  mux.ServeHTTP rt r = mux.chain (mux.middlewares rt) h r.
Proof.
  intros Hc Hm. unfold mux.ServeHTTP.
  rewrite Hc, String.eqb_refl, Hm. reflexivity.
Qed.

Lemma route_post os r :
  http.Method r = "POST" -> http.Path r = "/api/items" ->
  mux.ServeHTTP (main_r os) r = loggingMiddleware AddItemHandler r.
Proof.
  intros Hm Hp.
  rewrite (ServeHTTP_matched _ _ AddItemHandler).
  - reflexivity.
  - rewrite Hp. reflexivity.
  - destruct r; simpl in Hm, Hp; subst. reflexivity.
Qed.

Lemma route_get os r :
  http.Method r = "GET" -> http.Path r = "/api/items" ->
  mux.ServeHTTP (main_r os) r = loggingMiddleware GetItemsHandler r.
Proof.
  intros Hm Hp.
  rewrite (ServeHTTP_matched _ _ GetItemsHandler).
  - reflexivity.
  - rewrite Hp. reflexivity.
  - destruct r; simpl in Hm, Hp; subst. reflexivity.
Qed.

(** The middleware adds its line to the log once the handler is done, and
    leaves the reply alone. *)
Lemma serve_logging h r wd :
  serve (loggingMiddleware h) r wd =
  (logged (Printf_Request (http.Method r) (http.Path r)) (fst (serve h r wd)),
   snd (serve h r wd)).
Proof.
  unfold serve, loggingMiddleware, mbind, M_bind, bind.
  destruct (h r (wd, http.NewRecorder)) as [[] [wd' w']]. reflexivity.
Qed.

(** ** What each handler does *)

Lemma AddItemHandler_created r wd it :
  json.Decode (http.Body r) Item_zero = (it, None) ->
  serve AddItemHandler r wd =
  let new := with_ID it (int.add (len (items wd)) 1) in
  ({| items := items wd ++ [new]; log := log wd |},
   json_reply http.StatusCreated (json.Encode (json.of_Item new))).
Proof.
  intros Hd. unfold serve, AddItemHandler. rewrite Hd. reflexivity.
Qed.

Lemma AddItemHandler_rejected r wd it e :
  json.Decode (http.Body r) Item_zero = (it, Some e) ->
  serve AddItemHandler r wd =
  (wd, error_reply http.StatusBadRequest (json.Error e)).
Proof.
  intros Hd. unfold serve, AddItemHandler. rewrite Hd. reflexivity.
Qed.

Lemma GetItemsHandler_After r wd :
  select (2 * time.Second) (http.Done r) (http.tie r) = case_After ->
  serve GetItemsHandler r wd =
  (wd, json_reply http.StatusOK (json.Encode (json.of_Items (items wd)))).
Proof.
  intros Hs. unfold serve, GetItemsHandler. rewrite Hs. reflexivity.
Qed.

Lemma GetItemsHandler_Done r wd :
  select (2 * time.Second) (http.Done r) (http.tie r) = case_Done ->
  serve GetItemsHandler r wd =
  (logged (Println "Request was cancelled by the client") wd,
   error_reply http.StatusRequestTimeout "Request cancelled").
Proof.
  intros Hs. unfold serve, GetItemsHandler. rewrite Hs. reflexivity.
Qed.

(** The two requests to [/api/items], through the router. *)
Lemma handle_post os r wd :
  http.Method r = "POST" -> http.Path r = "/api/items" ->
  handle os r wd =
  (logged (Printf_Request "POST" "/api/items") (fst (serve AddItemHandler r wd)),
   snd (serve AddItemHandler r wd)).
Proof.
  intros Hm Hp. unfold handle. cbn [Handler main_srv].
  unfold serve at 1. rewrite route_post by assumption.
  fold (serve (loggingMiddleware AddItemHandler) r wd).
  rewrite serve_logging, Hm, Hp. reflexivity.
Qed.

Lemma handle_get os r wd :
  http.Method r = "GET" -> http.Path r = "/api/items" ->
  handle os r wd =
  (logged (Printf_Request "GET" "/api/items") (fst (serve GetItemsHandler r wd)),
   snd (serve GetItemsHandler r wd)).
Proof.
  intros Hm Hp. unfold handle. cbn [Handler main_srv].
  unfold serve at 1. rewrite route_get by assumption.
  fold (serve (loggingMiddleware GetItemsHandler) r wd).
  rewrite serve_logging, Hm, Hp. reflexivity.
Qed.

Lemma select_timer_first r :
  timer_first r ->
  select (2 * time.Second) (http.Done r) (http.tie r) = case_After.
Proof.
  unfold timer_first, select. destruct (http.Done r) as [d|]; [|reflexivity].
  intros H. apply Z.ltb_lt in H. rewrite H. reflexivity.
Qed.

Lemma select_cancelled_first r :
  cancelled_first r ->
  select (2 * time.Second) (http.Done r) (http.tie r) = case_Done.
Proof.
  unfold cancelled_first, select. destruct (http.Done r) as [d|]; [|tauto].
  intros H. destruct (Z.ltb_spec (2 * time.Second) d); [lia|].
  apply Z.ltb_lt in H. rewrite H. reflexivity.
Qed.

(** ** [POST /api/items] *)

Lemma handle_post_decoded os r wd it :
  http.Method r = "POST" -> http.Path r = "/api/items" ->
  json.Decode (http.Body r) Item_zero = (it, None) ->
  len (items wd) < int.MaxInt ->
  handle os r wd =
  ({| items := items wd ++ [stored wd it];
      log := log wd ++ [Printf_Request "POST" "/api/items"] |},
   json_reply http.StatusCreated (json.Encode (json.of_Item (stored wd it)))).
Proof.
  intros Hm Hp Hd Hlen.
  rewrite handle_post, (AddItemHandler_created _ _ _ Hd) by assumption.
  cbn [fst snd]. rewrite add_len_1 by assumption. reflexivity.
Qed.

Lemma handle_post_undecodable os r wd it e :
  http.Method r = "POST" -> http.Path r = "/api/items" ->
  json.Decode (http.Body r) Item_zero = (it, Some e) ->
  handle os r wd =
  ({| items := items wd;
      log := log wd ++ [Printf_Request "POST" "/api/items"] |},
   error_reply http.StatusBadRequest (json.Error e)).
Proof.
  intros Hm Hp Hd.
  rewrite handle_post, (AddItemHandler_rejected _ _ _ _ Hd) by assumption.
  reflexivity.
Qed.

(** C1. A [POST] to [/api/items] whose body decodes as an [Item] is
    answered with status 201; exactly one item is appended to [items], and
    the identifier of the item stored, which is the item the reply encodes,
    is the length [items] had before, plus one.  A client that decodes the
    reply finds that identifier. *)
Theorem post_decoded_is_created os r wd it :
  http.Method r = "POST" -> http.Path r = "/api/items" ->
  json.Decode (http.Body r) Item_zero = (it, None) ->
  len (items wd) < int.MaxInt ->
  http.Code (reply os r wd) = http.StatusCreated
  /\ items (after os r wd) = items wd ++ [stored wd it]
  /\ length (items (after os r wd)) = S (length (items wd))
  /\ ID (stored wd it) = len (items wd) + 1
  /\ http.body (reply os r wd) = json.Encode (json.of_Item (stored wd it))
  /\ ID (fst (json.Decode (http.body (reply os r wd)) Item_zero))
     = len (items wd) + 1.
Proof.
  intros Hm Hp Hd Hlen. unfold reply, after.
  rewrite (handle_post_decoded os r wd it) by assumption.
  cbn [fst snd items]. repeat split.
  - rewrite length_app. cbn. lia.
  - cbn [json_reply http.body]. unfold json.Decode.
    rewrite readValue_Encode_of_Item, Unmarshal_reread_ID; [reflexivity|].
    cbn [stored with_ID ID]. unfold int.in_range, int.MinInt.
    apply andb_true_iff. split; apply Z.leb_le; unfold len in *; lia.
Qed.

Lemma post_decoded_is_created_witness :
  let r := POST item_three in
  let it := {| ID := 0; Name := "Item Three"; Price := 300 |} in
  (http.Method r = "POST" /\ http.Path r = "/api/items"
   /\ json.Decode (http.Body r) Item_zero = (it, None)
   /\ len (items boot) < int.MaxInt)
  /\ http.Code (reply no_files r boot) = 201
  /\ items (after no_files r boot) =
       items boot ++ [ {| ID := 3; Name := "Item Three"; Price := 300 |} ].
Proof.
  assert (Hd : json.Decode (http.Body (POST item_three)) Item_zero
               = ({| ID := 0; Name := "Item Three"; Price := 300 |}, None))
    by (vm_compute; reflexivity).
  assert (Hl : len (items boot) < int.MaxInt) by (vm_compute; reflexivity).
  split; [repeat split; assumption|].
  destruct (post_decoded_is_created no_files (POST item_three) boot _
              eq_refl eq_refl Hd Hl) as (H1 & H2 & _).
  split; assumption.
Defined.

(** C2. A [POST] to [/api/items] whose body fails to decode is answered
    with status 400 and, as plain text, the text of the decoder's error on a
    line of its own; [items] is left as it was. *)
Theorem post_undecodable_is_rejected os r wd it e :
  http.Method r = "POST" -> http.Path r = "/api/items" ->
  json.Decode (http.Body r) Item_zero = (it, Some e) ->
  http.Code (reply os r wd) = http.StatusBadRequest
  /\ http.body (reply os r wd) = json.Error e +:+ http.newline
  /\ http.sent (reply os r wd) !! "Content-Type"
     = Some "text/plain; charset=utf-8"
  /\ items (after os r wd) = items wd.
Proof.
  intros Hm Hp Hd. unfold reply, after.
  rewrite (handle_post_undecodable os r wd it e) by assumption.
  repeat split.
Qed.

Lemma post_undecodable_is_rejected_witness :
  let r := POST "{name" in
  let e := json.SyntaxError "n" "looking for beginning of object key string" in
  (http.Method r = "POST" /\ http.Path r = "/api/items"
   /\ json.Decode (http.Body r) Item_zero = (Item_zero, Some e))
  /\ http.Code (reply no_files r boot) = 400
  /\ http.body (reply no_files r boot) =
       "invalid character 'n' looking for beginning of object key string"
         +:+ http.newline
  /\ items (after no_files r boot) = items boot.
Proof.
  assert (Hd : json.Decode (http.Body (POST "{name")) Item_zero
               = (Item_zero,
                  Some (json.SyntaxError "n"
                          "looking for beginning of object key string")))
    by (vm_compute; reflexivity).
  split; [repeat split; assumption|].
  destruct (post_undecodable_is_rejected no_files (POST "{name") boot _ _
              eq_refl eq_refl Hd) as (H1 & H2 & _ & H4).
  repeat split; assumption.
Defined.

(** C7. Whatever identifier the decoded body carries, it is ignored:
    the item stored and returned has the identifier the handler assigns,
    and the name and the price of the decoded body. *)
Theorem post_ignores_supplied_identifier os r wd it :
  http.Method r = "POST" -> http.Path r = "/api/items" ->
  json.Decode (http.Body r) Item_zero = (it, None) ->
  len (items wd) < int.MaxInt ->
  let new := {| ID := len (items wd) + 1;
                Name := Name it; Price := Price it |} in
  items (after os r wd) = items wd ++ [new]
  /\ http.body (reply os r wd) = json.Encode (json.of_Item new).
Proof.
  intros Hm Hp Hd Hlen. unfold reply, after.
  rewrite (handle_post_decoded os r wd it) by assumption.
  split; reflexivity.
Qed.

Lemma post_ignores_supplied_identifier_witness :
  let r := POST item_three_id in
  let it := {| ID := 99; Name := "Item Three"; Price := 300 |} in
  let new := {| ID := 3; Name := "Item Three"; Price := 300 |} in
  (http.Method r = "POST" /\ http.Path r = "/api/items"
   /\ json.Decode (http.Body r) Item_zero = (it, None)
   /\ len (items boot) < int.MaxInt)
  /\ items (after no_files r boot) = items boot ++ [new]
  /\ http.body (reply no_files r boot) = json.Encode (json.of_Item new).
Proof.
  assert (Hd : json.Decode (http.Body (POST item_three_id)) Item_zero
               = ({| ID := 99; Name := "Item Three"; Price := 300 |}, None))
    by (vm_compute; reflexivity).
  assert (Hl : len (items boot) < int.MaxInt) by (vm_compute; reflexivity).
  split; [repeat split; assumption|].
  exact (post_ignores_supplied_identifier no_files (POST item_three_id) boot _
           eq_refl eq_refl Hd Hl).
Defined.

(** *** Fields a body leaves out *)

Lemma field_of_key_fields key f :
  json.field_of_key key = Some f -> f = "id" \/ f = "name" \/ f = "price".
Proof.
  unfold json.field_of_key, json.fields. cbn [List.find].
  repeat match goal with
         | |- context [if ?b then _ else _] => destruct b
         end;
    intros [= <-]; auto.
Qed.

Lemma store_member_Name st m :
  json.field_of_key (fst m) <> Some "name" ->
  Name (fst (json.store_member st m)) = Name (fst st).
Proof.
  destruct st as [it saved], m as [key v]. cbn [fst]. intros Hk.
  unfold json.store_member.
  destruct (json.field_of_key key) as [f|] eqn:E; [|reflexivity].
  destruct (field_of_key_fields _ _ E) as [-> | [-> | ->]];
    [| congruence |]; cbn [String.eqb Ascii.eqb Bool.eqb];
    destruct (json.store_int _ v _); reflexivity.
Qed.

Lemma store_member_Price st m :
  json.field_of_key (fst m) <> Some "price" ->
  Price (fst (json.store_member st m)) = Price (fst st).
Proof.
  destruct st as [it saved], m as [key v]. cbn [fst]. intros Hk.
  unfold json.store_member.
  destruct (json.field_of_key key) as [f|] eqn:E; [|reflexivity].
  destruct (field_of_key_fields _ _ E) as [-> | [-> | ->]];
    [| | congruence]; cbn [String.eqb Ascii.eqb Bool.eqb].
  - destruct (json.store_int _ v _); reflexivity.
  - destruct (json.store_string _ v _); reflexivity.
Qed.

Lemma fold_store_member_Name members st :
  mentions "name" members = false ->
  Name (fst (fold_left json.store_member members st)) = Name (fst st).
Proof.
  revert st. induction members as [|m members IH]; intros st; [reflexivity|].
  cbn [mentions existsb fold_left]. intros H.
  apply orb_false_elim in H as [Hm H].
  rewrite IH by exact H. apply store_member_Name.
  apply bool_decide_eq_false in Hm. exact Hm.
Qed.

Lemma fold_store_member_Price members st :
  mentions "price" members = false ->
  Price (fst (fold_left json.store_member members st)) = Price (fst st).
Proof.
  revert st. induction members as [|m members IH]; intros st; [reflexivity|].
  cbn [mentions existsb fold_left]. intros H.
  apply orb_false_elim in H as [Hm H].
  rewrite IH by exact H. apply store_member_Price.
  apply bool_decide_eq_false in Hm. exact Hm.
Qed.

(** *** Bodies that do not fit *)

Lemma store_member_saved st m :
  snd (json.store_member st m) = None
  <-> snd st = None /\ fits_member m = true.
Proof.
  destruct st as [it saved], m as [key v]. cbn [fst snd].
  unfold json.store_member, fits_member. cbn [fst snd].
  destruct (json.field_of_key key) as [f|] eqn:E.
  2: { split; [auto | intros [H _]; exact H]. }
  destruct (field_of_key_fields _ _ E) as [-> | [-> | ->]];
    cbn [String.eqb Ascii.eqb Bool.eqb];
    unfold json.store_int, json.store_string, fits_int, fits_string;
    destruct v; try destruct (json.ParseInt lit);
    destruct saved; cbn [snd from_option json.saveError];
    split; try (intros [H1 H2]); try discriminate; auto.
Qed.

Lemma fold_store_member_saved members st :
  snd (fold_left json.store_member members st) = None
  <-> snd st = None /\ forallb fits_member members = true.
Proof.
  revert st. induction members as [|m members IH]; intros st.
  - cbn [fold_left forallb]. tauto.
  - cbn [fold_left forallb]. rewrite IH, store_member_saved, andb_true_iff.
    tauto.
Qed.

(** [Unmarshal] returns an error for the values that do not fit, and for
    no other. *)
Lemma Unmarshal_fits v it :
  snd (json.Unmarshal v it) = None <-> fits v = true.
Proof.
  destruct v; cbn [json.Unmarshal fits snd];
    try (split; [discriminate | discriminate]); try tauto.
  rewrite fold_store_member_saved. cbn [snd]. tauto.
Qed.




(** ** [GET /api/items] *)

Lemma handle_get_After os r wd :
  http.Method r = "GET" -> http.Path r = "/api/items" ->
  select (2 * time.Second) (http.Done r) (http.tie r) = case_After ->
  handle os r wd =
  ({| items := items wd;
      log := log wd ++ [Printf_Request "GET" "/api/items"] |},
   json_reply http.StatusOK (json.Encode (json.of_Items (items wd)))).
Proof.
  intros Hm Hp Hs.
  rewrite handle_get, (GetItemsHandler_After _ _ Hs) by assumption.
  reflexivity.
Qed.

Lemma handle_get_Done os r wd :
  http.Method r = "GET" -> http.Path r = "/api/items" ->
  select (2 * time.Second) (http.Done r) (http.tie r) = case_Done ->
  handle os r wd =
  ({| items := items wd;
      log := (log wd ++ [Println "Request was cancelled by the client"])
               ++ [Printf_Request "GET" "/api/items"] |},
   error_reply http.StatusRequestTimeout "Request cancelled").
Proof.
  intros Hm Hp Hs.
  rewrite handle_get, (GetItemsHandler_Done _ _ Hs) by assumption.
  reflexivity.
Qed.

(** The two replies differ, in their status already. *)
Lemma json_reply_not_error_reply code data code' msg :
  code <> code' -> json_reply code data <> error_reply code' msg.
Proof.
  intros Hc H. apply (f_equal http.status) in H. cbn in H. congruence.
Qed.

(** C3. When the timer of two seconds fires before the context of the
    request is cancelled, a [GET] of [/api/items] is answered with status
    200 and content type [application/json]; the body is the encoding of
    the array of the items, and read as JSON it is an array that holds,
    in the order of [items], one object for each item, with the fields of
    that item. *)
Theorem get_lists_items os r wd :
  http.Method r = "GET" -> http.Path r = "/api/items" ->
  timer_first r ->
  http.Code (reply os r wd) = http.StatusOK
  /\ http.sent (reply os r wd) !! "Content-Type" = Some "application/json"
  /\ http.body (reply os r wd)
     = json.Encode (json.JArray (map json.of_Item (items wd)))
  /\ json.readValue (http.body (reply os r wd))
     = inr (json.JArray (map reread (items wd)))
  /\ items (after os r wd) = items wd.
Proof.
  intros Hm Hp Ht. unfold reply, after.
  rewrite handle_get_After by auto using select_timer_first.
  repeat split. cbn [snd json_reply http.body].
  apply readValue_Encode_of_Items.
Qed.

Lemma get_lists_items_witness :
  let r := GET "/api/items" (Some (3 * time.Second)) in
  (http.Method r = "GET" /\ http.Path r = "/api/items" /\ timer_first r)
  /\ http.Code (reply no_files r boot) = 200
  /\ http.body (reply no_files r boot)
     = json.Encode (json.JArray (map json.of_Item (items boot))).
Proof.
  assert (Ht : timer_first (GET "/api/items" (Some (3 * time.Second))))
    by (vm_compute; reflexivity).
  split; [repeat split; exact Ht|].
  destruct (get_lists_items no_files
              (GET "/api/items" (Some (3 * time.Second))) boot
              eq_refl eq_refl Ht) as (H1 & _ & H3 & _).
  split; assumption.
Defined.

(** C4. When the context of the request is cancelled before the timer of
    two seconds fires, a [GET] of [/api/items] is answered with status 408
    and, as plain text, the line [Request cancelled]; the cancellation is
    logged and [items] is left as it was. *)
Theorem get_cancelled_is_timeout os r wd :
  http.Method r = "GET" -> http.Path r = "/api/items" ->
  cancelled_first r ->
  http.Code (reply os r wd) = http.StatusRequestTimeout
  /\ http.body (reply os r wd) = "Request cancelled" +:+ http.newline
  /\ http.sent (reply os r wd) !! "Content-Type"
     = Some "text/plain; charset=utf-8"
  /\ log (after os r wd)
     = log wd ++ [Println "Request was cancelled by the client";
                  Printf_Request "GET" "/api/items"]
  /\ items (after os r wd) = items wd.
Proof.
  intros Hm Hp Ht. unfold reply, after.
  rewrite handle_get_Done by auto using select_cancelled_first.
  cbn [fst snd log items]. rewrite <- app_assoc. repeat split.
Qed.

Lemma get_cancelled_is_timeout_witness :
  let r := GET "/api/items" (Some (500000000)) in
  (http.Method r = "GET" /\ http.Path r = "/api/items" /\ cancelled_first r)
  /\ http.Code (reply no_files r boot) = 408
  /\ items (after no_files r boot) = items boot.
Proof.
  assert (Ht : cancelled_first (GET "/api/items" (Some (500000000))))
    by (vm_compute; reflexivity).
  split; [repeat split; exact Ht|].
  destruct (get_cancelled_is_timeout no_files
              (GET "/api/items" (Some (500000000))) boot
              eq_refl eq_refl Ht) as (H1 & _ & _ & _ & H5).
  split; assumption.
Defined.

(** C5. A [GET] of [/api/items] has exactly one of two outcomes: the reply
    with status 200 that carries the whole of [items], or the reply with
    status 408.  Which one is decided by the [select] alone, the two never
    coincide, and there is no third. *)
Theorem get_has_one_outcome os r wd :
  http.Method r = "GET" -> http.Path r = "/api/items" ->
  let listed :=
    json_reply http.StatusOK (json.Encode (json.of_Items (items wd))) in
  let timeout := error_reply http.StatusRequestTimeout "Request cancelled" in
  (reply os r wd = listed /\ reply os r wd <> timeout
   /\ select (2 * time.Second) (http.Done r) (http.tie r) = case_After)
  \/ (reply os r wd = timeout /\ reply os r wd <> listed
      /\ select (2 * time.Second) (http.Done r) (http.tie r) = case_Done).
Proof.
  intros Hm Hp listed timeout. unfold reply.
  destruct (select (2 * time.Second) (http.Done r) (http.tie r)) eqn:Hs.
  - left. rewrite handle_get_After by assumption. cbn [snd].
    repeat split. apply json_reply_not_error_reply. discriminate.
  - right. rewrite handle_get_Done by assumption. cbn [snd].
    repeat split. intros H. symmetry in H. revert H.
    apply json_reply_not_error_reply. discriminate.
Qed.

Lemma get_has_one_outcome_witness :
  let r := GET "/api/items" None in
  (http.Method r = "GET" /\ http.Path r = "/api/items")
  /\ reply no_files r boot
     = json_reply http.StatusOK (json.Encode (json.of_Items (items boot))).
Proof.
  split; [split; reflexivity|].
  destruct (get_has_one_outcome no_files (GET "/api/items" None) boot
              eq_refl eq_refl) as [(H & _) | (_ & _ & H)].
  - exact H.
  - discriminate H.
Defined.

(** ** What any request does to the process *)

Lemma Match_main_r os r :
  let m := mux.Match (mux.routes (main_r os)) false r in
  m = mux.Matched (static_handler os)
  \/ (m = mux.Matched GetItemsHandler /\ http.Method r = "GET")
  \/ (m = mux.Matched AddItemHandler /\ http.Method r = "POST")
  \/ m = mux.ErrMethodMismatch \/ m = mux.ErrNotFound.
Proof.
  cbn [main_r mux.routes mux.Match mux.route_path mux.route_methods
       mux.route_handler mux.match_path mux.match_method existsb].
  destruct (strings.HasPrefix (http.Path r) "/static/"); [auto|].
  destruct (String.eqb_spec (http.Path r) "/api/items"); [|auto].
  rewrite !orb_false_r.
  destruct (String.eqb_spec (http.Method r) "GET"); [auto|].
  destruct (String.eqb_spec (http.Method r) "POST"); auto.
Qed.

Lemma logs_requests_refl wd : logs_requests wd wd.
Proof. exists []. rewrite app_nil_r. auto. Qed.

Lemma logs_requests_same wd wd' : log wd' = log wd -> logs_requests wd wd'.
Proof. intros H. exists []. rewrite app_nil_r. auto. Qed.

Lemma reads_on_w (f : http.Request -> http.ResponseWriter -> http.ResponseWriter) :
  reads (fun r => on_w (f r)).
Proof. intros r wd. reflexivity. Qed.

Lemma tame_on_w (f : http.Request -> http.ResponseWriter -> http.ResponseWriter) :
  tame (fun r => on_w (f r)).
Proof.
  intros r wd. split; [left; reflexivity | apply logs_requests_refl].
Qed.

Lemma reads_GetItemsHandler : reads GetItemsHandler.
Proof.
  intros r wd.
  destruct (select (2 * time.Second) (http.Done r) (http.tie r)) eqn:Hs.
  - rewrite (GetItemsHandler_After _ _ Hs). reflexivity.
  - rewrite (GetItemsHandler_Done _ _ Hs). reflexivity.
Qed.

Lemma tame_GetItemsHandler : tame GetItemsHandler.
Proof.
  intros r wd. split; [left; apply reads_GetItemsHandler|].
  destruct (select (2 * time.Second) (http.Done r) (http.tie r)) eqn:Hs.
  - rewrite (GetItemsHandler_After _ _ Hs). apply logs_requests_refl.
  - rewrite (GetItemsHandler_Done _ _ Hs).
    eexists. split; [reflexivity|]. constructor; [left; reflexivity|constructor].
Qed.

Lemma tame_AddItemHandler : tame AddItemHandler.
Proof.
  intros r wd.
  destruct (json.Decode (http.Body r) Item_zero) as [it [e|]] eqn:Hd.
  - rewrite (AddItemHandler_rejected _ _ _ _ Hd).
    split; [left; reflexivity | apply logs_requests_refl].
  - rewrite (AddItemHandler_created _ _ _ Hd). cbn [fst].
    split; [right; eexists; reflexivity | apply logs_requests_same; reflexivity].
Qed.

Lemma reads_loggingMiddleware h : reads h -> reads (loggingMiddleware h).
Proof. intros H r wd. rewrite serve_logging. cbn [fst logged items]. apply H. Qed.

Lemma tame_loggingMiddleware h : tame h -> tame (loggingMiddleware h).
Proof.
  intros H r wd. rewrite serve_logging. cbn [fst].
  destruct (H r wd) as [Hg (lines & Hl & Hf)]. split.
  - exact Hg.
  - exists (lines ++ [Printf_Request (http.Method r) (http.Path r)]).
    cbn [logged log]. rewrite Hl, app_assoc. split; [reflexivity|].
    apply Forall_app. split; [exact Hf|].
    constructor; [right; eauto | constructor].
Qed.

Lemma serve_ServeHTTP os r wd :
  fst (serve (mux.ServeHTTP (main_r os)) r wd) = wd
  \/ exists h, (h = static_handler os
                \/ h = GetItemsHandler /\ http.Method r = "GET"
                \/ h = AddItemHandler /\ http.Method r = "POST")
               /\ serve (mux.ServeHTTP (main_r os)) r wd
                  = serve (loggingMiddleware h) r wd.
Proof.
  unfold serve, mux.ServeHTTP.
  destruct (negb _); [left; reflexivity|].
  destruct (Match_main_r os r) as [H | [[H Hm] | [[H Hm] | [H | H]]]];
    rewrite H; try (left; reflexivity);
    right; eexists; (split; [|reflexivity]); auto.
Qed.

Lemma reads_static_handler os : reads (static_handler os).
Proof. intros r wd. reflexivity. Qed.

Lemma tame_static_handler os : tame (static_handler os).
Proof.
  intros r wd. split; [left; reflexivity | apply logs_requests_refl].
Qed.

Lemma tame_srv os : tame (Handler (main_srv os)).
Proof.
  intros r wd. cbn [Handler main_srv].
  destruct (serve_ServeHTTP os r wd) as [H | (h & Hh & H)]; rewrite H.
  - split; [left; reflexivity | apply logs_requests_refl].
  - apply tame_loggingMiddleware.
    destruct Hh as [-> | [[-> _] | [-> _]]];
      auto using tame_static_handler, tame_GetItemsHandler,
                 tame_AddItemHandler.
Qed.

(** Only a [POST] changes [items]. *)
Lemma srv_reads os r wd :
  http.Method r <> "POST" ->
  items (fst (serve (Handler (main_srv os)) r wd)) = items wd.
Proof.
  intros Hm. cbn [Handler main_srv].
  destruct (serve_ServeHTTP os r wd) as [H | (h & Hh & H)]; rewrite H.
  - reflexivity.
  - apply reads_loggingMiddleware.
    destruct Hh as [-> | [[-> _] | [-> Hp]]];
      auto using reads_static_handler, reads_GetItemsHandler.
    contradiction.
Qed.

Lemma handle_all_app os rs1 rs2 wd :
  handle_all os (rs1 ++ rs2) wd = handle_all os rs2 (handle_all os rs1 wd).
Proof. unfold handle_all. apply fold_left_app. Qed.

Lemma handle_all_grows os rs wd :
  exists added,
    items (handle_all os rs wd) = items wd ++ added
    /\ (length added <= length rs)%nat.
Proof.
  revert wd. induction rs as [|r rs IH]; intros wd.
  - exists []. rewrite app_nil_r. split; [reflexivity | cbn; lia].
  - change (handle_all os (r :: rs) wd)
      with (handle_all os rs (fst (handle os r wd))).
    destruct (IH (fst (handle os r wd))) as (added & Ha & Hn).
    destruct (tame_srv os r wd) as [Hg _].
    change (serve (Handler (main_srv os)) r wd) with (handle os r wd) in Hg.
    rewrite Ha. destruct Hg as [Hg | [it Hg]]; rewrite Hg.
    + exists added. split; [reflexivity | cbn; lia].
    + exists (it :: added). rewrite <- app_assoc.
      split; [reflexivity | cbn; lia].
Qed.

(** ** The store only grows *)

(** C6. A request leaves [items] as it is, which is what every request
    other than a [POST] does, or appends one item to its end.  So after any
    sequence of requests [items] still starts with the items it held
    before, in the same positions and unchanged. *)
Theorem items_only_grow os :
  (forall r wd, grows wd (after os r wd))
  /\ (forall r wd, http.Method r <> "POST" -> items (after os r wd) = items wd)
  /\ (forall rs wd,
        exists added,
          items (handle_all os rs wd) = items wd ++ added
          /\ (length added <= length rs)%nat)
  /\ (forall rs wd (i : nat) it,
        items wd !! i = Some it -> items (handle_all os rs wd) !! i = Some it).
Proof.
  split; [|split; [|split]].
  - intros r wd. apply tame_srv.
  - intros r wd. apply srv_reads.
  - intros rs wd. apply handle_all_grows.
  - intros rs wd i it Hi.
    destruct (handle_all_grows os rs wd) as (added & -> & _).
    apply lookup_app_l_Some. exact Hi.
Qed.

Lemma items_only_grow_witness :
  let rs := [POST item_three; GET "/api/items" None; POST "{}"] in
  let one := {| ID := 1; Name := "Item One"; Price := 100 |} in
  items boot !! 0%nat = Some one
  /\ items (handle_all no_files rs boot) !! 0%nat = Some one
  /\ items (after no_files (GET "/api/items" None) boot) = items boot.
Proof.
  destruct (items_only_grow no_files) as (_ & Hread & _ & Hkeep).
  split; [reflexivity|]. split.
  - apply Hkeep. reflexivity.
  - apply Hread. discriminate.
Defined.

(** ** The life cycle *)

Lemma never_shut_start : never_shut start.
Proof. repeat split; [left; reflexivity | constructor]. Qed.

Lemma start_line_logged e wd :
  start_line e -> Forall start_line (log wd) ->
  Forall start_line (log (logged e wd)).
Proof.
  intros He Hl. cbn [logged log]. apply Forall_app. split; [exact Hl|].
  constructor; [exact He | constructor].
Qed.

Lemma start_line_handle os r wd :
  Forall start_line (log wd) -> Forall start_line (log (fst (handle os r wd))).
Proof.
  intros Hl. destruct (tame_srv os r wd) as [_ (lines & Hlog & Hf)].
  change (serve (Handler (main_srv os)) r wd) with (handle os r wd) in Hlog.
  rewrite Hlog. apply Forall_app. split; [exact Hl|].
  eapply Forall_impl; [exact Hf|]. intros e He. right. right. exact He.
Qed.

Lemma wants_idle sig q : idle q -> wants sig q = false.
Proof. destruct q as [c|]; [|reflexivity]. intros [_ Hr]. cbn. rewrite Hr. reflexivity. Qed.

Lemma step_never_shut os p e : never_shut p -> never_shut (step os p e).
Proof.
  intros Hp. pose proof Hp as (Hpc & Hq & Hlog). unfold step.
  destruct (exited p); [exact Hp|].
  destruct e as [| |err|sig|r|err].
  - (* run_main *)
    destruct Hpc as [Hpc | Hpc]; rewrite Hpc.
    + repeat split; [right; reflexivity | assumption].
    + destruct (quit p) as [[b n l]|] eqn:Hquit; [|exact Hp].
      destruct Hq as [Hb Hr]. cbn in Hb. subst b. exact Hp.
  - (* run_srv *)
    destruct (pc_main p) eqn:Em, (pc_srv p) eqn:Es; try exact Hp;
      (split; [cbn [pc_main]; exact Hpc|]);
      (split; [exact Hq|]);
      cbn [world]; apply start_line_logged; auto; left; reflexivity.
  - (* Listen_error *)
    destruct (pc_main p) eqn:Em, (pc_srv p) eqn:Es; try exact Hp;
      (split; [cbn [pc_main]; exact Hpc|]);
      (split; [exact Hq|]);
      cbn [world]; apply start_line_logged; auto; right; left; eauto.
  - (* arrives *)
    rewrite (wants_idle sig _ Hq).
    destruct (pc_main p), (pc_srv p);
      (split; [exact Hpc|]); (split; [exact Hq | exact Hlog]).
  - (* request *)
    destruct (pc_main p) eqn:Em, (pc_srv p) eqn:Es; try exact Hp.
    split; [cbn [pc_main]; exact Hpc|]. split; [exact Hq|].
    cbn [world]. apply start_line_handle. exact Hlog.
  - (* Shutdown_returns *)
    destruct Hpc as [Hpc | Hpc]; rewrite Hpc; destruct err; exact Hp.
Qed.

Lemma run_never_shut os es p : never_shut p -> never_shut (run os p es).
Proof.
  revert p. induction es as [|e es IH]; intros p Hp; [exact Hp|].
  cbn [run fold_left]. apply IH, step_never_shut, Hp.
Qed.

Lemma start_line_not_shutdown e :
  start_line e ->
  e <> Println "Shutting down the server..."
  /\ e <> Println "Server exited gracefully".
Proof.
  intros [-> | [[err ->] | [-> | (m & q & ->)]]]; split; discriminate.
Qed.

(** C8. Whatever happens to the process, signals included, [main] never
    gets past the receive from [quit]: nothing is ever relayed to that
    channel and nothing is ever sent on it, so the process is never in the
    state [ShuttingDown] and neither line of the shutdown sequence is ever
    logged.  A signal that arrives ends the process at once. *)
Theorem shutdown_is_unreachable os es :
  let p := run os start es in
  phase p <> ShuttingDown
  /\ pc_main p <> main_Shutdown
  /\ pc_main p <> main_return
  /\ idle (quit p)
  /\ ~ In (Println "Shutting down the server...") (log (world p))
  /\ ~ In (Println "Server exited gracefully") (log (world p))
  /\ forall sig,
       exited p = None ->
       exited (step os p (arrives sig)) = Some (unhandled sig).
Proof.
  intros p.
  destruct (run_never_shut os es start never_shut_start)
    as (Hpc & Hq & Hlog).
  fold p in Hpc, Hq, Hlog.
  assert (Hno : forall e, In e (log (world p)) -> start_line e)
    by (apply List.Forall_forall; exact Hlog).
  repeat split.
  - unfold phase. destruct (exited p); [discriminate|].
    destruct Hpc as [-> | ->]; destruct (pc_srv p); discriminate.
  - destruct Hpc as [-> | ->]; discriminate.
  - destruct Hpc as [-> | ->]; discriminate.
  - exact Hq.
  - intros Hin. apply Hno, start_line_not_shutdown in Hin. tauto.
  - intros Hin. apply Hno, start_line_not_shutdown in Hin. tauto.
  - intros sig He. unfold step. rewrite He, (wants_idle sig _ Hq).
    destruct (pc_main p), (pc_srv p); reflexivity.
Qed.

Lemma shutdown_is_unreachable_witness :
  let p := run no_files start [run_main; run_srv] in
  exited p = None
  /\ phase p = Serving
  /\ exited (step no_files p (arrives SIGTERM)) = Some (killed SIGTERM)
  /\ phase (run no_files p [arrives SIGTERM; run_main]) <> ShuttingDown.
Proof.
  assert (He : exited (run no_files start [run_main; run_srv]) = None)
    by reflexivity.
  split; [exact He|]. split; [reflexivity|]. split.
  - exact (proj2 (proj2 (proj2 (proj2 (proj2 (proj2
             (shutdown_is_unreachable no_files [run_main; run_srv]))))))
             SIGTERM He).
  - exact (proj1 (shutdown_is_unreachable no_files
                    [run_main; run_srv; arrives SIGTERM; run_main])).
Defined.

(** ** [GET /static/...] *)

Lemma HasPrefix_app p s : strings.HasPrefix (p +:+ s) p = true.
Proof.
  induction p as [|c p IH]; [destruct s; reflexivity|].
  simpl. rewrite Ascii.eqb_refl. exact IH.
Qed.

Lemma TrimPrefix_app p s : strings.TrimPrefix (p +:+ s) p = s.
Proof.
  induction p as [|c p IH]; [destruct s; reflexivity|].
  simpl. rewrite Ascii.eqb_refl, HasPrefix_app. exact IH.
Qed.

Lemma length_app_string p s :
  String.length (p +:+ s) = (String.length p + String.length s)%nat.
Proof.
  induction p as [|c p IH]; [reflexivity|].
  simpl. rewrite IH. reflexivity.
Qed.

Lemma HasPrefix_inv s p :
  strings.HasPrefix s p = true -> s = p +:+ strings.TrimPrefix s p.
Proof.
  revert s. induction p as [|a p IH]; intros s H.
  - destruct s; reflexivity.
  - destruct s as [|b s]; [discriminate|]. cbn [strings.HasPrefix] in H.
    cbn [strings.TrimPrefix]. rewrite H.
    apply andb_true_iff in H as [Hab Hs]. apply Ascii.eqb_eq in Hab.
    subst b. rewrite append_String, <- (IH _ Hs). reflexivity.
Qed.

Lemma StripPrefix_static h r rest w :
  http.Path r = "/static/" +:+ rest -> encoded_alike r = true ->
  http.StripPrefix "/static/" h r w = h (stripped r rest) w.
Proof.
  intros Hp He. unfold http.StripPrefix. cbv beta iota. cbv zeta.
  rewrite Hp, TrimPrefix_app, length_app_string.
  replace (String.length rest <? _)%nat with true
    by (symmetry; apply Nat.ltb_lt; cbn; lia).
  unfold stripped. cbn [andb].
  unfold encoded_alike in He. apply orb_true_iff in He as [He | He].
  - rewrite He. reflexivity.
  - rewrite (HasPrefix_inv _ _ He) at 3.
    rewrite length_app_string.
    replace (_ <? _)%nat with true
      by (symmetry; apply Nat.ltb_lt; cbn; lia).
    rewrite orb_true_r. reflexivity.
Qed.

Lemma handle_static os r wd rest :
  http.Path r = "/static/" +:+ rest ->
  mux.cleanPath (http.Path r) = http.Path r ->
  encoded_alike r = true ->
  handle os r wd =
  (logged (Printf_Request (http.Method r) (http.Path r)) wd,
   http.FileServer os "./static" (stripped r rest) http.NewRecorder).
Proof.
  intros Hp Hc He. unfold handle. cbn [Handler main_srv]. unfold serve at 1.
  rewrite (ServeHTTP_matched _ _ (static_handler os)).
  - cbn [main_r mux.middlewares mux.chain fold_right].
    fold (serve (loggingMiddleware (static_handler os)) r wd).
    rewrite serve_logging. unfold serve, static_handler, on_w.
    cbn [fst snd]. rewrite (StripPrefix_static _ r rest _ Hp He).
    reflexivity.
  - exact Hc.
  - cbn [main_r mux.routes mux.Match mux.route_path mux.match_path
         mux.route_methods mux.match_method mux.route_handler].
    rewrite Hp, HasPrefix_app. reflexivity.
Qed.

Lemma FileServer_serveFile os r rest w :
  http.FileServer os "./static" (stripped r rest) w =
  http.serveFile os (http.with_Path (stripped r rest) (static_url rest))
    "./static" (path.Clean (static_url rest)) true w.
Proof.
  unfold http.FileServer, static_url, stripped.
  cbn [http.Path http.with_Path http.with_RawPath].
  destruct (strings.HasPrefix rest "/"); reflexivity.
Qed.

Lemma unconditional_Get r k :
  unconditional r = true ->
  In k ["If-Match"; "If-Unmodified-Since"; "If-None-Match";
        "If-Modified-Since"; "If-Range"; "Range"] ->
  http.Get r k = EmptyString.
Proof.
  unfold unconditional. intros H Hk.
  apply (proj1 (List.forallb_forall _ _) H) in Hk.
  apply String.eqb_eq in Hk. exact Hk.
Qed.

(** A request that states no precondition and asks for no range passes
    the preconditions, with no range to honour. *)
Lemma checkPreconditions_unconditional os w r t :
  unconditional r = true ->
  http.checkPreconditions os w r t = inr EmptyString.
Proof.
  intros H.
  unfold http.checkPreconditions, http.checkIfMatch,
    http.checkIfUnmodifiedSince, http.checkIfNoneMatch,
    http.checkIfModifiedSince.
  rewrite !(unconditional_Get r _ H) by (cbn; tauto).
  destruct (negb (http.GET_or_HEAD r)); reflexivity.
Qed.

(** Such a request is sent the whole content. *)
Lemma serveContent_unconditional os r name t data w :
  unconditional r = true ->
  http.serveContent os r name t data w
  = let w := http.setLastModified os t w in
    http.sendContent r http.StatusOK data
      match http.Header w !! "Content-Type" with
      | Some _ => w
      | None => http.Header_Set "Content-Type" (content_type os name data) w
      end.
Proof.
  intros H. unfold http.serveContent, content_type. cbv zeta.
  rewrite (checkPreconditions_unconditional _ _ _ _ H).
  cbn [http.parseRange].
  destruct (_ <? _); destruct (http.Header _ !! "Content-Type");
    reflexivity.
Qed.

(** A regular file that is asked for under its own name, without a final
    slash, is sent as it is. *)
Lemma serveFile_file os r url name t data :
  http.Method r = "GET" ->
  unconditional r = true ->
  strings.HasSuffix url "/index.html" = false ->
  http.ends_in_slash url = false ->
  http.Open os (http.Dir_path "./static" name) = http.IsFile t data ->
  let w := http.serveFile os (http.with_Path r url) "./static" name true
             http.NewRecorder in
  http.Code w = http.StatusOK
  /\ http.body w = data
  /\ http.sent w !! "Content-Type"
     = Some (content_type os (path.Base (http.Dir_path "./static" name)) data)
  /\ http.sent w !! "Content-Length"
     = Some (json.Itoa (Z.of_nat (String.length data))).
Proof.
  intros Hm Hu Hs He Ho w. subst w. unfold http.serveFile.
  cbn [http.Path http.with_Path]. rewrite Hs, Ho, He. cbn [andb].
  rewrite (serveContent_unconditional os (http.with_Path r url) _ t data _ Hu).
  unfold http.sendContent, http.setLastModified.
  cbn [http.Method http.with_Path]. rewrite Hm.
  change (String.eqb "GET" "HEAD") with false. cbv zeta iota.
  destruct (http.isZeroTime t); repeat split.
Qed.

Lemma serveFile_absent os r url name :
  strings.HasSuffix url "/index.html" = false ->
  http.Open os (http.Dir_path "./static" name) = http.ErrNotExist ->
  http.serveFile os (http.with_Path r url) "./static" name true
    http.NewRecorder
  = error_reply http.StatusNotFound "404 page not found".
Proof.
  intros Hs Ho. unfold http.serveFile.
  cbn [http.Path http.with_Path]. rewrite Hs, Ho.
  cbn [http.toHTTPError]. unfold http.serveError.
  destruct (http.keepheaders os); reflexivity.
Qed.

Lemma serveFile_index os r url name w :
  strings.HasSuffix url "/index.html" = true ->
  http.serveFile os (http.with_Path r url) "./static" name true w
  = http.localRedirect (http.with_Path r url) "./" w.
Proof.
  intros Hs. unfold http.serveFile.
  cbn [http.Path http.with_Path]. rewrite Hs. reflexivity.
Qed.

(** C9, as the code has it.  Take a [GET] of [/static/] followed by
    [rest], whose path is in the clean form the router insists on, whose
    encoded path, where it has one, starts with [/static/] too, and which
    states no precondition and asks for no range.  When the path ends in
    [/index.html] the reply is a redirect to [./], with the query of the
    request where it has one, whether that file exists or not.  When the
    path ends neither in [/index.html] nor in a slash, the reply comes
    from the file that [rest] names beneath [./static]: status 200, the
    bytes of the file and the content type of its extension (the sniffed
    one when the table has none) when it is a regular file, and 404 when
    nothing exists under that name.  [items] is left as it was. *)
Theorem static_serves_file_or_404 os r wd rest :
  http.Method r = "GET" ->
  http.Path r = "/static/" +:+ rest ->
  mux.cleanPath (http.Path r) = http.Path r ->
  encoded_alike r = true ->
  unconditional r = true ->
  (strings.HasSuffix (static_url rest) "/index.html" = true ->
   http.Code (reply os r wd) = http.StatusMovedPermanently
   /\ http.sent (reply os r wd) !! "Location" = Some ("./" +:+ http.query r)
   /\ http.body (reply os r wd) = EmptyString)
  /\ (strings.HasSuffix (static_url rest) "/index.html" = false ->
      http.ends_in_slash (static_url rest) = false ->
      match http.Open os (static_file rest) with
      | http.IsFile _ data =>
          http.Code (reply os r wd) = http.StatusOK
          /\ http.body (reply os r wd) = data
          /\ http.sent (reply os r wd) !! "Content-Type"
             = Some (content_type os (path.Base (static_file rest)) data)
      | http.ErrNotExist =>
          http.Code (reply os r wd) = http.StatusNotFound
          /\ http.body (reply os r wd)
             = "404 page not found" +:+ http.newline
      | _ => True
      end)
  /\ items (after os r wd) = items wd.
Proof.
  intros Hm Hp Hc He Hu. unfold reply, after.
  rewrite (handle_static os r wd rest Hp Hc He), FileServer_serveFile.
  cbn [fst snd]. split; [|split; [|reflexivity]].
  - intros Hs. rewrite (serveFile_index os _ _ _ _ Hs).
    unfold http.localRedirect, http.WriteHeader.
    cbn [http.status http.Header_Set http.NewRecorder http.Code http.sent
         http.body from_option id].
    repeat split.
  - intros Hs Hsl. unfold static_file.
    destruct (http.Open os _) as [| | |t l|t data] eqn:Ho; try exact I.
    + rewrite (serveFile_absent os _ _ _ Hs Ho). split; reflexivity.
    + destruct (serveFile_file os (stripped r rest) _ _ t data Hm Hu Hs Hsl Ho)
        as (H1 & H2 & H3 & _).
      repeat split; assumption.
Qed.

Lemma static_serves_file_or_404_witness :
  let r := GET "/static/app.js" None in
  (http.Method r = "GET"
   /\ http.Path r = "/static/" +:+ "app.js"
   /\ mux.cleanPath (http.Path r) = http.Path r
   /\ encoded_alike r = true
   /\ unconditional r = true
   /\ strings.HasSuffix (static_url "app.js") "/index.html" = false
   /\ http.ends_in_slash (static_url "app.js") = false)
  /\ http.Open site (static_file "app.js")
     = http.IsFile (1136214245 * time.Second) "let x = 1;"
  /\ http.Code (reply site r boot) = 200
  /\ http.body (reply site r boot) = "let x = 1;"
  /\ http.sent (reply site r boot) !! "Content-Type"
     = Some "text/javascript; charset=utf-8".
Proof.
  split; [repeat split; vm_compute; reflexivity|].
  split; [vm_compute; reflexivity|].
  pose proof (static_serves_file_or_404 site (GET "/static/app.js" None) boot
                "app.js" eq_refl eq_refl eq_refl eq_refl eq_refl)
    as (_ & H & _).
  exact (H eq_refl eq_refl).
Defined.

(** The claim as the specification words it fails in four ways.  For
    [index.html]: the file is there, and the reply is a redirect to the
    directory.  For a request with a precondition that does not hold:
    the file is there, and the reply is 304 without a body.  For a request
    for a range: the reply is 206 with the bytes of the range.  For a
    request whose encoded path does not start with [/static/] (the slash
    behind [static] written [%2F]): the file is there, and the reply is
    404. *)
Lemma static_file_is_not_always_served :
  let r1 := GET "/static/index.html" None in
  let r2 := with_Field (GET "/static/app.js" None) "If-None-Match" "*" in
  let r3 := with_Field (GET "/static/app.js" None) "Range" "bytes=4-4" in
  let r4 := http.with_RawPath (GET "/static/app.js" None)
              "/static%2Fapp.js" in
  (http.Open site (static_file "index.html")
   = http.IsFile time.zeroTime "<h1>price</h1>"
   /\ http.Code (reply site r1 boot) = http.StatusMovedPermanently
   /\ http.sent (reply site r1 boot) !! "Location" = Some "./"
   /\ ~ serves_file_or_404 site r1 boot "index.html")
  /\ (http.Open site (static_file "app.js")
      = http.IsFile (1136214245 * time.Second) "let x = 1;"
      /\ http.Code (reply site r2 boot) = http.StatusNotModified
      /\ http.body (reply site r2 boot) = EmptyString
      /\ ~ serves_file_or_404 site r2 boot "app.js"
      /\ http.Code (reply site r3 boot) = http.StatusPartialContent
      /\ http.body (reply site r3 boot) = "x"
      /\ ~ serves_file_or_404 site r3 boot "app.js"
      /\ http.Code (reply site r4 boot) = http.StatusNotFound
      /\ ~ serves_file_or_404 site r4 boot "app.js").
Proof.
  cbv zeta.
  assert (Hi : http.Open site (static_file "index.html")
               = http.IsFile time.zeroTime "<h1>price</h1>")
    by (vm_compute; reflexivity).
  assert (Ha : http.Open site (static_file "app.js")
               = http.IsFile (1136214245 * time.Second) "let x = 1;")
    by (vm_compute; reflexivity).
  split.
  - split; [exact Hi|]. split; [vm_compute; reflexivity|].
    split; [vm_compute; reflexivity|].
    unfold serves_file_or_404. rewrite Hi. intros (H & _).
    vm_compute in H. discriminate H.
  - split; [exact Ha|].
    repeat split; try (vm_compute; reflexivity);
      unfold serves_file_or_404; rewrite Ha; intros (H & _);
      vm_compute in H; discriminate H.
Qed.

(** A path that names a directory, or a file whose extension the table
    does not know, is not answered the way the claim says either. *)
Lemma static_other_replies :
  http.body (reply site (GET "/static/" None) boot) = "<h1>price</h1>"
  /\ http.Code (reply site (GET "/static//app.js" None) boot)
     = http.StatusMovedPermanently
  /\ http.sent (reply site (GET "/static/LICENSE" None) boot) !! "Content-Type"
     = Some "text/plain; charset=utf-8"
  /\ http.sent (reply site (GET "/static/app.js" None) boot) !! "Last-Modified"
     = Some "Mon, 02 Jan 2006 15:04:05 GMT".
Proof. vm_compute. repeat split. Qed.

(** ** Worked examples *)

(** The scenario of the specification: a fresh server lists its two
    items; an item is posted and gets the identifier 3; the next listing
    holds three items. *)
Example scenario :
  let r1 := GET "/api/items" None in
  let r2 := POST item_three in
  let wd1 := after no_files r1 boot in
  let wd2 := after no_files r2 wd1 in
  http.Code (reply no_files r1 boot) = 200
  /\ map (fun it => (ID it, Name it, Price it)) (items wd1)
     = [(1, "Item One", 100); (2, "Item Two", 200)]
  /\ http.Code (reply no_files r2 wd1) = 201
  /\ json.Decode (http.body (reply no_files r2 wd1)) Item_zero
     = ({| ID := 3; Name := "Item Three"; Price := 300 |}, None)
  /\ json.readValue (http.body (reply no_files r1 wd2))
     = inr (json.JArray
              (map json.of_Item
                 (items boot
                  ++ [ {| ID := 3; Name := "Item Three"; Price := 300 |} ]))).
Proof. vm_compute. repeat split. Qed.

(** A value of the wrong JSON type for a field is an error of [Decode]
    too, and answered with 400; so is a body that is not an object. *)
Example post_wrong_type_is_rejected :
  let body := "{" +:+ quoted "price" +:+ ":" +:+ quoted "cheap" +:+ "}" in
  json.readValue body
  = inr (json.JObject [("price", json.JString "cheap")])
  /\ http.Code (reply no_files (POST body) boot) = 400
  /\ http.body (reply no_files (POST body) boot)
     = "json: cannot unmarshal string into Go struct field Item.price of type int"
         +:+ http.newline
  /\ http.Code (reply no_files (POST "[1,2]") boot) = 400
  /\ http.Code (reply no_files (POST "null") boot) = 201.
Proof. vm_compute. repeat split. Qed.

(** [ServeStaticFiles] is bound to no route.  It would not strip the
    prefix: asked for [/static/app.js] it looks for
    [static/static/app.js]. *)
Example ServeStaticFiles_keeps_prefix :
  http.Code (snd (serve (ServeStaticFiles site) (GET "/static/app.js" None)
                    boot)) = 404
  /\ http.body (snd (serve (ServeStaticFiles site) (GET "/app.js" None) boot))
     = "let x = 1;".
Proof. vm_compute. repeat split. Qed.

(** Requests the router answers itself: a method no route of the path
    accepts, a path no route matches, a path that is not clean. *)
Example router_replies :
  http.Code (reply no_files
               {| http.Method := "PUT"; http.Path := "/api/items";
                  http.RawPath := EmptyString; http.RawQuery := EmptyString;
                  http.Fields := ∅; http.Body := EmptyString; http.Done := None;
                  http.tie := case_After |} boot) = 405
  /\ http.Code (reply no_files (GET "/nope" None) boot) = 404
  /\ http.sent (reply no_files (GET "/api//items" None) boot) !! "Location"
     = Some "/api/items".
Proof. vm_compute. repeat split. Qed.

(** * Further properties *)

(** ** The replies of the router itself *)

Lemma handle_redirect os r wd :
  mux.cleanPath (http.Path r) <> http.Path r ->
  handle os r wd
  = (wd, redirect_reply (mux.EscapedPath (mux.cleanPath (http.Path r))
                         +:+ http.query r)).
Proof.
  intros Hc. unfold handle, serve. cbn [Handler main_srv].
  unfold mux.ServeHTTP.
  destruct (String.eqb_spec (mux.cleanPath (http.Path r)) (http.Path r));
    [contradiction|].
  reflexivity.
Qed.

Lemma handle_not_found os r wd :
  mux.cleanPath (http.Path r) = http.Path r ->
  strings.HasPrefix (http.Path r) "/static/" = false ->
  http.Path r <> "/api/items" ->
  handle os r wd = (wd, error_reply http.StatusNotFound "404 page not found").
Proof.
  intros Hc Hs Hp. unfold handle, serve. cbn [Handler main_srv].
  unfold mux.ServeHTTP. rewrite Hc, String.eqb_refl. cbn [negb].
  cbn [main_r mux.routes mux.Match mux.route_path mux.route_methods
       mux.route_handler mux.match_path mux.match_method mux.NotFoundHandler].
  rewrite Hs.
  destruct (String.eqb_spec (http.Path r) "/api/items"); [contradiction|].
  reflexivity.
Qed.

Lemma handle_not_allowed os r wd :
  http.Path r = "/api/items" ->
  http.Method r <> "GET" -> http.Method r <> "POST" ->
  handle os r wd = (wd, not_allowed_reply).
Proof.
  intros Hp Hg Hq. unfold handle, serve. cbn [Handler main_srv].
  unfold mux.ServeHTTP. rewrite Hp.
  change (mux.cleanPath "/api/items") with "/api/items".
  rewrite String.eqb_refl. cbn [negb].
  cbn [main_r mux.routes mux.Match mux.route_path mux.route_methods
       mux.route_handler mux.match_path mux.match_method existsb].
  rewrite Hp.
  change (strings.HasPrefix "/api/items" "/static/") with false.
  rewrite String.eqb_refl, !orb_false_r.
  destruct (String.eqb_spec (http.Method r) "GET"); [contradiction|].
  destruct (String.eqb_spec (http.Method r) "POST"); [contradiction|].
  reflexivity.
Qed.

Lemma handle_static_route os r wd :
  mux.cleanPath (http.Path r) = http.Path r ->
  strings.HasPrefix (http.Path r) "/static/" = true ->
  handle os r wd
  = (logged (Printf_Request (http.Method r) (http.Path r)) wd,
     http.StripPrefix "/static/" (http.FileServer os "./static") r
       http.NewRecorder).
Proof.
  intros Hc Hs. unfold handle. cbn [Handler main_srv]. unfold serve at 1.
  rewrite (ServeHTTP_matched _ _ (static_handler os)).
  - cbn [main_r mux.middlewares mux.chain fold_right].
    fold (serve (loggingMiddleware (static_handler os)) r wd).
    rewrite serve_logging. reflexivity.
  - exact Hc.
  - cbn [main_r mux.routes mux.Match mux.route_path mux.match_path
         mux.route_methods mux.match_method mux.route_handler].
    rewrite Hs. reflexivity.
Qed.

(** The statuses the file server answers with. *)
Lemma status_Header_Set k v w :
  http.status (http.Header_Set k v w) = http.status w.
Proof. reflexivity. Qed.

Lemma status_Header_Del k w :
  http.status (http.Header_Del k w) = http.status w.
Proof. reflexivity. Qed.

Lemma status_setLastModified os t w :
  http.status (http.setLastModified os t w) = http.status w.
Proof.
  unfold http.setLastModified. destruct (http.isZeroTime t); reflexivity.
Qed.

Lemma status_WriteHeader code w :
  http.status w = None -> http.status (http.WriteHeader code w) = Some code.
Proof. intros H. unfold http.WriteHeader. rewrite H. reflexivity. Qed.

Lemma status_Write data w code :
  http.status w = Some code -> http.status (http.Write data w) = Some code.
Proof. intros H. unfold http.Write, http.WriteHeader. rewrite H. exact H. Qed.

Lemma status_Write_fresh data w :
  http.status w = None ->
  http.status (http.Write data w) = Some http.StatusOK.
Proof.
  intros H. unfold http.Write. cbn [http.status].
  apply status_WriteHeader. exact H.
Qed.

Lemma status_Error msg code w :
  http.status w = None -> http.status (http.Error msg code w) = Some code.
Proof.
  intros H. unfold http.Error. apply status_Write, status_WriteHeader.
  exact H.
Qed.

Lemma status_serveError os text code w :
  http.status w = None ->
  http.status (http.serveError os text code w) = Some code.
Proof.
  intros H. unfold http.serveError. apply status_Error.
  destruct (http.keepheaders os); exact H.
Qed.

Lemma status_writeNotModified w :
  http.status w = None ->
  http.status (http.writeNotModified w) = Some http.StatusNotModified.
Proof.
  intros H. unfold http.writeNotModified. cbv zeta.
  apply status_WriteHeader. destruct (String.eqb _ _); exact H.
Qed.

Lemma status_localRedirect r newPath w :
  http.status w = None ->
  http.status (http.localRedirect r newPath w)
  = Some http.StatusMovedPermanently.
Proof. intros H. unfold http.localRedirect. apply status_WriteHeader, H. Qed.

Lemma status_dirList os t l w :
  http.status w = None ->
  http.status (http.dirList l (http.setLastModified os t w))
  = Some http.StatusOK.
Proof.
  intros H. unfold http.dirList. apply status_Write_fresh.
  rewrite status_Header_Set, status_setLastModified. exact H.
Qed.

Lemma status_sendContent r code content w :
  http.status w = None ->
  http.status (http.sendContent r code content w) = Some code.
Proof.
  intros H. unfold http.sendContent. cbv zeta.
  destruct (String.eqb (http.Header_Get _ _) _);
    destruct (String.eqb (http.Method r) "HEAD");
    first [apply status_WriteHeader | apply status_Write, status_WriteHeader];
    exact H.
Qed.

(** A request the preconditions settle is answered 304 or 412. *)
Lemma checkPreconditions_status os w r t :
  http.status w = None ->
  match http.checkPreconditions os w r t with
  | inl done =>
      http.status done = Some http.StatusNotModified
      \/ http.status done = Some http.StatusPreconditionFailed
  | inr _ => True
  end.
Proof.
  intros H. unfold http.checkPreconditions. cbv zeta.
  assert (H304 := status_writeNotModified w H).
  assert (H412 := status_WriteHeader http.StatusPreconditionFailed w H).
  destruct (http.checkIfMatch w r);
    destruct (http.checkIfUnmodifiedSince os r t); auto;
    destruct (http.checkIfNoneMatch w r);
    try destruct (http.GET_or_HEAD r); auto;
    destruct (http.checkIfModifiedSince os r t); auto;
    destruct (http.Get r "Range"); try exact I;
    destruct (http.checkIfRange os w r t); exact I.
Qed.

Ltac known := cbn [In]; repeat (first [left; reflexivity | right]).

Lemma serveContent_status os r name t data w :
  http.status w = None ->
  In (http.status (http.serveContent os r name t data w))
     [Some 200; Some 206; Some 304; Some 412; Some 416].
Proof.
  intros Hw. unfold http.serveContent. cbv zeta.
  pose proof (checkPreconditions_status os (http.setLastModified os t w) r t)
    as Hc.
  rewrite status_setLastModified in Hc. specialize (Hc Hw).
  destruct (http.checkPreconditions _ _ _ _) as [done | rangeReq].
  { destruct Hc as [-> | ->]; known. }
  assert (H1 : http.status (http.setLastModified os t w) = None)
    by (rewrite status_setLastModified; exact Hw).
  destruct (http.Header (http.setLastModified os t w) !! "Content-Type");
    (destruct (http.parseRange _ _) as [l| |];
     [ destruct (if _ <? _ then [] else l) as [|ra [|rb l']]
     | | destruct (_ =? 0) ]);
    first [rewrite status_sendContent by exact H1
          |rewrite status_serveError by exact H1];
    known.
Qed.

(** Whatever the files and the request, the file server answers with one
    of nine statuses. *)
Lemma serveFile_status os r dir name redirect :
  In (http.status (http.serveFile os r dir name redirect http.NewRecorder))
     [Some 200; Some 206; Some 301; Some 304; Some 403; Some 404; Some 412;
      Some 416; Some 500].
Proof.
  assert (Hn : http.status http.NewRecorder = None) by reflexivity.
  assert (Hs : forall name t data,
             In (http.status (http.serveContent os r name t data
                                http.NewRecorder))
                [Some 200; Some 206; Some 301; Some 304; Some 403; Some 404;
                 Some 412; Some 416; Some 500]).
  { intros n t d. pose proof (serveContent_status os r n t d _ Hn) as H.
    cbn [In] in H |- *. tauto. }
  assert (Hl : forall t l,
             In (http.status
                   match http.checkIfModifiedSince os r t with
                   | http.condFalse => http.writeNotModified http.NewRecorder
                   | _ => http.dirList l
                            (http.setLastModified os t http.NewRecorder)
                   end)
                [Some 200; Some 206; Some 301; Some 304; Some 403; Some 404;
                 Some 412; Some 416; Some 500]).
  { intros t l. destruct (http.checkIfModifiedSince os r t);
      first [rewrite status_dirList by exact Hn
            |rewrite status_writeNotModified by exact Hn]; known. }
  unfold http.serveFile.
  destruct (strings.HasSuffix (http.Path r) "/index.html");
    [rewrite status_localRedirect by exact Hn; known|].
  destruct (http.Open os (http.Dir_path dir name)) as [| | |t l|t data];
    cbn [http.toHTTPError].
  - rewrite status_serveError by exact Hn. known.
  - rewrite status_serveError by exact Hn. known.
  - rewrite status_serveError by exact Hn. known.
  - destruct (negb _); [rewrite status_localRedirect by exact Hn; known|].
    destruct (http.Open os _) as [| | |t' l'|t' data'];
      first [apply Hl | apply Hs].
  - destruct (redirect && _).
    + destruct (_ || _);
        first [rewrite status_serveError by exact Hn
              |rewrite status_localRedirect by exact Hn]; known.
    + apply Hs.
Qed.

Lemma static_status os r :
  In (http.status (http.StripPrefix "/static/" (http.FileServer os "./static")
                     r http.NewRecorder))
     [Some 200; Some 206; Some 301; Some 304; Some 403; Some 404; Some 412;
      Some 416; Some 500].
Proof.
  unfold http.StripPrefix. cbv beta iota. cbv zeta.
  destruct (_ && _); [apply serveFile_status|].
  known.
Qed.

(** ** An item is stored exactly when the reply says so *)

Lemma not_grown {A : Type} (l : list A) (x : A) : l <> l ++ [x].
Proof.
  intros H. apply (f_equal (@length A)) in H. rewrite length_app in H.
  cbn in H. lia.
Qed.

Lemma unchanged_not_created (wd wd' : World) (w : http.ResponseWriter) :
  http.Code w <> http.StatusCreated -> items wd' = items wd ->
  (http.Code w = http.StatusCreated
   <-> exists it, items wd' = items wd ++ [it])
  /\ (http.Code w <> http.StatusCreated -> items wd' = items wd).
Proof.
  intros Hc Hi. split; [|auto]. split; [contradiction|].
  intros [it H]. rewrite Hi in H. exfalso. exact (not_grown _ _ H).
Qed.

Lemma static_not_created os r :
  http.Code (http.StripPrefix "/static/" (http.FileServer os "./static")
               r http.NewRecorder) <> http.StatusCreated.
Proof.
  unfold http.Code. pose proof (static_status os r) as H. cbn [In] in H.
  repeat (destruct H as [H | H]; [rewrite <- H; discriminate|]).
  destruct H.
Qed.

(** X1. Whatever the request, the reply has status 201 exactly when [items]
    has gained an item at its end; with any other status [items] is as it
    was. *)
Theorem created_iff_stored os r wd :
  (http.Code (reply os r wd) = http.StatusCreated
   <-> exists it, items (after os r wd) = items wd ++ [it])
  /\ (http.Code (reply os r wd) <> http.StatusCreated ->
      items (after os r wd) = items wd).
Proof.
  unfold reply, after.
  destruct (String.eqb_spec (mux.cleanPath (http.Path r)) (http.Path r))
    as [Hc | Hc].
  2: { rewrite (handle_redirect os r wd Hc).
       apply unchanged_not_created; [discriminate | reflexivity]. }
  destruct (strings.HasPrefix (http.Path r) "/static/") eqn:Hs.
  { rewrite (handle_static_route os r wd Hc Hs). cbn [fst snd].
    apply unchanged_not_created; [apply static_not_created | reflexivity]. }
  destruct (String.eqb_spec (http.Path r) "/api/items") as [Hp | Hp].
  2: { rewrite (handle_not_found os r wd Hc Hs Hp).
       apply unchanged_not_created; [discriminate | reflexivity]. }
  destruct (String.eqb_spec (http.Method r) "GET") as [Hg | Hg].
  { rewrite (handle_get os r wd Hg Hp). cbn [fst snd].
    destruct (select (2 * time.Second) (http.Done r) (http.tie r)) eqn:E.
    - rewrite (GetItemsHandler_After _ _ E).
      apply unchanged_not_created; [discriminate | reflexivity].
    - rewrite (GetItemsHandler_Done _ _ E).
      apply unchanged_not_created; [discriminate | reflexivity]. }
  destruct (String.eqb_spec (http.Method r) "POST") as [Hq | Hq].
  2: { rewrite (handle_not_allowed os r wd Hp Hg Hq).
       apply unchanged_not_created; [discriminate | reflexivity]. }
  rewrite (handle_post os r wd Hq Hp). cbn [fst snd].
  destruct (json.Decode (http.Body r) Item_zero) as [it [e|]] eqn:Hd.
  - rewrite (AddItemHandler_rejected _ _ _ _ Hd).
    apply unchanged_not_created; [discriminate | reflexivity].
  - rewrite (AddItemHandler_created _ _ _ Hd). cbn [fst snd logged items].
    split; [split; [eauto | reflexivity] | intros H; contradiction H; reflexivity].
Qed.

Lemma created_iff_stored_witness :
  http.Code (reply no_files (GET "/nope" None) boot) <> http.StatusCreated
  /\ items (after no_files (GET "/nope" None) boot) = items boot.
Proof.
  assert (H : http.Code (reply no_files (GET "/nope" None) boot)
              <> http.StatusCreated) by (vm_compute; discriminate).
  split; [exact H|].
  exact (proj2 (created_iff_stored no_files (GET "/nope" None) boot) H).
Defined.

(** ** Requests no route takes *)





(** ** What is logged *)


(** ** Identifiers *)

(** What a request makes of the process. *)
Lemma after_cases os r wd :
  let line := Printf_Request (http.Method r) (http.Path r) in
  after os r wd = wd
  \/ after os r wd = logged line wd
  \/ after os r wd
     = logged line (logged (Println "Request was cancelled by the client") wd)
  \/ exists it,
       json.Decode (http.Body r) Item_zero = (it, None)
       /\ http.Method r = "POST" /\ http.Path r = "/api/items"
       /\ after os r wd
          = logged line
              {| items := items wd
                          ++ [with_ID it (int.add (len (items wd)) 1)];
                 log := log wd |}.
Proof.
  intros line. unfold after, line.
  destruct (String.eqb_spec (mux.cleanPath (http.Path r)) (http.Path r))
    as [Hc | Hc].
  2: { rewrite (handle_redirect os r wd Hc). auto. }
  destruct (strings.HasPrefix (http.Path r) "/static/") eqn:Hs.
  { rewrite (handle_static_route os r wd Hc Hs). auto. }
  destruct (String.eqb_spec (http.Path r) "/api/items") as [Hp | Hp].
  2: { rewrite (handle_not_found os r wd Hc Hs Hp). auto. }
  destruct (String.eqb_spec (http.Method r) "GET") as [Hg | Hg].
  { rewrite (handle_get os r wd Hg Hp), Hg, Hp. cbn [fst].
    destruct (select (2 * time.Second) (http.Done r) (http.tie r)) eqn:E.
    - rewrite (GetItemsHandler_After _ _ E). auto.
    - rewrite (GetItemsHandler_Done _ _ E). auto. }
  destruct (String.eqb_spec (http.Method r) "POST") as [Hq | Hq].
  2: { rewrite (handle_not_allowed os r wd Hp Hg Hq). auto. }
  rewrite (handle_post os r wd Hq Hp), Hq, Hp. cbn [fst].
  destruct (json.Decode (http.Body r) Item_zero) as [it [e|]] eqn:Hd.
  - rewrite (AddItemHandler_rejected _ _ _ _ Hd). auto.
  - rewrite (AddItemHandler_created _ _ _ Hd). do 3 right. exists it. auto.
Qed.

Lemma numbered_app from l it :
  numbered from (l ++ [it]) = numbered from l && (ID it =? from + len l).
Proof.
  revert from. induction l as [|x l IH]; intros from.
  - cbn. rewrite Z.add_0_r, andb_true_r. reflexivity.
  - cbn [app numbered]. rewrite IH, <- andb_assoc. f_equal. f_equal.
    f_equal. unfold len. cbn [length]. lia.
Qed.

Lemma numbered_lookup from l (i : nat) it :
  numbered from l = true -> l !! i = Some it -> ID it = from + Z.of_nat i.
Proof.
  revert from i. induction l as [|x l IH]; intros from i Hn Hi;
    [discriminate|].
  cbn [numbered] in Hn. apply andb_true_iff in Hn as [Hx Hn].
  destruct i as [|i].
  - injection Hi as <-. apply Z.eqb_eq in Hx. lia.
  - cbn in Hi. rewrite (IH _ _ Hn Hi). lia.
Qed.

Lemma numbered_NoDup from l : numbered from l = true -> NoDup (map ID l).
Proof.
  revert from. induction l as [|x l IH]; intros from Hn; [constructor|].
  cbn [numbered] in Hn. apply andb_true_iff in Hn as [Hx Hn].
  cbn [map]. constructor; [|exact (IH _ Hn)].
  intros Hin. change (map ID l) with (ID <$> l) in Hin.
  apply list_elem_of_fmap in Hin as (y & Hy & Hin).
  apply list_elem_of_lookup in Hin as [i Hi].
  pose proof (numbered_lookup _ _ _ _ Hn Hi) as Hid.
  apply Z.eqb_eq in Hx. lia.
Qed.

Lemma numbered_after os r wd :
  numbered 1 (items wd) = true -> len (items wd) < int.MaxInt ->
  numbered 1 (items (after os r wd)) = true
  /\ (length (items (after os r wd)) <= S (length (items wd)))%nat.
Proof.
  intros Hn Hl.
  destruct (after_cases os r wd) as [H | [H | [H | (it & _ & _ & _ & H)]]];
    rewrite H; cbn [logged items]; try (split; [exact Hn | lia]).
  rewrite numbered_app, Hn, add_len_1 by exact Hl. cbn [with_ID ID andb].
  split; [apply Z.eqb_eq; lia | rewrite length_app; cbn; lia].
Qed.

(** X5. Served one after the other, requests keep the identifiers in step
    with the positions: when the items are numbered 1, 2, 3, ... they
    still are after any sequence of requests, so no two items share an
    identifier.  (The bound keeps [len(items) + 1] from wrapping around.) *)
Theorem identifiers_stay_numbered os rs wd :
  numbered 1 (items wd) = true ->
  len (items wd) + Z.of_nat (length rs) <= int.MaxInt ->
  numbered 1 (items (handle_all os rs wd)) = true
  /\ NoDup (map ID (items (handle_all os rs wd)))
  /\ forall (i : nat) it,
       items (handle_all os rs wd) !! i = Some it -> ID it = Z.of_nat i + 1.
Proof.
  intros Hn Hl.
  assert (H : numbered 1 (items (handle_all os rs wd)) = true).
  { revert wd Hn Hl. induction rs as [|r rs IH]; intros wd Hn Hl;
      [exact Hn|].
    change (handle_all os (r :: rs) wd)
      with (handle_all os rs (after os r wd)).
    cbn [length] in Hl.
    destruct (numbered_after os r wd Hn) as [Hn' Hlen];
      [unfold len in *; lia|].
    apply IH; [exact Hn'|]. unfold len in *. lia. }
  split; [exact H|]. split; [exact (numbered_NoDup _ _ H)|].
  intros i it Hi. rewrite (numbered_lookup _ _ _ _ H Hi). lia.
Qed.

Lemma identifiers_stay_numbered_witness :
  let rs := [POST item_three; GET "/api/items" None; POST item_three_id] in
  (numbered 1 (items boot) = true
   /\ len (items boot) + Z.of_nat (length rs) <= int.MaxInt)
  /\ NoDup (map ID (items (handle_all no_files rs boot))).
Proof.
  assert (H1 : numbered 1 (items boot) = true) by reflexivity.
  assert (H2 : len (items boot) + 3 <= int.MaxInt)
    by (vm_compute; discriminate).
  split; [split; assumption|].
  exact (proj1 (proj2 (identifiers_stay_numbered no_files
           [POST item_three; GET "/api/items" None; POST item_three_id]
           boot H1 H2))).
Defined.

(** ** Bodies without a value *)

(** X6. A [POST] to [/api/items] whose body is empty, or holds white space
    only, is answered with status 400 and the line [EOF]; nothing is
    stored. *)
Theorem post_blank_is_EOF os r wd :
  http.Method r = "POST" -> http.Path r = "/api/items" ->
  json.skip_space (http.Body r) = EmptyString ->
  http.Code (reply os r wd) = http.StatusBadRequest
  /\ http.body (reply os r wd) = "EOF" +:+ http.newline
  /\ items (after os r wd) = items wd.
Proof.
  intros Hm Hp Hb.
  assert (Hd : json.Decode (http.Body r) Item_zero
               = (Item_zero, Some json.EOF))
    by (unfold json.Decode, json.readValue; rewrite Hb; reflexivity).
  unfold reply, after.
  rewrite (handle_post_undecodable os r wd _ _ Hm Hp Hd). repeat split.
Qed.

Lemma post_blank_is_EOF_witness :
  let r := POST "  " in
  (http.Method r = "POST" /\ http.Path r = "/api/items"
   /\ json.skip_space (http.Body r) = EmptyString)
  /\ http.Code (reply no_files r boot) = 400
  /\ http.body (reply no_files r boot) = "EOF" +:+ http.newline.
Proof.
  split; [repeat split|].
  destruct (post_blank_is_EOF no_files (POST "  ") boot
              eq_refl eq_refl eq_refl) as (H1 & H2 & _).
  split; assumption.
Defined.

(** ** A listing after a creation *)

(** X7. Once a [POST] has stored an item, the next listing ends with it: read
    as JSON, the body of the [GET] that follows is the array of the
    objects of the old items followed by the object of the new one, with
    the identifier it was given. *)
Theorem posted_item_is_listed os r1 r2 wd it :
  http.Method r1 = "POST" -> http.Path r1 = "/api/items" ->
  json.Decode (http.Body r1) Item_zero = (it, None) ->
  len (items wd) < int.MaxInt ->
  http.Method r2 = "GET" -> http.Path r2 = "/api/items" ->
  timer_first r2 ->
  let wd1 := after os r1 wd in
  http.Code (reply os r2 wd1) = http.StatusOK
  /\ json.readValue (http.body (reply os r2 wd1))
     = inr (json.JArray
              (map reread (items wd)
               ++ [reread {| ID := len (items wd) + 1; Name := Name it;
                             Price := Price it |}])).
Proof.
  intros Hm1 Hp1 Hd Hl Hm2 Hp2 Ht wd1. unfold wd1, reply, after.
  rewrite (handle_post_decoded os r1 wd it) by assumption. cbn [fst].
  rewrite handle_get_After by auto using select_timer_first.
  cbn [snd json_reply http.body http.Code http.status items].
  split; [reflexivity|].
  rewrite readValue_Encode_of_Items, map_app. reflexivity.
Qed.

Lemma posted_item_is_listed_witness :
  let r1 := POST item_three in
  let r2 := GET "/api/items" None in
  let it := {| ID := 0; Name := "Item Three"; Price := 300 |} in
  (http.Method r1 = "POST" /\ http.Path r1 = "/api/items"
   /\ json.Decode (http.Body r1) Item_zero = (it, None)
   /\ len (items boot) < int.MaxInt
   /\ http.Method r2 = "GET" /\ http.Path r2 = "/api/items"
   /\ timer_first r2)
  /\ json.readValue (http.body (reply no_files r2 (after no_files r1 boot)))
     = inr (json.JArray
              (map reread (items boot)
               ++ [reread {| ID := 3; Name := "Item Three";
                             Price := 300 |}])).
Proof.
  assert (Hd : json.Decode (http.Body (POST item_three)) Item_zero
               = ({| ID := 0; Name := "Item Three"; Price := 300 |}, None))
    by (vm_compute; reflexivity).
  assert (Hl : len (items boot) < int.MaxInt) by (vm_compute; reflexivity).
  split; [repeat split; try assumption; exact I|].
  exact (proj2 (posted_item_is_listed no_files (POST item_three)
                  (GET "/api/items" None) boot _
                  eq_refl eq_refl Hd Hl eq_refl eq_refl I)).
Defined.

(** ** Paths that are not clean *)



(** ** Encoding and decoding an item *)

Section unquoting.
Import json.

Lemma code_char c n : byte.code c = n -> c = ascii_of_N n.
Proof. intros <-. unfold byte.code. symmetry. apply ascii_N_embedding. Qed.

Lemma escape_copy k c r : escape (S k) (String c r) = String c (escape k r).
Proof. reflexivity. Qed.

(** The bytes [escape] copies are the ones [valid_size] looks at. *)
Lemma valid_size_escape c r m :
  utf8.valid_size (String c r) = S m ->
  utf8.valid_size (String c (escape m r)) = S m.
Proof.
  unfold utf8.valid_size. cbv zeta.
  destruct ((194 <=? byte.code c) && (byte.code c <=? 223))%N.
  { destruct r as [|b1 r]; [discriminate|].
    destruct (utf8.cont b1) eqn:C1; [|discriminate].
    intros [= <-]. rewrite escape_copy, C1. reflexivity. }
  destruct ((224 <=? byte.code c) && (byte.code c <=? 239))%N.
  { destruct r as [|b1 [|b2 r]]; try discriminate.
    destruct (byte.between _ _ b1 && utf8.cont b2) eqn:C; [|discriminate].
    intros [= <-]. rewrite !escape_copy, C. reflexivity. }
  destruct ((240 <=? byte.code c) && (byte.code c <=? 244))%N;
    [|discriminate].
  destruct r as [|b1 [|b2 [|b3 r]]]; try discriminate.
  destruct (byte.between _ _ b1 && utf8.cont b2 && utf8.cont b3) eqn:C;
    [|discriminate].
  intros [= <-]. rewrite !escape_copy, C. reflexivity.
Qed.

Lemma line_separator_bytes c r d :
  line_separator (String c r) = Some d ->
  exists r1,
    String c r = utf8.EncodeRune (if Ascii.eqb d "8" then 8232 else 8233)
                   +:+ r1
    /\ (d = "8"%char \/ d = "9"%char).
Proof.
  unfold line_separator. destruct r as [|b1 [|b2 r1]]; try discriminate.
  destruct (_ && _) eqn:E; [|discriminate].
  apply andb_true_iff in E as [E0 E1].
  apply N.eqb_eq, code_char in E0, E1. subst c b1.
  destruct (N.eqb_spec (byte.code b2) 168) as [E2|_].
  { intros [= <-]. apply code_char in E2. subst b2. exists r1.
    split; [reflexivity | auto]. }
  destruct (N.eqb_spec (byte.code b2) 169) as [E2|_]; [|discriminate].
  intros [= <-]. apply code_char in E2. subst b2. exists r1.
  split; [reflexivity | auto].
Qed.

Lemma unquote_escape_byte c rest :
  (byte.code c < 128)%N -> htmlSafe c = false ->
  unquote O (escape_byte c +:+ rest) = String c (unquote O rest).
Proof.
  intros Hlt Hsafe.
  destruct c as [[] [] [] [] [] [] [] []];
    try (exfalso; vm_compute in Hlt; discriminate Hlt);
    try (exfalso; vm_compute in Hsafe; discriminate Hsafe);
    reflexivity.
Qed.

Lemma unquote_line_separator (d : ascii) rest :
  d = "8"%char \/ d = "9"%char ->
  unquote O ("\u202" +:+ String d rest)
  = utf8.EncodeRune (if Ascii.eqb d "8" then 8232 else 8233)
      +:+ unquote O rest.
Proof. intros [-> | ->]; reflexivity. Qed.

(** What the encoder writes of a well-formed string, the decoder reads as
    that string. *)
Lemma unquote_escape n :
  forall s k,
    (String.length s <= n)%nat -> valid_utf8 k s = true ->
    unquote k (escape k s) = s.
Proof.
  induction n as [|n IH]; intros s k Hn Hv.
  - destruct s; [|cbn in Hn; lia]. destruct k; reflexivity.
  - destruct s as [|c r]; [destruct k; reflexivity|].
    cbn [String.length] in Hn.
    destruct k as [|k].
    2: { cbn [valid_utf8] in Hv. cbn [escape unquote].
         rewrite IH by (try lia; exact Hv). reflexivity. }
    cbn [valid_utf8] in Hv. cbn [escape].
    destruct (N.ltb_spec (byte.code c) 128) as [Hlt | Hge].
    + assert (IH0 : unquote O (escape O r) = r)
        by (apply IH; [lia | exact Hv]).
      destruct (htmlSafe c) eqn:Hsafe.
      * cbn [unquote].
        destruct (Ascii.eqb_spec c "\") as [->|_]; [discriminate Hsafe|].
        destruct (N.ltb_spec (byte.code c) 128); [|lia].
        rewrite IH0. reflexivity.
      * rewrite (unquote_escape_byte c _ Hlt Hsafe), IH0. reflexivity.
    + destruct (utf8.valid_size (String c r)) as [|m] eqn:Hs;
        [discriminate Hv|].
      destruct (line_separator (String c r)) as [d|] eqn:Hl.
      * destruct (line_separator_bytes c r d Hl) as (r1 & E & Hd).
        assert (Er : exists b1 b2, r = String b1 (String b2 r1)).
        { destruct Hd as [-> | ->]; cbn in E; injection E as _ ->; eauto. }
        destruct Er as (b1 & b2 & ->).
        rewrite E in *.
        assert (Hm : m = 2%nat).
        { destruct Hd as [-> | ->]; vm_compute in Hs; congruence. }
        subst m.
        assert (Hv1 : valid_utf8 O r1 = true).
        { destruct Hd as [-> | ->]; exact Hv. }
        assert (IH1 : unquote O (escape O r1) = r1)
          by (apply IH; [cbn [String.length] in Hn; lia | exact Hv1]).
        rewrite unquote_line_separator, IH1 by exact Hd. reflexivity.
      * assert (Hc : Ascii.eqb c "\" = false).
        { destruct (Ascii.eqb_spec c "\") as [->|_]; [|reflexivity].
          vm_compute in Hge. contradiction Hge. reflexivity. }
        assert (Hnl : (byte.code c <? 128)%N = false)
          by (apply N.ltb_ge; exact Hge).
        cbn [unquote]. rewrite Hc, Hnl.
        rewrite (valid_size_escape c r m Hs).
        rewrite IH by (try lia; exact Hv). reflexivity.
Qed.
End unquoting.

Lemma Decode_Encode_of_Item it it0 :
  portable it = true ->
  json.Decode (json.Encode (json.of_Item it)) it0 = (it, None).
Proof.
  unfold portable. intros H.
  apply andb_true_iff in H as [H Hn]. apply andb_true_iff in H as [Hi Hp].
  unfold json.Decode.
  rewrite readValue_Encode_of_Item, (Unmarshal_reread it it0 Hi Hp).
  rewrite (unquote_escape _ (Name it) O (le_n _) Hn).
  destruct it; reflexivity.
Qed.

(** X9. An item that Go can hold and JSON can carry survives the encoder and
    the decoder: decoding what [Encode] wrote of it, into any [Item],
    gives the item back and no error. *)
Theorem Item_round_trip it it0 :
  portable it = true ->
  json.Decode (json.Encode (json.of_Item it)) it0 = (it, None).
Proof.
  intros H. unfold portable in H.
  apply andb_true_iff in H as [H Hn]. apply andb_true_iff in H as [Hi Hp].
  unfold json.Decode.
  rewrite readValue_Encode_of_Item, (Unmarshal_reread it it0 Hi Hp).
  rewrite (unquote_escape _ (Name it) O (le_n _) Hn).
  destruct it; reflexivity.
Qed.

Lemma Item_round_trip_witness :
  let it := {| ID := 3; Name := "Caf" +:+ utf8.EncodeRune 233
                                +:+ " <" +:+ quoted "au lait" +:+ ">";
               Price := -5 |} in
  portable it = true
  /\ json.Decode (json.Encode (json.of_Item it)) Item_zero = (it, None).
Proof.
  assert (H : portable
                {| ID := 3; Name := "Caf" +:+ utf8.EncodeRune 233
                                    +:+ " <" +:+ quoted "au lait" +:+ ">";
                   Price := -5 |} = true) by (vm_compute; reflexivity).
  split; [exact H|]. exact (Item_round_trip _ Item_zero H).
Defined.

(** X10. What a client reads of a listing are the items, one by one: the body
    of a [GET] that is not cancelled scans as an array whose objects,
    decoded in turn, are the items in their order, when these can be
    carried by JSON. *)
Theorem listing_round_trip os r wd :
  http.Method r = "GET" -> http.Path r = "/api/items" ->
  timer_first r ->
  forallb portable (items wd) = true ->
  exists objects,
    json.readValue (http.body (reply os r wd)) = inr (json.JArray objects)
    /\ Forall2 (fun v it => json.Unmarshal v Item_zero = (it, None))
         objects (items wd).
Proof.
  intros Hm Hp Ht Hok. exists (map reread (items wd)). split.
  - unfold reply. rewrite handle_get_After by auto using select_timer_first.
    apply readValue_Encode_of_Items.
  - induction (items wd) as [|it l IH]; [constructor|].
    cbn [forallb] in Hok. apply andb_true_iff in Hok as [Hit Hok].
    cbn [map]. constructor; [|exact (IH Hok)].
    unfold portable in Hit.
    apply andb_true_iff in Hit as [H Hn].
    apply andb_true_iff in H as [Hi Hq].
    rewrite (Unmarshal_reread it Item_zero Hi Hq).
    rewrite (unquote_escape _ (Name it) O (le_n _) Hn).
    destruct it; reflexivity.
Qed.

Lemma listing_round_trip_witness :
  let r := GET "/api/items" None in
  (http.Method r = "GET" /\ http.Path r = "/api/items" /\ timer_first r
   /\ forallb portable (items boot) = true)
  /\ exists objects,
       json.readValue (http.body (reply no_files r boot))
       = inr (json.JArray objects)
       /\ Forall2 (fun v it => json.Unmarshal v Item_zero = (it, None))
            objects (items boot).
Proof.
  assert (H : forallb portable (items boot) = true)
    by (vm_compute; reflexivity).
  split; [split; [reflexivity | split; [reflexivity | split; [exact I | exact H]]]|].
  exact (listing_round_trip no_files (GET "/api/items" None) boot
           eq_refl eq_refl I H).
Defined.

(** ** The files the server reads *)

Section paths.
Import path.

Lemma append_nil_r s : s +:+ EmptyString = s.
Proof. induction s as [|c s IH]; [reflexivity|]. rewrite append_String, IH. reflexivity. Qed.

Lemma elements_app cur e s :
  no_slash e = true -> elements cur (e +:+ s) = elements (cur +:+ e) s.
Proof.
  revert cur. induction e as [|c e IH]; intros cur H.
  - rewrite append_nil_r. reflexivity.
  - cbn [no_slash] in H. apply andb_true_iff in H as [Hc He].
    apply negb_true_iff in Hc.
    rewrite append_String. cbn [elements]. rewrite Hc, (IH _ He).
    rewrite append_assoc. reflexivity.
Qed.

Lemma elements_join e l :
  forallb no_slash (e :: l) = true ->
  elements EmptyString (join (e :: l)) = e :: l.
Proof.
  revert e. induction l as [|e' l IH]; intros e H;
    cbn [forallb] in H; apply andb_true_iff in H as [He Hl].
  - cbn [join]. rewrite <- (append_nil_r e) at 1.
    rewrite (elements_app _ _ _ He). reflexivity.
  - change (join (e :: e' :: l)) with (e +:+ "/" +:+ join (e' :: l)).
    rewrite (elements_app _ _ _ He). cbn [elements append Ascii.eqb].
    change (EmptyString +:+ e) with e.
    rewrite append_String. cbn [elements]. rewrite Ascii.eqb_refl.
    change (EmptyString +:+ join (e' :: l)) with (join (e' :: l)).
    rewrite (IH e' Hl). reflexivity.
Qed.

Lemma proper_no_slash e : proper e = true -> no_slash e = true.
Proof. unfold proper. intros H. apply andb_true_iff in H as [_ H]. exact H. Qed.

Lemma elements_no_slash cur s :
  no_slash cur = true -> forallb no_slash (elements cur s) = true.
Proof.
  revert cur. induction s as [|c s IH]; intros cur H; cbn [elements].
  - cbn. rewrite H. reflexivity.
  - destruct (Ascii.eqb c "/") eqn:E.
    + cbn [forallb]. rewrite H. apply IH. reflexivity.
    + apply IH. clear IH. induction cur as [|a cur IHc].
      * change (no_slash (String c EmptyString) = true).
        cbn [no_slash]. rewrite E. reflexivity.
      * cbn [no_slash] in H. apply andb_true_iff in H as [Ha Hc].
        rewrite append_String. cbn [no_slash]. rewrite Ha. exact (IHc Hc).
Qed.

(** Cleaning a rooted path keeps proper elements only. *)
Lemma clean_step_rooted stack e :
  no_slash e = true -> forallb proper stack = true ->
  forallb proper (clean_step true stack e) = true.
Proof.
  intros He Hs. unfold clean_step.
  destruct (String.eqb e EmptyString) eqn:E1; [exact Hs|].
  destruct (String.eqb e ".") eqn:E2; [exact Hs|]. cbn [orb].
  destruct (String.eqb e "..") eqn:E3.
  - destruct stack as [|top rest]; [reflexivity|].
    cbn [forallb] in Hs. apply andb_true_iff in Hs as [Ht Hr].
    destruct (String.eqb top "..") eqn:E4; [|exact Hr].
    unfold proper in Ht. rewrite E4 in Ht.
    rewrite andb_false_r in Ht. discriminate Ht.
  - cbn [forallb]. rewrite Hs, andb_true_r.
    unfold proper. rewrite E1, E2, E3, He. reflexivity.
Qed.

Lemma clean_fold_rooted es stack :
  forallb no_slash es = true -> forallb proper stack = true ->
  forallb proper (fold_left (clean_step true) es stack) = true.
Proof.
  revert stack. induction es as [|e es IH]; intros stack He Hs; [exact Hs|].
  cbn [forallb] in He. apply andb_true_iff in He as [He Hes].
  cbn [fold_left]. apply IH; [exact Hes|].
  apply clean_step_rooted; assumption.
Qed.

(** Cleaning leaves proper elements where they are. *)
Lemma clean_fold_proper es stack :
  forallb proper es = true ->
  fold_left (clean_step false) es stack = rev es ++ stack.
Proof.
  revert stack. induction es as [|e es IH]; intros stack H; [reflexivity|].
  cbn [forallb] in H. apply andb_true_iff in H as [He Hes].
  cbn [fold_left rev]. rewrite (IH _ Hes), <- app_assoc. cbn [app].
  f_equal. unfold clean_step. unfold proper in He.
  apply andb_true_iff in He as [He _].
  apply andb_true_iff in He as [He E3].
  apply andb_true_iff in He as [E1 E2].
  apply negb_true_iff in E1, E2, E3. rewrite E1, E2, E3. reflexivity.
Qed.

Lemma forallb_rev {A : Type} (f : A -> bool) l :
  forallb f (rev l) = forallb f l.
Proof.
  induction l as [|x l IH]; [reflexivity|].
  cbn [rev forallb]. rewrite forallb_app, IH. cbn. rewrite andb_true_r.
  apply andb_comm.
Qed.

Lemma forallb_proper_no_slash l :
  forallb proper l = true -> forallb no_slash l = true.
Proof.
  induction l as [|e l IH]; [reflexivity|]. cbn [forallb]. intros H.
  apply andb_true_iff in H as [He Hl].
  rewrite (proper_no_slash _ He), (IH Hl). reflexivity.
Qed.

(** [http.Dir("./static")] opens nothing but [static] and what lies
    beneath it, whatever name it is asked for. *)
Lemma Dir_path_static name :
  exists kept,
    forallb proper kept = true
    /\ http.Dir_path "./static" name = join ("static" :: kept).
Proof.
  unfold http.Dir_path, Clean. cbv zeta.
  rewrite (HasPrefix_app "/" name).
  set (kept := rev (fold_left (clean_step true)
                      (elements EmptyString ("/" +:+ name)) [])).
  assert (Hk : forallb proper kept = true).
  { unfold kept. rewrite forallb_rev. apply clean_fold_rooted.
    - apply elements_no_slash. reflexivity.
    - reflexivity. }
  exists kept. split; [exact Hk|].
  destruct kept as [|e l] eqn:Ek.
  - reflexivity.
  - assert (Hj : exists c s, join (e :: l) = String c s).
    { cbn [forallb] in Hk. apply andb_true_iff in Hk as [He _].
      destruct e as [|c e]; [discriminate He|].
      destruct l; cbn [join]; rewrite ?append_String; eauto. }
    destruct Hj as (c & s & Hj).
    change ("/" +:+ join (e :: l)) with (String "/" (join (e :: l))).
    rewrite Hj. cbv iota. unfold Join. cbv iota.
    rewrite <- Hj. unfold Clean.
    change (strings.HasPrefix ("./static" +:+ "/" +:+ join (e :: l)) "/")
      with false. cbv iota.
    change ("./static" +:+ "/" +:+ join (e :: l))
      with ("." +:+ String "/" ("static" +:+ String "/" (join (e :: l)))).
    rewrite (elements_app EmptyString "." _ eq_refl).
    cbn [elements]. change (Ascii.eqb "/" "/") with true. cbv iota.
    rewrite (elements_app EmptyString "static" _ eq_refl).
    cbn [elements]. change (Ascii.eqb "/" "/") with true. cbv iota.
    rewrite (elements_join e l (forallb_proper_no_slash _ Hk)).
    change (EmptyString +:+ ".") with ".".
    change (EmptyString +:+ "static") with "static".
    cbn [fold_left]. change (clean_step false [] ".") with (@nil string).
    change (clean_step false [] "static") with ["static"].
    change (fold_left (clean_step false) l (clean_step false ["static"] e))
      with (fold_left (clean_step false) (e :: l) ["static"]).
    rewrite (clean_fold_proper _ _ Hk), rev_app_distr, rev_involutive.
    reflexivity.
Qed.

Lemma Dir_path_beneath name :
  beneath_static (http.Dir_path "./static" name) = true.
Proof.
  destruct (Dir_path_static name) as (kept & Hk & ->).
  unfold beneath_static.
  rewrite (elements_join "static" kept)
    by (cbn [forallb]; rewrite (forallb_proper_no_slash _ Hk); reflexivity).
  rewrite Hk. reflexivity.
Qed.
End paths.

Section alike.
Variables os1 os2 : http.OS.
Hypothesis same : same_static os1 os2.

Lemma setLastModified_same t w :
  http.setLastModified os1 t w = http.setLastModified os2 t w.
Proof.
  destruct same as (_ & _ & _ & _ & Hf & _).
  unfold http.setLastModified. rewrite Hf. reflexivity.
Qed.

Lemma serveError_same text code w :
  http.serveError os1 text code w = http.serveError os2 text code w.
Proof.
  destruct same as (_ & _ & _ & _ & _ & _ & Hk).
  unfold http.serveError. rewrite Hk. reflexivity.
Qed.

Lemma checkIfModifiedSince_same r t :
  http.checkIfModifiedSince os1 r t = http.checkIfModifiedSince os2 r t.
Proof.
  destruct same as (_ & _ & _ & Hp & _).
  unfold http.checkIfModifiedSince.
  destruct (negb _); [reflexivity|].
  destruct (http.Get r _); rewrite ?Hp; reflexivity.
Qed.

Lemma checkIfUnmodifiedSince_same r t :
  http.checkIfUnmodifiedSince os1 r t = http.checkIfUnmodifiedSince os2 r t.
Proof.
  destruct same as (_ & _ & _ & Hp & _).
  unfold http.checkIfUnmodifiedSince.
  destruct (http.Get r _); rewrite ?Hp; reflexivity.
Qed.

Lemma checkIfRange_same w r t :
  http.checkIfRange os1 w r t = http.checkIfRange os2 w r t.
Proof.
  destruct same as (_ & _ & _ & Hp & _).
  unfold http.checkIfRange.
  destruct (negb _); [reflexivity|].
  destruct (http.Get r _); rewrite ?Hp; reflexivity.
Qed.

Lemma checkPreconditions_same w r t :
  http.checkPreconditions os1 w r t = http.checkPreconditions os2 w r t.
Proof.
  unfold http.checkPreconditions.
  rewrite checkIfModifiedSince_same, checkIfUnmodifiedSince_same,
    checkIfRange_same.
  reflexivity.
Qed.

Lemma serveContent_same r name t data w :
  http.serveContent os1 r name t data w = http.serveContent os2 r name t data w.
Proof.
  destruct same as (_ & Ht & Hd & _ & _ & Hb & _).
  unfold http.serveContent.
  rewrite setLastModified_same, checkPreconditions_same, Ht, Hd, Hb.
  cbv zeta.
  destruct (http.checkPreconditions _ _ _ _); [reflexivity|].
  rewrite !serveError_same. reflexivity.
Qed.

Lemma serveFile_same r name redirect w :
  http.serveFile os1 r "./static" name redirect w
  = http.serveFile os2 r "./static" name redirect w.
Proof.
  pose proof same as (Ho & _). unfold http.serveFile.
  destruct (strings.HasSuffix (http.Path r) "/index.html"); [reflexivity|].
  cbv zeta. rewrite (Ho _ (Dir_path_beneath name)).
  destruct (http.Open os2 (http.Dir_path "./static" name));
    cbn [http.toHTTPError]; try apply serveError_same.
  - destruct (negb _); [reflexivity|].
    rewrite (Ho _ (Dir_path_beneath _)).
    destruct (http.Open os2 _);
      rewrite ?checkIfModifiedSince_same, ?setLastModified_same;
      try reflexivity.
    apply serveContent_same.
  - destruct (_ && _).
    + destruct (_ || _); [apply serveError_same | reflexivity].
    + apply serveContent_same.
Qed.
End alike.

(** X11. The server reads nothing outside [./static]: in surroundings that
    differ at most there, every request is answered alike and leaves the
    process alike, whatever its path and whatever [..] it holds. *)
Theorem reads_beneath_static_only os1 os2 r wd :
  same_static os1 os2 -> handle os1 r wd = handle os2 r wd.
Proof.
  intros H.
  destruct (String.eqb_spec (mux.cleanPath (http.Path r)) (http.Path r))
    as [Hc | Hc].
  2: { rewrite !(handle_redirect _ r wd Hc). reflexivity. }
  destruct (strings.HasPrefix (http.Path r) "/static/") eqn:Hs.
  { rewrite !(handle_static_route _ r wd Hc Hs). f_equal.
    unfold http.StripPrefix. cbv beta iota. cbv zeta. destruct (_ && _); [|reflexivity].
    unfold http.FileServer. apply serveFile_same, H. }
  destruct (String.eqb_spec (http.Path r) "/api/items") as [Hp | Hp].
  2: { rewrite !(handle_not_found _ r wd Hc Hs Hp). reflexivity. }
  destruct (String.eqb_spec (http.Method r) "GET") as [Hg | Hg].
  { rewrite !(handle_get _ r wd Hg Hp). reflexivity. }
  destruct (String.eqb_spec (http.Method r) "POST") as [Hq | Hq].
  { rewrite !(handle_post _ r wd Hq Hp). reflexivity. }
  rewrite !(handle_not_allowed _ r wd Hp Hg Hq). reflexivity.
Qed.

Lemma reads_beneath_static_only_witness :
  same_static site site_amid_secrets
  /\ handle site (GET "/static/app.js" None) boot
     = handle site_amid_secrets (GET "/static/app.js" None) boot.
Proof.
  assert (H : same_static site site_amid_secrets).
  { split; [|repeat (split; [reflexivity|]); reflexivity].
    intros p Hp. cbn [http.Open site_amid_secrets]. rewrite Hp. reflexivity. }
  split; [exact H|].
  exact (reads_beneath_static_only _ _ (GET "/static/app.js" None) boot H).
Defined.

(** ** What follows the first value of a body *)

Section trailing.
Import json.

Lemma scan_map_Scanned {A B : Type} (f : A -> B) r b rest :
  scan_map f r = Scanned b rest ->
  exists a, r = Scanned a rest /\ b = f a.
Proof. destruct r; cbn; intros [= <- <-] || discriminate. eauto. Qed.

Lemma skip_space_app s j c r :
  skip_space s = String c r -> skip_space (s +:+ j) = String c (r +:+ j).
Proof.
  induction s as [|a s IH]; [discriminate|].
  rewrite append_String. cbn [skip_space].
  destruct (isSpace a); [exact IH|]. intros [= <- <-]. reflexivity.
Qed.

Lemma scan_string_app j s :
  forall st raw rest,
    scan_string st s = Scanned raw rest ->
    scan_string st (s +:+ j) = Scanned raw (rest +:+ j).
Proof.
  induction s as [|c s IH]; intros st raw rest; [discriminate|].
  rewrite append_String. cbn [scan_string].
  assert (Hm : forall st',
             scan_map (String c) (scan_string st' s) = Scanned raw rest ->
             scan_map (String c) (scan_string st' (s +:+ j))
             = Scanned raw (rest +:+ j)).
  { intros st' H. apply scan_map_Scanned in H as (a & H & ->).
    rewrite (IH _ _ _ H). reflexivity. }
  destruct st as [| |n].
  - destruct (Ascii.eqb c byte.dquote); [intros [= <- <-]; reflexivity|].
    destruct (Ascii.eqb c "\"); [apply Hm|].
    destruct (_ <? _)%N; [discriminate|]. apply Hm.
  - destruct (is_escape c); [apply Hm|].
    destruct (Ascii.eqb c "u"); [apply Hm | discriminate].
  - destruct (byte.hex_value c); [apply Hm | discriminate].
Qed.

Lemma expect_app name j w :
  forall s rest,
    expect name w s = Scanned tt rest ->
    expect name w (s +:+ j) = Scanned tt (rest +:+ j).
Proof.
  induction w as [|x w IH]; intros s rest; cbn [expect].
  - intros [= <-]. reflexivity.
  - destruct s as [|c s]; [discriminate|]. rewrite (append_String c s j).
    destruct (Ascii.eqb c x); [apply IH | discriminate].
Qed.

(** A number ends where a byte that is no part of it stands; at the end
    of the input, more input could be more of the number. *)
Lemma digits_app j s :
  forall d c r,
    digits s = (d, String c r) ->
    digits (s +:+ j) = (d, String c r +:+ j).
Proof.
  induction s as [|a s IH]; intros d c r; [discriminate|].
  rewrite append_String. cbn [digits].
  destruct (byte.is_digit a).
  - destruct (digits s) as [d0 r0] eqn:E. intros [= <- ->].
    rewrite (IH _ _ _ eq_refl). reflexivity.
  - intros [= <- <- <-]. rewrite append_String. reflexivity.
Qed.

Lemma scan_exp_app j lit s x c r :
  scan_exp lit s = Scanned x (String c r) ->
  scan_exp lit (s +:+ j) = Scanned x (String c r +:+ j).
Proof.
  unfold scan_exp. destruct s as [|e s]; [discriminate|].
  rewrite append_String.
  destruct (_ || _); [|intros [= <- <- <-]; rewrite append_String; reflexivity].
  destruct s as [|a s]; [discriminate|]. rewrite append_String.
  destruct (_ || _).
  - destruct s as [|d s]; [discriminate|]. rewrite append_String.
    destruct (byte.is_digit d); [|discriminate].
    destruct (digits (String d s)) as [ds r2] eqn:E. intros [= <- ->].
    rewrite <- append_String, (digits_app j _ _ _ _ E). reflexivity.
  - destruct (byte.is_digit a); [|discriminate].
    destruct (digits (String a s)) as [ds r2] eqn:E. intros [= <- ->].
    rewrite <- append_String, (digits_app j _ _ _ _ E). reflexivity.
Qed.

Lemma scan_frac_app j lit s x c r :
  scan_frac lit s = Scanned x (String c r) ->
  scan_frac lit (s +:+ j) = Scanned x (String c r +:+ j).
Proof.
  assert (He : scan_exp lit s = Scanned x (String c r) ->
               scan_exp lit (s +:+ j) = Scanned x (String c r +:+ j))
    by apply scan_exp_app.
  unfold scan_frac. destruct s as [|a s]; [discriminate|].
  destruct (Ascii.eqb_spec a ".") as [-> | Ha].
  - rewrite append_String.
    destruct s as [|d s]; [discriminate|]. rewrite append_String.
    destruct (byte.is_digit d); [|discriminate].
    destruct (digits (String d s)) as [ds r1] eqn:E. intros H.
    destruct r1 as [|c1 r1].
    { destruct ds; discriminate H || (cbn in H; discriminate H). }
    rewrite <- append_String, (digits_app j _ _ _ _ E).
    apply scan_exp_app, H.
  - rewrite append_String in *.
    destruct a as [[] [] [] [] [] [] [] []]; try exact He.
    contradiction Ha. reflexivity.
Qed.

Lemma scan_int_app j s x c r :
  scan_int s = Scanned x (String c r) ->
  scan_int (s +:+ j) = Scanned x (String c r +:+ j).
Proof.
  unfold scan_int. destruct s as [|a s]; [discriminate|].
  rewrite append_String.
  destruct (Ascii.eqb a "0"); [apply scan_frac_app|].
  destruct (byte.between 49 57 a); [|discriminate].
  destruct (digits s) as [ds r1] eqn:E. intros H.
  destruct r1 as [|c1 r1]; [discriminate H|].
  rewrite (digits_app j _ _ _ _ E). apply scan_frac_app, H.
Qed.

Lemma scan_number_app j s x c r :
  scan_number s = Scanned x (String c r) ->
  scan_number (s +:+ j) = Scanned x (String c r +:+ j).
Proof.
  assert (Hi : scan_int s = Scanned x (String c r) ->
               scan_int (s +:+ j) = Scanned x (String c r +:+ j))
    by apply scan_int_app.
  unfold scan_number. destruct s as [|a s]; [discriminate|].
  destruct (Ascii.eqb_spec a "-") as [-> | Ha].
  - rewrite append_String. intros H.
    apply scan_map_Scanned in H as (y & H & ->).
    rewrite (scan_int_app j _ _ _ _ H). reflexivity.
  - rewrite append_String in *.
    destruct a as [[] [] [] [] [] [] [] []]; try exact Hi.
    contradiction Ha. reflexivity.
Qed.

Lemma scan_values_app j fuel :
  (forall depth s v rest,
     scan_value fuel depth s = Scanned v rest ->
     closed v = true \/ rest <> EmptyString ->
     scan_value fuel depth (s +:+ j) = Scanned v (rest +:+ j))
  /\ (forall depth s vs rest,
        scan_elements fuel depth s = Scanned vs rest ->
        scan_elements fuel depth (s +:+ j) = Scanned vs (rest +:+ j))
  /\ (forall depth s ms rest,
        scan_members fuel depth s = Scanned ms rest ->
        scan_members fuel depth (s +:+ j) = Scanned ms (rest +:+ j)).
Proof.
  induction fuel as [|fuel (IHv & IHe & IHm)];
    [repeat split; discriminate|].
  repeat split; intros depth s.
  - intros v rest. cbn [scan_value].
    destruct (skip_space s) as [|c r] eqn:Es; [discriminate|].
    rewrite (skip_space_app _ j _ _ Es).
    destruct (Ascii.eqb c "{").
    { destruct (_ <? _)%N; [discriminate|].
      destruct (skip_space r) as [|c1 r1] eqn:Er.
      - destruct fuel; cbn [scan_members]; [discriminate|].
        rewrite Er. discriminate.
      - rewrite (skip_space_app _ j _ _ Er).
        destruct c1 as [[] [] [] [] [] [] [] []];
          try (intros H _; apply scan_map_Scanned in H as (ms & H & ->);
               rewrite (IHm _ _ _ _ H); reflexivity).
        intros [= <- <-] _. reflexivity. }
    destruct (Ascii.eqb c "[").
    { destruct (_ <? _)%N; [discriminate|].
      destruct (skip_space r) as [|c1 r1] eqn:Er.
      - destruct fuel; cbn [scan_elements]; [discriminate|].
        destruct fuel; cbn [scan_value]; [discriminate|].
        rewrite Er. discriminate.
      - rewrite (skip_space_app _ j _ _ Er).
        destruct c1 as [[] [] [] [] [] [] [] []];
          try (intros H _; apply scan_map_Scanned in H as (vs & H & ->);
               rewrite (IHe _ _ _ _ H); reflexivity).
        intros [= <- <-] _. reflexivity. }
    destruct (Ascii.eqb c byte.dquote).
    { intros H _. apply scan_map_Scanned in H as (raw & H & ->).
      rewrite (scan_string_app j _ _ _ _ H). reflexivity. }
    destruct (_ || _).
    { intros H Hc. apply scan_map_Scanned in H as (lit & H & ->).
      destruct Hc as [Hc | Hc]; [discriminate Hc|].
      destruct rest as [|c1 r1]; [contradiction Hc; reflexivity|].
      rewrite <- append_String, (scan_number_app j _ _ _ _ H). reflexivity. }
    destruct (Ascii.eqb c "t").
    { intros H _. apply scan_map_Scanned in H as ([] & H & ->).
      rewrite (expect_app _ j _ _ _ H). reflexivity. }
    destruct (Ascii.eqb c "f").
    { intros H _. apply scan_map_Scanned in H as ([] & H & ->).
      rewrite (expect_app _ j _ _ _ H). reflexivity. }
    destruct (Ascii.eqb c "n"); [|discriminate].
    intros H _. apply scan_map_Scanned in H as ([] & H & ->).
    rewrite (expect_app _ j _ _ _ H). reflexivity.
  - intros vs rest. cbn [scan_elements].
    destruct (scan_value fuel depth s) as [v rest0| |] eqn:Ev;
      try discriminate.
    destruct (skip_space rest0) as [|c r] eqn:Er; [discriminate|].
    assert (Hne : rest0 <> EmptyString) by (intros ->; discriminate Er).
    rewrite (IHv _ _ _ _ Ev (or_intror Hne)), (skip_space_app _ j _ _ Er).
    destruct (Ascii.eqb c ",").
    { intros H. apply scan_map_Scanned in H as (vs0 & H & ->).
      rewrite (IHe _ _ _ _ H). reflexivity. }
    destruct (Ascii.eqb c "]"); [|discriminate].
    intros [= <- <-]. reflexivity.
  - intros ms rest. cbn [scan_members].
    destruct (skip_space s) as [|q r] eqn:Es; [discriminate|].
    rewrite (skip_space_app _ j _ _ Es).
    destruct (negb _); [discriminate|].
    destruct (scan_string InString r) as [raw rest0| |] eqn:Ek;
      try discriminate.
    rewrite (scan_string_app j _ _ _ _ Ek).
    destruct (skip_space rest0) as [|c r1] eqn:Er; [discriminate|].
    rewrite (skip_space_app _ j _ _ Er).
    destruct (negb _); [discriminate|].
    destruct (scan_value fuel depth r1) as [v rest1| |] eqn:Ev;
      try discriminate.
    destruct (skip_space rest1) as [|d r2] eqn:Er1; [discriminate|].
    assert (Hne : rest1 <> EmptyString) by (intros ->; discriminate Er1).
    rewrite (IHv _ _ _ _ Ev (or_intror Hne)), (skip_space_app _ j _ _ Er1).
    destruct (Ascii.eqb d ",").
    { intros H. apply scan_map_Scanned in H as (ms0 & H & ->).
      rewrite (IHm _ _ _ _ H). reflexivity. }
    destruct (Ascii.eqb d "}"); [|discriminate].
    intros [= <- <-]. reflexivity.
Qed.

Lemma readValue_app body j v :
  readValue body = inr v -> closed v = true ->
  readValue (body +:+ j) = inr v.
Proof.
  unfold readValue at 1. intros H Hc.
  destruct (skip_space body) as [|c r] eqn:Eb; [discriminate|].
  destruct (scan_value _ 0 (String c r)) as [v0 rest| |] eqn:Ev;
    try discriminate.
  injection H as ->.
  apply (readValue_scanned (2 * String.length (String c r) + 1) _ _
           (rest +:+ j)).
  rewrite (skip_space_app _ j _ _ Eb), <- append_String.
  apply (proj1 (scan_values_app j _) _ _ _ _ Ev). left. exact Hc.
Qed.

Lemma Decode_app body j it :
  starts_closed body = true ->
  Decode (body +:+ j) it = Decode body it.
Proof.
  unfold starts_closed, Decode. intros H.
  destruct (readValue body) as [e|v] eqn:Ev; [discriminate|].
  rewrite (readValue_app _ j _ Ev H). reflexivity.
Qed.
End trailing.

(** X12. [AddItemHandler] reads the first JSON value of the body and nothing
    after it: whatever bytes follow an object (or any value but a bare
    number), the reply and the process afterwards are the same. *)
Theorem post_reads_first_value_only os r wd junk :
  http.Method r = "POST" -> http.Path r = "/api/items" ->
  starts_closed (http.Body r) = true ->
  handle os (with_Body r (http.Body r +:+ junk)) wd = handle os r wd.
Proof.
  intros Hm Hp Hc.
  rewrite (handle_post os r wd Hm Hp),
    (handle_post os (with_Body r _) wd Hm Hp).
  assert (H : serve AddItemHandler (with_Body r (http.Body r +:+ junk)) wd
              = serve AddItemHandler r wd).
  { destruct (json.Decode (http.Body r) Item_zero) as [it [e|]] eqn:Hd.
    - rewrite (AddItemHandler_rejected r wd it e Hd).
      apply (AddItemHandler_rejected _ wd it e).
      cbn [with_Body http.Body]. rewrite Decode_app; assumption.
    - rewrite (AddItemHandler_created r wd it Hd).
      apply (AddItemHandler_created _ wd it).
      cbn [with_Body http.Body]. rewrite Decode_app; assumption. }
  rewrite H. reflexivity.
Qed.

Lemma post_reads_first_value_only_witness :
  let r := POST item_three in
  (http.Method r = "POST" /\ http.Path r = "/api/items"
   /\ starts_closed (http.Body r) = true)
  /\ handle no_files (with_Body r (http.Body r +:+ "}, and so on")) boot
     = handle no_files r boot.
Proof.
  assert (H : starts_closed (http.Body (POST item_three)) = true)
    by (vm_compute; reflexivity).
  split; [split; [reflexivity | split; [reflexivity | exact H]]|].
  exact (post_reads_first_value_only no_files (POST item_three) boot
           "}, and so on" eq_refl eq_refl H).
Defined.

(** ** What the decoder lets into the store *)

Section sanitising.
Import json.

Lemma code_of_N_mod n : byte.code (byte.of_N n) = (n mod 256)%N.
Proof.
  unfold byte.code, byte.of_N. apply N_ascii_embedding.
  apply N.mod_lt. discriminate.
Qed.

Lemma within lo hi n :
  (lo <= n <= hi)%N -> ((lo <=? n) && (n <=? hi))%N = true.
Proof.
  intros [H1 H2]. apply andb_true_iff. split; apply N.leb_le; assumption.
Qed.

Lemma without lo hi n :
  (n < lo \/ hi < n)%N -> ((lo <=? n) && (n <=? hi))%N = false.
Proof.
  intros [H | H]; apply andb_false_iff; [left | right]; apply N.leb_gt;
    assumption.
Qed.

Lemma valid_utf8_1 c t :
  (byte.code c < 128)%N -> valid_utf8 O (String c t) = valid_utf8 O t.
Proof.
  intros H. cbn [valid_utf8]. apply N.ltb_lt in H. rewrite H. reflexivity.
Qed.

Lemma valid_utf8_2 b0 b1 t :
  (194 <= byte.code b0 <= 223)%N -> (128 <= byte.code b1 <= 191)%N ->
  valid_utf8 O (String b0 (String b1 t)) = valid_utf8 O t.
Proof.
  intros H0 H1. cbn [valid_utf8].
  assert (E : (byte.code b0 <? 128)%N = false) by (apply N.ltb_ge; lia).
  rewrite E. unfold utf8.valid_size, utf8.cont, byte.between. cbv zeta.
  rewrite (within _ _ _ H0), (within _ _ _ H1). reflexivity.
Qed.

Lemma valid_utf8_3 b0 b1 b2 t :
  (224 <= byte.code b0 <= 239)%N ->
  (128 <= byte.code b1 <= 191)%N ->
  (byte.code b0 = 224 -> 160 <= byte.code b1)%N ->
  (byte.code b0 = 237 -> byte.code b1 <= 159)%N ->
  (128 <= byte.code b2 <= 191)%N ->
  valid_utf8 O (String b0 (String b1 (String b2 t))) = valid_utf8 O t.
Proof.
  intros H0 H1 Hlo Hhi H2. cbn [valid_utf8].
  assert (E : (byte.code b0 <? 128)%N = false) by (apply N.ltb_ge; lia).
  rewrite E. unfold utf8.valid_size, utf8.cont, byte.between. cbv zeta.
  rewrite (without 194 223) by lia.
  rewrite (within 224 239 _ H0), (within 128 191 _ H2).
  rewrite within; [reflexivity|].
  destruct (N.eqb_spec (byte.code b0) 224), (N.eqb_spec (byte.code b0) 237);
    lia.
Qed.

Lemma valid_utf8_4 b0 b1 b2 b3 t :
  (240 <= byte.code b0 <= 244)%N ->
  (128 <= byte.code b1 <= 191)%N ->
  (byte.code b0 = 240 -> 144 <= byte.code b1)%N ->
  (byte.code b0 = 244 -> byte.code b1 <= 143)%N ->
  (128 <= byte.code b2 <= 191)%N ->
  (128 <= byte.code b3 <= 191)%N ->
  valid_utf8 O (String b0 (String b1 (String b2 (String b3 t))))
  = valid_utf8 O t.
Proof.
  intros H0 H1 Hlo Hhi H2 H3. cbn [valid_utf8].
  assert (E : (byte.code b0 <? 128)%N = false) by (apply N.ltb_ge; lia).
  rewrite E. unfold utf8.valid_size, utf8.cont, byte.between. cbv zeta.
  rewrite (without 194 223), (without 224 239) by lia.
  rewrite (within 240 244 _ H0), (within 128 191 _ H2),
    (within 128 191 _ H3).
  rewrite within; [reflexivity|].
  destruct (N.eqb_spec (byte.code b0) 240), (N.eqb_spec (byte.code b0) 244);
    lia.
Qed.

Ltac divlia := zify; Z.to_euclidean_division_equations; lia.

(** What [utf8.EncodeRune] writes is well-formed. *)
Lemma valid_EncodeRune x t :
  valid_utf8 O (utf8.EncodeRune x +:+ t) = valid_utf8 O t.
Proof.
  unfold utf8.EncodeRune. cbv zeta.
  match goal with
  | |- context [if ?b then utf8.RuneError else x] =>
      set (r := if b then utf8.RuneError else x)
  end.
  assert (Hr : (r <= 1114111 /\ (r < 55296 \/ 57343 < r))%N).
  { unfold r, utf8.RuneError.
    destruct (N.leb_spec 55296 x), (N.leb_spec x 57343),
      (N.ltb_spec 1114111 x); cbn [andb orb]; lia. }
  clearbody r.
  destruct (N.ltb_spec r 128) as [H1 | H1].
  { rewrite append_String. apply valid_utf8_1. rewrite code_of_N_mod.
    rewrite N.mod_small; lia. }
  destruct (N.ltb_spec r 2048) as [H2 | H2].
  { rewrite !append_String.
    apply valid_utf8_2; rewrite code_of_N_mod; divlia. }
  destruct (N.ltb_spec r 65536) as [H3 | H3].
  { rewrite !append_String.
    apply valid_utf8_3; rewrite ?code_of_N_mod; divlia. }
  rewrite !append_String.
  apply valid_utf8_4; rewrite ?code_of_N_mod; divlia.
Qed.

Lemma scan_string_literal s :
  forall st raw rest,
    scan_string st s = Scanned raw rest -> literal st raw = true.
Proof.
  induction s as [|c s IH]; intros st raw rest; [discriminate|].
  cbn [scan_string].
  assert (Hm : forall st' st'',
             (forall raw', literal st (String c raw') = literal st'' raw') ->
             st' = st'' ->
             scan_map (String c) (scan_string st' s) = Scanned raw rest ->
             literal st raw = true).
  { intros st' st'' Hl -> H. apply scan_map_Scanned in H as (a & H & ->).
    rewrite Hl. exact (IH _ _ _ H). }
  destruct st as [| |n]; cbn [literal] in Hm.
  - destruct (Ascii.eqb c byte.dquote); [intros [= <- <-]; reflexivity|].
    destruct (Ascii.eqb c "\"); [apply (Hm _ InStringEsc); auto|].
    destruct (_ <? _)%N; [discriminate|]. apply (Hm _ InString); auto.
  - destruct (is_escape c); [apply (Hm _ InString); auto|].
    destruct (Ascii.eqb c "u"); [apply (Hm _ (InStringEscU 3)); auto|].
    discriminate.
  - destruct (byte.hex_value c); [|discriminate].
    apply (Hm _ (match n with O => InString | S k => InStringEscU k end));
      auto.
Qed.

Lemma literal_cont c r :
  literal InString (String c r) = true -> (128 <= byte.code c)%N ->
  literal InString r = true.
Proof.
  cbn [literal]. intros H Hc.
  destruct (Ascii.eqb c byte.dquote); [discriminate|].
  destruct (Ascii.eqb_spec c "\") as [-> | _];
    [vm_compute in Hc; contradiction Hc; reflexivity|].
  destruct (_ <? _)%N; [discriminate | exact H].
Qed.

Lemma literal_plain c r :
  literal InString (String c r) = true -> c <> "\"%char ->
  literal InString r = true.
Proof.
  cbn [literal]. intros H Hc.
  destruct (Ascii.eqb c byte.dquote); [discriminate|].
  destruct (Ascii.eqb_spec c "\") as [-> | _]; [contradiction Hc; reflexivity|].
  destruct (_ <? _)%N; [discriminate | exact H].
Qed.

Lemma literal_u4 h1 h2 h3 h4 r :
  literal (InStringEscU 3) (String h1 (String h2 (String h3 (String h4 r))))
  = match hex4 h1 h2 h3 h4 with
    | Some _ => literal InString r
    | None => false
    end.
Proof.
  cbn [literal]. unfold hex4.
  destruct (byte.hex_value h1); [|reflexivity].
  destruct (byte.hex_value h2); [|reflexivity].
  destruct (byte.hex_value h3); [|reflexivity].
  destruct (byte.hex_value h4); reflexivity.
Qed.

Lemma unquote_copy k c r : unquote (S k) (String c r) = String c (unquote k r).
Proof. reflexivity. Qed.

(** The bytes [unquote] copies are the ones [valid_size] looks at. *)
Lemma valid_size_unquote c r m :
  utf8.valid_size (String c r) = S m ->
  utf8.valid_size (String c (unquote m r)) = S m.
Proof.
  unfold utf8.valid_size. cbv zeta.
  destruct ((194 <=? byte.code c) && (byte.code c <=? 223))%N.
  { destruct r as [|b1 r]; [discriminate|].
    destruct (utf8.cont b1) eqn:C1; [|discriminate].
    intros [= <-]. rewrite unquote_copy, C1. reflexivity. }
  destruct ((224 <=? byte.code c) && (byte.code c <=? 239))%N.
  { destruct r as [|b1 [|b2 r]]; try discriminate.
    destruct (byte.between _ _ b1 && utf8.cont b2) eqn:C; [|discriminate].
    intros [= <-]. rewrite !unquote_copy, C. reflexivity. }
  destruct ((240 <=? byte.code c) && (byte.code c <=? 244))%N;
    [|discriminate].
  destruct r as [|b1 [|b2 [|b3 r]]]; try discriminate.
  destruct (byte.between _ _ b1 && utf8.cont b2 && utf8.cont b3) eqn:C;
    [|discriminate].
  intros [= <-]. rewrite !unquote_copy, C. reflexivity.
Qed.

Lemma unquote_u4 h1 h2 h3 h4 r2 :
  unquote O
    (String "\" (String "u"
       (String h1 (String h2 (String h3 (String h4 r2))))))
  = match hex4 h1 h2 h3 h4 with
    | Some rr =>
        if IsSurrogate rr then
          match utf16_DecodeRune rr (getu4 r2), r2 with
          | Some dec,
            String _ (String _ (String _ (String _
              (String _ (String _ r3))))) =>
              utf8.EncodeRune dec +:+ unquote O r3
          | _, _ => utf8.EncodeRune utf8.RuneError +:+ unquote O r2
          end
        else utf8.EncodeRune rr +:+ unquote O r2
    | None => EmptyString
    end.
Proof. reflexivity. Qed.

Lemma unquote_escape_char e r1 :
  e <> "u"%char ->
  unquote O (String "\" (String e r1)) = String (unescape e) (unquote O r1).
Proof.
  intros He.
  destruct e as [[] [] [] [] [] [] [] []]; try reflexivity.
  contradiction He. reflexivity.
Qed.

Lemma unquote_ascii c r :
  c <> "\"%char -> (byte.code c < 128)%N ->
  unquote O (String c r) = String c (unquote O r).
Proof.
  intros Hc Hlt. cbn [unquote].
  destruct (Ascii.eqb_spec c "\") as [-> | _]; [contradiction Hc; reflexivity|].
  apply N.ltb_lt in Hlt. rewrite Hlt. reflexivity.
Qed.

Lemma unquote_multi c r :
  (128 <= byte.code c)%N ->
  unquote O (String c r)
  = match utf8.valid_size (String c r) with
    | S n => String c (unquote n r)
    | O => utf8.EncodeRune utf8.RuneError +:+ unquote O r
    end.
Proof.
  intros Hge. cbn [unquote].
  destruct (Ascii.eqb_spec c "\") as [-> | _];
    [vm_compute in Hge; contradiction Hge; reflexivity|].
  apply N.ltb_ge in Hge. rewrite Hge. reflexivity.
Qed.

Lemma is_escape_ascii e :
  is_escape e = true ->
  e <> "u"%char /\ (byte.code (unescape e) < 128)%N.
Proof.
  destruct e as [[] [] [] [] [] [] [] []]; intros H;
    try (exfalso; vm_compute in H; discriminate H);
    (split; [discriminate | vm_compute; reflexivity]).
Qed.

(** A second escape that [getu4] reads is part of the literal. *)
Lemma getu4_literal r2 x :
  getu4 r2 = Some x -> literal InString r2 = true ->
  exists a b c d e f r3,
    r2 = String a (String b (String c (String d (String e (String f r3)))))
    /\ literal InString r3 = true.
Proof.
  unfold getu4. intros Hg Hl.
  destruct r2 as [|a [|b [|c [|d [|e [|f r3]]]]]];
    try discriminate Hg;
    try (destruct a as [[] [] [] [] [] [] [] []]; discriminate Hg);
    try (destruct a as [[] [] [] [] [] [] [] []]; try discriminate Hg;
         destruct b as [[] [] [] [] [] [] [] []]; discriminate Hg).
  exists a, b, c, d, e, f, r3. split; [reflexivity|].
  destruct (Ascii.eqb_spec a "\") as [-> | Ha].
  2: { destruct a as [[] [] [] [] [] [] [] []]; try discriminate Hg.
       contradiction Ha. reflexivity. }
  destruct (Ascii.eqb_spec b "u") as [-> | Hb].
  2: { destruct b as [[] [] [] [] [] [] [] []]; try discriminate Hg.
       contradiction Hb. reflexivity. }
  change (literal (InStringEscU 3)
            (String c (String d (String e (String f r3)))) = true) in Hl.
  rewrite literal_u4 in Hl.
  destruct (hex4 c d e f); [exact Hl | discriminate Hl].
Qed.

(** What [unquote] makes of a string literal is well-formed UTF-8. *)
Lemma unquote_valid n :
  forall raw k,
    (String.length raw <= n)%nat ->
    literal InString raw = true -> conts k raw = true ->
    valid_utf8 k (unquote k raw) = true.
Proof.
  induction n as [|n IH]; intros raw k Hn Hl Hk.
  - destruct raw; [|cbn in Hn; lia].
    destruct k; [reflexivity | discriminate Hk].
  - destruct raw as [|c r]; [destruct k; [reflexivity | discriminate Hk]|].
    cbn [String.length] in Hn.
    destruct k as [|k].
    2: { cbn [conts] in Hk. apply andb_true_iff in Hk as [Hc Hk].
         rewrite unquote_copy. cbn [valid_utf8].
         apply IH; [lia | | exact Hk].
         apply (literal_cont c); [exact Hl|].
         apply between_code in Hc. lia. }
    destruct (Ascii.eqb_spec c "\") as [-> | Hc].
    + change (literal InStringEsc r = true) in Hl.
      destruct r as [|e r1]; [discriminate Hl|].
      cbn [String.length] in Hn.
      destruct (Ascii.eqb_spec e "u") as [-> | He].
      * change (literal (InStringEscU 3) r1 = true) in Hl.
        destruct r1 as [|h1 [|h2 [|h3 [|h4 r2]]]];
          try (cbn [literal] in Hl;
               repeat destruct (byte.hex_value _); discriminate Hl).
        rewrite literal_u4 in Hl. rewrite unquote_u4.
        destruct (hex4 h1 h2 h3 h4) as [rr|]; [|discriminate Hl].
        cbn [String.length] in Hn.
        assert (IH2 : valid_utf8 O (unquote O r2) = true)
          by (apply IH; [lia | exact Hl | reflexivity]).
        destruct (IsSurrogate rr);
          [|rewrite valid_EncodeRune; exact IH2].
        destruct (getu4 r2) as [x|] eqn:Eg.
        2: { unfold utf16_DecodeRune. rewrite valid_EncodeRune. exact IH2. }
        destruct (getu4_literal r2 x Eg Hl)
          as (a & b & c & d & e & f & r3 & -> & Hl3).
        cbn [String.length] in Hn.
        destruct (utf16_DecodeRune rr (Some x));
          rewrite valid_EncodeRune; [|exact IH2].
        apply IH; [lia | exact Hl3 | reflexivity].
      * cbn [literal] in Hl.
        destruct (is_escape e) eqn:Ee.
        2: { destruct (Ascii.eqb_spec e "u"); [contradiction|discriminate]. }
        rewrite (unquote_escape_char e r1 He).
        rewrite valid_utf8_1 by (apply is_escape_ascii, Ee).
        apply IH; [lia | exact Hl | reflexivity].
    + pose proof (literal_plain c r Hl Hc) as Hl'.
      assert (IH1 : valid_utf8 O (unquote O r) = true)
        by (apply IH; [lia | exact Hl' | reflexivity]).
      destruct (N.ltb_spec (byte.code c) 128) as [Hlt | Hge].
      * rewrite (unquote_ascii c r Hc Hlt), (valid_utf8_1 c _ Hlt).
        exact IH1.
      * rewrite (unquote_multi c r Hge).
        destruct (utf8.valid_size (String c r)) as [|m] eqn:Es.
        -- rewrite valid_EncodeRune. exact IH1.
        -- cbn [valid_utf8]. apply N.ltb_ge in Hge. rewrite Hge.
           rewrite (valid_size_unquote c r m Es).
           apply IH; [lia | exact Hl' |].
           apply (valid_size_conts c r m Es).
Qed.

Lemma scan_string_valid s raw rest :
  scan_string InString s = Scanned raw rest ->
  valid_utf8 O (unquote O raw) = true.
Proof.
  intros H. apply (unquote_valid (String.length raw)); [lia | | reflexivity].
  exact (scan_string_literal _ _ _ _ H).
Qed.

Lemma sane_string_ok v : sane v = true -> string_ok v = true.
Proof. destruct v; cbn; auto. Qed.

Lemma scan_values_sane fuel :
  (forall depth s v rest,
     scan_value fuel depth s = Scanned v rest -> sane v = true)
  /\ (forall depth s ms rest,
        scan_members fuel depth s = Scanned ms rest ->
        forallb (fun m => string_ok (snd m)) ms = true).
Proof.
  induction fuel as [|fuel (IHv & IHm)]; [split; discriminate|].
  split; intros depth s.
  - intros v rest. cbn [scan_value].
    destruct (skip_space s) as [|c r]; [discriminate|].
    destruct (Ascii.eqb c "{").
    { destruct (_ <? _)%N; [discriminate|].
      assert (Hm : scan_map JObject (scan_members fuel (depth + 1) r)
                   = Scanned v rest -> sane v = true).
      { intros H. apply scan_map_Scanned in H as (ms & H & ->).
        exact (IHm _ _ _ _ H). }
      destruct (skip_space r) as [|c1 r1]; [exact Hm|].
      destruct c1 as [[] [] [] [] [] [] [] []]; try exact Hm.
      intros [= <- <-]. reflexivity. }
    destruct (Ascii.eqb c "[").
    { destruct (_ <? _)%N; [discriminate|].
      assert (Hm : scan_map JArray (scan_elements fuel (depth + 1) r)
                   = Scanned v rest -> sane v = true).
      { intros H. apply scan_map_Scanned in H as (vs & H & ->).
        reflexivity. }
      destruct (skip_space r) as [|c1 r1]; [exact Hm|].
      destruct c1 as [[] [] [] [] [] [] [] []]; try exact Hm.
      intros [= <- <-]. reflexivity. }
    destruct (Ascii.eqb c byte.dquote).
    { intros H. apply scan_map_Scanned in H as (raw & H & ->).
      exact (scan_string_valid _ _ _ H). }
    destruct (_ || _).
    { intros H. apply scan_map_Scanned in H as (lit & H & ->). reflexivity. }
    destruct (Ascii.eqb c "t").
    { intros H. apply scan_map_Scanned in H as (u & H & ->). reflexivity. }
    destruct (Ascii.eqb c "f").
    { intros H. apply scan_map_Scanned in H as (u & H & ->). reflexivity. }
    destruct (Ascii.eqb c "n"); [|discriminate].
    intros H. apply scan_map_Scanned in H as (u & H & ->). reflexivity.
  - intros ms rest. cbn [scan_members].
    destruct (skip_space s) as [|q r]; [discriminate|].
    destruct (negb _); [discriminate|].
    destruct (scan_string InString r) as [raw rest0| |]; try discriminate.
    destruct (skip_space rest0) as [|c r1]; [discriminate|].
    destruct (negb _); [discriminate|].
    destruct (scan_value fuel depth r1) as [v rest1| |] eqn:Ev;
      try discriminate.
    apply IHv, sane_string_ok in Ev.
    destruct (skip_space rest1) as [|d r2]; [discriminate|].
    destruct (Ascii.eqb d ",").
    { intros H. apply scan_map_Scanned in H as (ms0 & H & ->).
      cbn [forallb snd]. rewrite Ev. exact (IHm _ _ _ _ H). }
    destruct (Ascii.eqb d "}"); [|discriminate].
    intros [= <- <-]. cbn [forallb snd]. rewrite Ev. reflexivity.
Qed.

Lemma readValue_sane body v : readValue body = inr v -> sane v = true.
Proof.
  unfold readValue. destruct (skip_space body) as [|c r]; [discriminate|].
  destruct (scan_value _ 0 (String c r)) as [v0 rest| |] eqn:Ev;
    try discriminate.
  intros [= <-]. exact (proj1 (scan_values_sane _) _ _ _ _ Ev).
Qed.

Lemma ParseInt_in_range s n : ParseInt s = Some n -> int.in_range n = true.
Proof.
  unfold ParseInt.
  destruct (match s with
            | String "-" r => (true, r)
            | String "+" r => (false, r)
            | _ => (false, s)
            end) as [neg u].
  destruct (NilZero.uint_of_string u) as [d|]; [|discriminate].
  cbv zeta. destruct (int.in_range _) eqn:E; [|discriminate].
  intros [= <-]. exact E.
Qed.

Lemma store_int_in_range f v cur :
  int.in_range cur = true -> int.in_range (fst (store_int f v cur)) = true.
Proof.
  intros H. destruct v; cbn [store_int fst]; try exact H.
  destruct (ParseInt lit) as [n|] eqn:E; [|exact H].
  exact (ParseInt_in_range _ _ E).
Qed.

Lemma store_string_valid f v cur :
  string_ok v = true -> valid_utf8 O cur = true ->
  valid_utf8 O (fst (store_string f v cur)) = true.
Proof. intros Hv H. destruct v; cbn [store_string fst]; assumption. Qed.

Lemma portable_parts i n p :
  portable {| ID := i; Name := n; Price := p |} = true
  <-> int.in_range i = true /\ valid_utf8 O n = true
      /\ int.in_range p = true.
Proof.
  unfold portable. cbn [ID Name Price]. rewrite !andb_true_iff. tauto.
Qed.

Lemma store_member_portable st m :
  string_ok (snd m) = true -> portable (fst st) = true ->
  portable (fst (store_member st m)) = true.
Proof.
  destruct st as [[i n p] saved], m as [key v]. cbn [fst snd].
  intros Hv Hp. apply portable_parts in Hp as (Hi & Hn & Hq).
  unfold store_member. destruct (field_of_key key) as [f|];
    [|apply portable_parts; auto].
  destruct (String.eqb f "id").
  { pose proof (store_int_in_range f v i Hi) as H.
    cbn [ID Name Price]. destruct (store_int f v i) as [x e].
    apply portable_parts; auto. }
  destruct (String.eqb f "name").
  { pose proof (store_string_valid f v n Hv Hn) as H.
    cbn [ID Name Price]. destruct (store_string f v n) as [x e].
    apply portable_parts; auto. }
  pose proof (store_int_in_range f v p Hq) as H.
  cbn [ID Name Price]. destruct (store_int f v p) as [x e].
  apply portable_parts; auto.
Qed.

(** Whatever the bytes of the body, [Decode] leaves numbers that fit an
    [int] and a name that is well-formed UTF-8. *)
Lemma Decode_portable body it :
  portable it = true -> portable (fst (Decode body it)) = true.
Proof.
  intros Hp. unfold Decode.
  destruct (readValue body) as [e|v] eqn:Ev; [exact Hp|].
  apply readValue_sane in Ev.
  destruct v; try exact Hp. cbn [Unmarshal sane] in *.
  assert (H : forall st,
             portable (fst st) = true ->
             portable (fst (fold_left store_member members st)) = true).
  { induction members as [|m ms IH]; intros st Hst; [exact Hst|].
    cbn [forallb] in Ev. apply andb_true_iff in Ev as [Hm Hms].
    cbn [fold_left]. apply (IH Hms).
    apply store_member_portable; assumption. }
  apply H. exact Hp.
Qed.
End sanitising.

Lemma add_in_range a b : int.in_range (int.add a b) = true.
Proof.
  unfold int.in_range, int.add, int.wrap, int.MinInt, int.MaxInt.
  pose proof (Z.mod_pos_bound (a + b + 2 ^ 63) (2 ^ 64) eq_refl) as H.
  apply andb_true_iff. split; apply Z.leb_le; lia.
Qed.

Lemma after_portable os r wd :
  forallb portable (items wd) = true ->
  forallb portable (items (after os r wd)) = true.
Proof.
  intros Hp.
  destruct (after_cases os r wd) as [H | [H | [H | (it & Hd & _ & _ & H)]]];
    rewrite H; cbn [logged items]; try exact Hp.
  rewrite forallb_app, Hp. cbn [forallb]. rewrite andb_true_r.
  pose proof (Decode_portable (http.Body r) Item_zero eq_refl) as Hit.
  rewrite Hd in Hit. cbn [fst] in Hit. destruct it as [i n p].
  apply portable_parts in Hit as (_ & Hn & Hq).
  apply portable_parts. cbn [with_ID ID Name Price].
  auto using add_in_range.
Qed.

(** X13. Whatever bytes are posted, what gets into the store can be carried
    by JSON: when every item has a well-formed UTF-8 name and numbers that
    fit an [int], as the initial items have, so it is after any sequence
    of requests.  The decoder has replaced what was not UTF-8 in a name
    and refused what overflows a price. *)
Theorem stored_items_stay_portable os rs wd :
  forallb portable (items wd) = true ->
  forallb portable (items (handle_all os rs wd)) = true.
Proof.
  revert wd. induction rs as [|r rs IH]; intros wd Hp; [exact Hp|].
  change (handle_all os (r :: rs) wd) with (handle_all os rs (after os r wd)).
  apply IH, after_portable, Hp.
Qed.

Lemma stored_items_stay_portable_witness :
  let rs := [POST item_not_utf8; POST item_three] in
  forallb portable (items boot) = true
  /\ length (items (handle_all no_files rs boot)) = 4%nat
  /\ forallb portable (items (handle_all no_files rs boot)) = true.
Proof.
  assert (H : forallb portable (items boot) = true)
    by (vm_compute; reflexivity).
  split; [exact H|]. split; [vm_compute; reflexivity|].
  exact (stored_items_stay_portable no_files
           [POST item_not_utf8; POST item_three] boot H).
Defined.

(** ** The end of the process, and what it leaves of the store *)

Lemma run_snoc os p es e : run os p (es ++ [e]) = step os (run os p es) e.
Proof. unfold run. rewrite fold_left_app. reflexivity. Qed.



(** What a request makes of [items] depends on [items] alone. *)
Lemma after_items os r wd1 wd2 :
  items wd1 = items wd2 ->
  items (after os r wd1) = items (after os r wd2).
Proof.
  intros H. unfold after.
  destruct (String.eqb_spec (mux.cleanPath (http.Path r)) (http.Path r))
    as [Hc | Hc].
  2: { rewrite !(handle_redirect os r _ Hc). exact H. }
  destruct (strings.HasPrefix (http.Path r) "/static/") eqn:Hs.
  { rewrite !(handle_static_route os r _ Hc Hs). exact H. }
  destruct (String.eqb_spec (http.Path r) "/api/items") as [Hp | Hp].
  2: { rewrite !(handle_not_found os r _ Hc Hs Hp). exact H. }
  destruct (String.eqb_spec (http.Method r) "GET") as [Hg | Hg].
  { rewrite !(handle_get os r _ Hg Hp). cbn [fst logged items].
    destruct (select (2 * time.Second) (http.Done r) (http.tie r)) eqn:E.
    - rewrite !(GetItemsHandler_After _ _ E). exact H.
    - rewrite !(GetItemsHandler_Done _ _ E). exact H. }
  destruct (String.eqb_spec (http.Method r) "POST") as [Hq | Hq].
  2: { rewrite !(handle_not_allowed os r _ Hp Hg Hq). exact H. }
  rewrite !(handle_post os r _ Hq Hp). cbn [fst logged items].
  destruct (json.Decode (http.Body r) Item_zero) as [it [e|]] eqn:Hd.
  - rewrite !(AddItemHandler_rejected _ _ _ _ Hd). exact H.
  - rewrite !(AddItemHandler_created _ _ _ Hd). cbn [fst items].
    rewrite H. reflexivity.
Qed.

Lemma handle_all_items os rs wd1 wd2 :
  items wd1 = items wd2 ->
  items (handle_all os rs wd1) = items (handle_all os rs wd2).
Proof.
  revert wd1 wd2. induction rs as [|r rs IH]; intros wd1 wd2 H; [exact H|].
  change (handle_all os (r :: rs) wd1)
    with (handle_all os rs (after os r wd1)).
  change (handle_all os (r :: rs) wd2)
    with (handle_all os rs (after os r wd2)).
  apply IH, after_items, H.
Qed.

(** A step of the process leaves [items] alone, unless it serves a
    request. *)
Lemma step_items os p e :
  items (world (step os p e)) = items (world p)
  \/ exists r, e = request r /\ world (step os p e) = after os r (world p).
Proof.
  unfold step. destruct (exited p); [left; reflexivity|].
  destruct e as [| |err|sig|r|[err|]];
    try (destruct (pc_main p), (pc_srv p); left; reflexivity).
  - destruct (pc_main p); try (left; reflexivity).
    destruct (quit p) as [[[|s b] n l]|]; left; reflexivity.
  - destruct (wants sig (quit p));
      destruct (pc_main p), (pc_srv p); left; reflexivity.
  - destruct (pc_main p), (pc_srv p); try (left; reflexivity).
    right. exists r. split; reflexivity.
Qed.

(** X15. Nothing but the requests it serves changes the store of the process:
    whatever happens, goroutines being scheduled, signals, errors of the
    listener, [items] is what serving some of the requests that arrived,
    one after the other and in their order, makes of the items there
    were; from the start of [main], of the initial items. *)
Theorem store_is_of_requests os es :
  forall p,
    exists rs,
      sublist rs (requests es)
      /\ items (world (run os p es)) = items (handle_all os rs (world p)).
Proof.
  induction es as [|e es IH]; intros p.
  - exists []. split; [constructor | reflexivity].
  - cbn [run fold_left]. destruct (IH (step os p e)) as (rs & Hs & Hi).
    fold (run os (step os p e) es). rewrite Hi.
    destruct (step_items os p e) as [H | (r & -> & H)].
    + exists rs. split; [|apply handle_all_items, H].
      unfold requests. cbn [omap]. fold (requests es).
      destruct e; try exact Hs. apply sublist_cons, Hs.
    + exists (r :: rs). split; [|rewrite H; reflexivity].
      unfold requests. cbn [omap]. fold (requests es).
      apply sublist_skip, Hs.
Qed.

(** ** The first line of the log *)

Lemma step_begun os p e : never_shut p -> begun p -> begun (step os p e).
Proof.
  intros (Hpc & Hq & _) Hb. pose proof Hb as (Hm & Hl). unfold step.
  destruct (exited p); [exact Hb|].
  destruct e as [| |err|sig|r|err].
  - destruct (pc_main p) eqn:Em; try exact Hb.
    + rewrite (Hm eq_refl) in Hl. split; [intros E; cbn in E; discriminate E | exact Hl].
    + destruct (quit p) as [[[|s b] n l]|]; try exact Hb.
      destruct Hq as [Hbuf _]. cbn in Hbuf. discriminate Hbuf.
  - destruct (pc_srv p) eqn:Es;
      try (destruct (pc_main p); exact Hb).
    destruct Hpc as [Hpc | Hpc]; [specialize (Hm Hpc); congruence|].
    rewrite Hpc. split; [intros E; discriminate E|].
    exists []. cbn [pc_srv world logged log]. rewrite Hl.
    split; [reflexivity | constructor].
  - destruct (pc_srv p) eqn:Es;
      try (destruct (pc_main p); exact Hb).
    destruct Hpc as [Hpc | Hpc]; [specialize (Hm Hpc); congruence|].
    rewrite Hpc. split; [intros E; discriminate E|].
    destruct Hl as (rest & Hlog & Hrest).
    exists (rest ++ [Fatal err]). cbn [pc_srv world logged log].
    rewrite Hlog. split; [reflexivity|].
    apply Forall_app. split; [exact Hrest|].
    constructor; [left; eauto | constructor].
  - rewrite (wants_idle sig _ Hq).
    destruct (pc_main p), (pc_srv p); split; assumption.
  - destruct (pc_main p) eqn:Em; try exact Hb.
    destruct (pc_srv p) eqn:Es; try exact Hb.
    split; [intros E; cbn in E; discriminate E|]. cbn [pc_srv world].
    destruct Hl as (rest & Hlog & Hrest).
    destruct (tame_srv os r (world p)) as [_ (lines & Hlines & Hf)].
    change (serve (Handler (main_srv os)) r (world p))
      with (handle os r (world p)) in Hlines.
    exists (rest ++ lines). rewrite Hlines, Hlog.
    split; [reflexivity|]. apply Forall_app. split; [exact Hrest|].
    eapply Forall_impl; [exact Hf|]. intros e He. right. exact He.
  - destruct Hpc as [Hpc | Hpc]; rewrite Hpc; destruct err; exact Hb.
Qed.


(** ** The static route and the method of the request *)

(** Without the three headers whose test asks for the method, the
    method is not looked at before the content is sent. *)
Lemma absent_checks os w r t :
  http.Get r "If-None-Match" = EmptyString ->
  http.Get r "If-Modified-Since" = EmptyString ->
  http.Get r "If-Range" = EmptyString ->
  http.checkIfNoneMatch w r = http.condNone
  /\ http.checkIfModifiedSince os r t = http.condNone
  /\ http.checkIfRange os w r t = http.condNone.
Proof.
  intros H1 H2 H3.
  unfold http.checkIfNoneMatch, http.checkIfModifiedSince, http.checkIfRange.
  rewrite H1, H2, H3. destruct (negb _); auto.
Qed.

Lemma checkPreconditions_Method os w r m t :
  http.Get r "If-None-Match" = EmptyString ->
  http.Get r "If-Modified-Since" = EmptyString ->
  http.Get r "If-Range" = EmptyString ->
  http.checkPreconditions os w (with_Method r m) t
  = http.checkPreconditions os w r t.
Proof.
  intros H1 H2 H3. unfold http.checkPreconditions.
  destruct (absent_checks os w r t H1 H2 H3) as (-> & -> & ->).
  destruct (absent_checks os w (with_Method r m) t H1 H2 H3)
    as (-> & -> & ->).
  reflexivity.
Qed.

Lemma serveContent_Method os r m name t data w :
  http.Method r <> "HEAD" -> m <> "HEAD" ->
  http.Get r "If-None-Match" = EmptyString ->
  http.Get r "If-Modified-Since" = EmptyString ->
  http.Get r "If-Range" = EmptyString ->
  http.serveContent os (with_Method r m) name t data w
  = http.serveContent os r name t data w.
Proof.
  intros Hr Hm H1 H2 H3. unfold http.serveContent, http.sendContent.
  rewrite (checkPreconditions_Method os _ r m t H1 H2 H3).
  cbn [http.Method with_Method].
  destruct (String.eqb_spec m "HEAD"); [contradiction|].
  destruct (String.eqb_spec (http.Method r) "HEAD"); [contradiction|].
  reflexivity.
Qed.

Lemma serveFile_Method os r m dir name redirect w :
  http.Method r <> "HEAD" -> m <> "HEAD" ->
  http.Get r "If-None-Match" = EmptyString ->
  http.Get r "If-Modified-Since" = EmptyString ->
  http.Get r "If-Range" = EmptyString ->
  http.serveFile os (with_Method r m) dir name redirect w
  = http.serveFile os r dir name redirect w.
Proof.
  intros Hr Hm H1 H2 H3. unfold http.serveFile.
  cbn [http.Path with_Method]. cbv zeta.
  destruct (strings.HasSuffix (http.Path r) "/index.html"); [reflexivity|].
  assert (Hc : forall t, http.checkIfModifiedSince os (with_Method r m) t
                         = http.checkIfModifiedSince os r t).
  { intros t.
    destruct (absent_checks os w r t H1 H2 H3) as (_ & -> & _).
    destruct (absent_checks os w (with_Method r m) t H1 H2 H3)
      as (_ & -> & _).
    reflexivity. }
  destruct (http.Open os (http.Dir_path dir name)); try reflexivity.
  - destruct (negb _); [reflexivity|].
    destruct (http.Open os _); rewrite ?Hc; try reflexivity.
    apply serveContent_Method; assumption.
  - destruct (_ && _); [reflexivity|].
    apply serveContent_Method; assumption.
Qed.

(** X17. The route of [/static/] is bound to no method: whatever the method of
    the request, [HEAD] apart, the reply is the one a [GET] receives, as
    long as the request carries none of the three header fields whose
    test asks for the method: [If-None-Match], [If-Modified-Since] and
    [If-Range]. *)
Theorem static_takes_every_method os r m wd :
  strings.HasPrefix (http.Path r) "/static/" = true ->
  http.Method r <> "HEAD" -> m <> "HEAD" ->
  http.Get r "If-None-Match" = EmptyString ->
  http.Get r "If-Modified-Since" = EmptyString ->
  http.Get r "If-Range" = EmptyString ->
  reply os (with_Method r m) wd = reply os r wd.
Proof.
  intros Hs Hr Hm H1 H2 H3. unfold reply.
  destruct (String.eqb_spec (mux.cleanPath (http.Path r)) (http.Path r))
    as [Hc | Hc].
  2: { rewrite (handle_redirect os r wd Hc),
         (handle_redirect os (with_Method r m) wd Hc). reflexivity. }
  rewrite (handle_static_route os r wd Hc Hs),
    (handle_static_route os (with_Method r m) wd Hc Hs). cbn [snd].
  unfold http.StripPrefix. cbv beta iota. cbn [with_Method http.Path http.RawPath]. cbv zeta.
  destruct (_ && _); [|reflexivity].
  unfold http.FileServer.
  cbn [http.Path http.with_Path http.with_RawPath with_Method].
  set (rp := strings.TrimPrefix (http.RawPath r) "/static/").
  set (p := strings.TrimPrefix (http.Path r) "/static/").
  set (upath := if strings.HasPrefix p "/" then p else "/" +:+ p).
  apply (serveFile_Method os
           (http.with_Path (http.with_RawPath (http.with_Path r p) rp) upath)
           m "./static" (path.Clean upath) true http.NewRecorder);
    assumption.
Qed.

Lemma static_takes_every_method_witness :
  let r := GET "/static/app.js" None in
  (strings.HasPrefix (http.Path r) "/static/" = true
   /\ http.Method r <> "HEAD" /\ "DELETE" <> "HEAD"
   /\ http.Get r "If-None-Match" = EmptyString
   /\ http.Get r "If-Modified-Since" = EmptyString
   /\ http.Get r "If-Range" = EmptyString)
  /\ reply site (with_Method r "DELETE") boot = reply site r boot
  /\ http.body (reply site (with_Method r "DELETE") boot) = "let x = 1;".
Proof.
  split; [repeat split; discriminate|].
  split; [|vm_compute; reflexivity].
  apply (static_takes_every_method site (GET "/static/app.js" None)
           "DELETE" boot);
    [reflexivity | discriminate | discriminate
    | reflexivity | reflexivity | reflexivity].
Defined.

(** With one of the three, the method tells: a precondition that does not
    hold is answered 304 to a [GET] and 412 to a [DELETE]. *)
Example static_precondition_by_method :
  let r := with_Field (GET "/static/app.js" None) "If-None-Match" "*" in
  http.Code (reply site r boot) = http.StatusNotModified
  /\ http.Code (reply site (with_Method r "DELETE") boot)
     = http.StatusPreconditionFailed.
Proof. vm_compute. split; reflexivity. Qed.

(** ** The case of the keys *)

Section keys.
Import json.

Lemma to_lower_idem c : byte.to_lower (byte.to_lower c) = byte.to_lower c.
Proof. destruct c as [[] [] [] [] [] [] [] []]; vm_compute; reflexivity. Qed.

Lemma ToLower_idem s : strings.ToLower (strings.ToLower s) = strings.ToLower s.
Proof.
  induction s as [|c s IH]; [reflexivity|].
  cbn [strings.ToLower]. rewrite to_lower_idem, IH. reflexivity.
Qed.

Lemma field_of_key_ToLower key :
  field_of_key (strings.ToLower key) = field_of_key key.
Proof.
  unfold field_of_key, fields, strings.EqualFold. cbn [find].
  rewrite ToLower_idem.
  change (strings.ToLower "id") with "id".
  change (strings.ToLower "name") with "name".
  change (strings.ToLower "price") with "price".
  destruct (String.eqb_spec key "id") as [-> | _]; [reflexivity|].
  destruct (String.eqb_spec key "name") as [-> | _]; [reflexivity|].
  destruct (String.eqb_spec key "price") as [-> | _]; [reflexivity|].
  destruct (String.eqb (strings.ToLower key) "id"); [reflexivity|].
  destruct (String.eqb (strings.ToLower key) "name"); [reflexivity|].
  destruct (String.eqb (strings.ToLower key) "price"); reflexivity.
Qed.

Lemma Unmarshal_lower_keys ms it :
  Unmarshal (JObject (lower_keys ms)) it = Unmarshal (JObject ms) it.
Proof.
  cbn [Unmarshal]. generalize (it, @None DecodeError).
  induction ms as [|[key v] ms IH]; intros st; [reflexivity|].
  cbn [lower_keys map fold_left fst snd]. fold (lower_keys ms).
  rewrite <- IH. f_equal. destruct st as [it0 saved].
  unfold store_member. rewrite field_of_key_ToLower. reflexivity.
Qed.
End keys.

(** X18. The keys of a posted object select the fields of [Item] whatever
    their case: a body read as an object, and a body read as the same
    object with its keys in lower case, are answered alike and store the
    same item. *)
Theorem post_ignores_case_of_keys os r1 r2 wd ms :
  http.Method r1 = "POST" -> http.Path r1 = "/api/items" ->
  http.Method r2 = "POST" -> http.Path r2 = "/api/items" ->
  json.readValue (http.Body r1) = inr (json.JObject ms) ->
  json.readValue (http.Body r2) = inr (json.JObject (lower_keys ms)) ->
  handle os r1 wd = handle os r2 wd.
Proof.
  intros Hm1 Hp1 Hm2 Hp2 Hv1 Hv2.
  rewrite (handle_post os r1 wd Hm1 Hp1), (handle_post os r2 wd Hm2 Hp2).
  assert (Hd : json.Decode (http.Body r2) Item_zero
               = json.Decode (http.Body r1) Item_zero).
  { unfold json.Decode. rewrite Hv1, Hv2. apply Unmarshal_lower_keys. }
  assert (H : serve AddItemHandler r2 wd = serve AddItemHandler r1 wd).
  { destruct (json.Decode (http.Body r1) Item_zero) as [it [e|]] eqn:E.
    - rewrite (AddItemHandler_rejected r1 wd it e E).
      exact (AddItemHandler_rejected r2 wd it e Hd).
    - rewrite (AddItemHandler_created r1 wd it E).
      exact (AddItemHandler_created r2 wd it Hd). }
  rewrite H. reflexivity.
Qed.

Lemma post_ignores_case_of_keys_witness :
  let ms := [("NAME", json.JString "Item Three");
             ("Price", json.JNumber "300")] in
  (json.readValue (http.Body (POST item_three_upper)) = inr (json.JObject ms)
   /\ json.readValue (http.Body (POST item_three))
      = inr (json.JObject (lower_keys ms)))
  /\ handle no_files (POST item_three_upper) boot
     = handle no_files (POST item_three) boot.
Proof.
  assert (H1 : json.readValue (http.Body (POST item_three_upper))
               = inr (json.JObject [("NAME", json.JString "Item Three");
                                    ("Price", json.JNumber "300")]))
    by (vm_compute; reflexivity).
  assert (H2 : json.readValue (http.Body (POST item_three))
               = inr (json.JObject
                        (lower_keys [("NAME", json.JString "Item Three");
                                     ("Price", json.JNumber "300")])))
    by (vm_compute; reflexivity).
  split; [split; assumption|].
  exact (post_ignores_case_of_keys no_files (POST item_three_upper)
           (POST item_three) boot _ eq_refl eq_refl eq_refl eq_refl H1 H2).
Defined.

(** ** The statuses of the server *)


(** ** The reply to a creation, read back *)

(** X20. What a client reads of the reply to a successful [POST] is the item
    that was stored, whole: decoding the body gives the last of [items],
    with the identifier it was given, the name as the decoder made it and
    the price. *)
Theorem created_reply_reads_back os r wd it :
  http.Method r = "POST" -> http.Path r = "/api/items" ->
  json.Decode (http.Body r) Item_zero = (it, None) ->
  json.Decode (http.body (reply os r wd)) Item_zero
  = (with_ID it (int.add (len (items wd)) 1), None)
  /\ last (items (after os r wd))
     = Some (with_ID it (int.add (len (items wd)) 1)).
Proof.
  intros Hm Hp Hd. unfold reply, after.
  rewrite (handle_post os r wd Hm Hp), (AddItemHandler_created r wd it Hd).
  cbn [fst snd logged items json_reply http.body]. split.
  - apply Decode_Encode_of_Item.
    pose proof (Decode_portable (http.Body r) Item_zero eq_refl) as Hit.
    rewrite Hd in Hit. cbn [fst] in Hit. destruct it as [i n p].
    apply portable_parts in Hit as (_ & Hn & Hq).
    apply portable_parts. cbn [with_ID ID Name Price].
    auto using add_in_range.
  - apply last_snoc.
Qed.

Lemma created_reply_reads_back_witness :
  let r := POST item_not_utf8 in
  let name := utf8.EncodeRune utf8.RuneError
              +:+ utf8.EncodeRune utf8.RuneError in
  (http.Method r = "POST" /\ http.Path r = "/api/items"
   /\ json.Decode (http.Body r) Item_zero
      = ({| ID := 0; Name := name; Price := 1 |}, None))
  /\ json.Decode (http.body (reply no_files r boot)) Item_zero
     = ({| ID := 3; Name := name; Price := 1 |}, None).
Proof.
  assert (Hd : json.Decode (http.Body (POST item_not_utf8)) Item_zero
               = ({| ID := 0;
                     Name := utf8.EncodeRune utf8.RuneError
                             +:+ utf8.EncodeRune utf8.RuneError;
                     Price := 1 |}, None)) by (vm_compute; reflexivity).
  split; [split; [reflexivity | split; [reflexivity | exact Hd]]|].
  exact (proj1 (created_reply_reads_back no_files (POST item_not_utf8) boot
                  _ eq_refl eq_refl Hd)).
Defined.

(** ** What the JSON replies are made of *)

Section inertness.
Import json.

Lemma inert_app s t : inert (s +:+ t) = inert s && inert t.
Proof.
  induction s as [|c s IH]; [reflexivity|].
  rewrite append_String. cbn [inert]. rewrite IH, andb_assoc. reflexivity.
Qed.

Lemma inert_escape_byte c : inert (escape_byte c) = true.
Proof. destruct c as [[] [] [] [] [] [] [] []]; vm_compute; reflexivity. Qed.

Lemma htmlSafe_markup c : htmlSafe c = true -> markup c = false.
Proof.
  destruct c as [[] [] [] [] [] [] [] []]; intros H;
    try (vm_compute in H; discriminate H); vm_compute; reflexivity.
Qed.

Lemma high_markup c : (128 <= byte.code c)%N -> markup c = false.
Proof.
  destruct c as [[] [] [] [] [] [] [] []]; intros H;
    try (exfalso; vm_compute in H; apply H; reflexivity);
    vm_compute; reflexivity.
Qed.

(** What the encoder writes of a string holds no control character and
    none of [<], [>] and [&]. *)
Lemma inert_escape n :
  forall s k,
    (String.length s <= n)%nat -> conts k s = true ->
    inert (escape k s) = true.
Proof.
  induction n as [|n IH]; intros s k Hn Hk.
  - destruct s; [|cbn in Hn; lia]. destruct k; reflexivity.
  - destruct s as [|c r]; [destruct k; reflexivity|].
    cbn [String.length] in Hn.
    assert (IH0 : inert (escape O r) = true)
      by (apply IH; [lia | reflexivity]).
    destruct k as [|k].
    2: { cbn [conts] in Hk. apply andb_true_iff in Hk as [Hc Hk].
         cbn [escape inert]. rewrite (IH r k) by (try lia; exact Hk).
         rewrite high_markup; [reflexivity|].
         apply between_code in Hc. lia. }
    cbn [escape].
    destruct (N.ltb_spec (byte.code c) 128) as [Hlt | Hge].
    + destruct (htmlSafe c) eqn:Hs.
      * cbn [inert]. rewrite (htmlSafe_markup c Hs), IH0. reflexivity.
      * rewrite inert_app, inert_escape_byte, IH0. reflexivity.
    + destruct (utf8.valid_size (String c r)) as [|m] eqn:Es.
      { rewrite inert_app, IH0. reflexivity. }
      destruct (valid_size_conts c r m Es) as [Hm _].
      assert (Hc : inert (String c (escape m r)) = true).
      { cbn [inert]. rewrite (high_markup c Hge).
        apply IH; [lia | exact Hm]. }
      destruct (line_separator (String c r)) as [d|] eqn:El; [|exact Hc].
      destruct r as [|b1 [|b2 r1]]; try exact Hc.
      destruct (line_separator_bytes _ _ _ El) as (_ & _ & Hd).
      rewrite inert_app. cbn [String.length] in Hn.
      assert (IH1 : inert (escape O r1) = true)
        by (apply IH; [lia | reflexivity]).
      destruct Hd as [-> | ->]; cbn [inert]; rewrite IH1; reflexivity.
Qed.

Lemma inert_quote s : inert (quote s) = true.
Proof.
  unfold quote. rewrite append_String. cbn [inert]. rewrite inert_app.
  rewrite (inert_escape _ s O (le_n _) eq_refl). reflexivity.
Qed.

Lemma inert_string_of_uint d : inert (NilEmpty.string_of_uint d) = true.
Proof. induction d; cbn [NilEmpty.string_of_uint inert]; auto. Qed.

Lemma inert_Itoa z : inert (Itoa z) = true.
Proof.
  unfold Itoa.
  destruct (Z.to_int z) as [d | d]; cbn [NilZero.string_of_int];
    destruct d; cbn [NilZero.string_of_uint inert];
    try reflexivity; apply (inert_string_of_uint _).
Qed.

Lemma inert_String c rest :
  markup c = false -> inert (String c rest) = inert rest.
Proof. intros H. cbn [inert]. rewrite H. reflexivity. Qed.

Lemma inert_quote_app s rest : inert (quote s +:+ rest) = inert rest.
Proof. rewrite inert_app, inert_quote. reflexivity. Qed.

Lemma inert_Itoa_app z rest : inert (Itoa z +:+ rest) = inert rest.
Proof. rewrite inert_app, inert_Itoa. reflexivity. Qed.

Lemma inert_of_Item it rest :
  inert (Marshal (of_Item it) +:+ rest) = inert rest.
Proof.
  rewrite Marshal_of_Item.
  rewrite (inert_String "{" _ eq_refl), (inert_quote_app "id").
  rewrite (inert_String ":" _ eq_refl), (inert_Itoa_app (ID it)).
  rewrite (inert_String "," _ eq_refl), (inert_quote_app "name").
  rewrite (inert_String ":" _ eq_refl), (inert_quote_app (Name it)).
  rewrite (inert_String "," _ eq_refl), (inert_quote_app "price").
  rewrite (inert_String ":" _ eq_refl), (inert_Itoa_app (Price it)).
  exact (inert_String "}" rest eq_refl).
Qed.

Lemma inert_concat l rest :
  inert (String.concat "," (map Marshal (map of_Item l)) +:+ rest)
  = inert rest.
Proof.
  induction l as [|it l IH]; [reflexivity|].
  cbn [map String.concat].
  destruct (map Marshal (map of_Item l)) eqn:E.
  - apply inert_of_Item.
  - rewrite !append_assoc, inert_of_Item.
    rewrite (append_String "," EmptyString).
    rewrite (inert_String "," _ eq_refl). exact IH.
Qed.

Lemma inert_of_Items l : inert (Marshal (of_Items l)) = true.
Proof.
  unfold of_Items. cbn [Marshal].
  rewrite (append_String "[" EmptyString).
  rewrite (inert_String "[" _ eq_refl).
  change (EmptyString +:+ ?x) with x.
  rewrite inert_concat. reflexivity.
Qed.
End inertness.

(** X21. A listing and the reply to a creation are one line that holds no
    byte below 32 (no line feed, no carriage return, no escape, no other
    control character of that range) and none of [<], [>] and [&],
    whatever the names of the items: the encoder writes such bytes as
    escapes.  The bytes from 127 on are another matter: DEL and the
    control characters U+0080 to U+009F are written as they are. *)
Theorem json_replies_are_inert os r wd :
  http.Path r = "/api/items" ->
  http.Code (reply os r wd) = http.StatusOK
  \/ http.Code (reply os r wd) = http.StatusCreated ->
  exists line,
    http.body (reply os r wd) = line +:+ http.newline
    /\ inert line = true.
Proof.
  intros Hp. unfold reply.
  destruct (String.eqb_spec (http.Method r) "GET") as [Hg | Hg].
  { rewrite (handle_get os r wd Hg Hp). cbn [snd].
    destruct (select (2 * time.Second) (http.Done r) (http.tie r)) eqn:E.
    - rewrite (GetItemsHandler_After _ _ E). intros _.
      exists (json.Marshal (json.of_Items (items wd))).
      split; [reflexivity | apply inert_of_Items].
    - rewrite (GetItemsHandler_Done _ _ E). intros [H | H]; discriminate H. }
  destruct (String.eqb_spec (http.Method r) "POST") as [Hq | Hq].
  2: { rewrite (handle_not_allowed os r wd Hp Hg Hq).
       intros [H | H]; discriminate H. }
  rewrite (handle_post os r wd Hq Hp). cbn [snd].
  destruct (json.Decode (http.Body r) Item_zero) as [it [e|]] eqn:Hd.
  - rewrite (AddItemHandler_rejected _ _ _ _ Hd).
    intros [H | H]; discriminate H.
  - rewrite (AddItemHandler_created _ _ _ Hd). intros _.
    eexists. split; [reflexivity|].
    rewrite <- (append_nil_r (json.Marshal _)). apply inert_of_Item.
Qed.

Lemma json_replies_are_inert_witness :
  let r := GET "/api/items" None in
  let wd := after no_files (POST item_script) boot in
  (http.Path r = "/api/items"
   /\ (http.Code (reply no_files r wd) = http.StatusOK
       \/ http.Code (reply no_files r wd) = http.StatusCreated))
  /\ length (items wd) = 3%nat
  /\ exists line,
       http.body (reply no_files r wd) = line +:+ http.newline
       /\ inert line = true.
Proof.
  assert (H : http.Code (reply no_files (GET "/api/items" None)
                           (after no_files (POST item_script) boot))
              = http.StatusOK) by (vm_compute; reflexivity).
  split; [split; [reflexivity | left; exact H]|].
  split; [vm_compute; reflexivity|].
  exact (json_replies_are_inert no_files (GET "/api/items" None)
           (after no_files (POST item_script) boot) eq_refl (or_introl H)).
Defined.

(** DEL and the control characters beyond ASCII are not escaped. *)
Example later_controls_are_not_escaped :
  let del := String (byte.of_N 127) EmptyString in
  let nel := utf8.EncodeRune 133 in
  json.escape 0 del = del /\ json.escape 0 nel = nel
  /\ inert (del +:+ nel) = true.
Proof. vm_compute. repeat split. Qed.
